(** * Task-based model routing: a shallow embedding and its checked properties

  The development follows the TypeScript sources of the router:
  - [task-classifier.ts]   (module [TaskClassifier])
  - [model-capabilities.ts] (module [ModelCapabilities])
  - [model-scorer.ts]      (module [ModelScorer])
  - [task-router.ts]       (module [TaskRouter])
  - [model-catalog.ts]     (module [ModelCatalog])

  Conventions of the embedding.
  - A JavaScript [number] is an exact rational ([Q]); [NaN] and the
    infinities are outside the model and rounding is not modelled.
    [===] on numbers is [Qeq_bool], [<] and [<=] are decided by [Qle_bool].
    A computed value that is exactly at a constant it is compared with
    (a weight sum exactly 0.001 away from 1, a cost total of exactly 2)
    can fall to either side of the comparison in double arithmetic, so
    the properties below that turn on such a comparison speak of the
    values strictly on either side of the constant.
  - A JavaScript string is a [string] whose characters are the code units
    below 256 (ASCII and Latin-1); [length], [trim], [toLowerCase] and the
    regular-expression classes are those of ECMAScript on that range.
  - [T | undefined] is [option T]; an optional parameter is an [option].
  - [Array.prototype.toSorted] / [sort] with a comparator is the stable
    insertion sort [Js.toSorted]. *)

From Stdlib Require Import QArith Qabs Qround Qminmax Lqa.
From Stdlib Require Import ZArith NArith Lia Bool List String Ascii.
From Stdlib Require Import DecimalString Permutation Sorted.
Import ListNotations.

Set Implicit Arguments.

(* ================================================================== *)
(** ** JavaScript primitives *)
(* ================================================================== *)

Module Js.

Open Scope Q_scope.

(** *** Numbers *)

Definition ltb (x y : Q) : bool := negb (Qle_bool y x).
Definition leb (x y : Q) : bool := Qle_bool x y.
Definition gtb (x y : Q) : bool := ltb y x.
Definition geb (x y : Q) : bool := leb y x.
Definition eqb (x y : Q) : bool := Qeq_bool x y.

Definition min (x y : Q) : Q := if leb x y then x else y.
Definition max (x y : Q) : Q := if leb x y then y else x.
Definition abs (x : Q) : Q := if leb 0 x then x else - x.

(** [Math.round]: the nearest integer, halves rounded up. *)
Definition round (x : Q) : Z := Qfloor (x + 0.5).

(** Template-literal rendering of an integer. *)
Definition showInt (z : Z) : string := NilZero.string_of_int (Z.to_int z).

Definition ofNat (n : nat) : Q := inject_Z (Z.of_nat n).

(** *** Characters and strings *)

Definition code (c : ascii) : N := N_of_ascii c.

Definition inRange (lo hi : N) (c : ascii) : bool :=
  ((lo <=? code c) && (code c <=? hi))%N.

(** WhiteSpace and LineTerminator code units below 256: TAB, LF, VT, FF,
    CR, SP and NBSP. *)
Definition isWhiteSpace (c : ascii) : bool :=
  inRange 9 13 c || (code c =? 32)%N || (code c =? 160)%N.

Definition isDigit (c : ascii) : bool := inRange 48 57 c.

(** The class [\w]. *)
Definition isWordChar (c : ascii) : bool :=
  inRange 65 90 c || inRange 97 122 c || isDigit c || (code c =? 95)%N.

Definition isLineTerminator (c : ascii) : bool :=
  (code c =? 10)%N || (code c =? 13)%N.

(** [String.prototype.toLowerCase] on one code unit. *)
Definition lowerChar (c : ascii) : ascii :=
  if inRange 65 90 c || inRange 192 214 c || inRange 216 222 c
  then ascii_of_N (code c + 32) else c.

Definition chars (s : string) : list ascii := list_ascii_of_string s.
Definition str (l : list ascii) : string := string_of_list_ascii l.

Definition toLowerCase (s : string) : string := str (map lowerChar (chars s)).

Fixpoint dropWhile (p : ascii -> bool) (l : list ascii) : list ascii :=
  match l with
  | [] => []
  | c :: l' => if p c then dropWhile p l' else l
  end.

Definition trimChars (l : list ascii) : list ascii :=
  rev (dropWhile isWhiteSpace (rev (dropWhile isWhiteSpace l))).

Definition trim (s : string) : string := str (trimChars (chars s)).

Definition isEmpty (s : string) : bool :=
  match s with EmptyString => true | _ => false end.

(** Truthiness of a string. *)
Definition truthy (s : string) : bool := negb (isEmpty s).

Definition streq (a b : string) : bool := String.eqb a b.

(** [s.indexOf(c)] for a one-character needle; [None] stands for [-1]. *)
Fixpoint indexOfChars (c : ascii) (l : list ascii) : option nat :=
  match l with
  | [] => None
  | x :: l' =>
      if Ascii.eqb x c then Some O
      else option_map S (indexOfChars c l')
  end.

Definition indexOf (c : ascii) (s : string) : option nat :=
  indexOfChars c (chars s).

(** [s.slice(0, n)] and [s.slice(n)] for [0 <= n]. *)
Definition sliceTo (n : nat) (s : string) : string := str (firstn n (chars s)).
Definition sliceFrom (n : nat) (s : string) : string := str (skipn n (chars s)).

Definition includes (needle : string) (l : list string) : bool :=
  existsb (streq needle) l.

(** *** Sorting with a comparator

  [cmp a b < 0] places [a] first, [cmp a b > 0] places [b] first, and
  elements that compare equal keep their order.  For a comparator that is
  a consistent ordering every stable sort returns this list; for one that
  is not (ties that are not transitive) ECMAScript leaves the order to the
  engine, and the insertion below is the model's choice.  What is proved
  about such a comparator only uses that neighbours in the result have
  been compared with each other. *)
Section Sort.
Variable A : Type.
Variable cmp : A -> A -> Q.

Fixpoint insertSorted (x : A) (l : list A) : list A :=
  match l with
  | [] => [x]
  | y :: l' =>
      if ltb 0 (cmp x y) then y :: insertSorted x l' else x :: l
  end.

Definition toSorted (l : list A) : list A :=
  fold_right insertSorted [] l.
End Sort.

End Js.

(* ================================================================== *)
(** ** The regular expressions used by the classifier and the resolver *)
(* ================================================================== *)

Module Regex.

(** The fragment of ECMAScript patterns that occurs in the sources, all
    with the [i] flag and none with [g], [u] or [y].  Every pattern
    character is ASCII, so case folding only identifies [A-Z] with
    [a-z]. *)
Inductive re : Type :=
| Void                      (* matches nothing *)
| Eps                       (* the empty string *)
| Chr (c : ascii)           (* a literal, case-insensitive *)
| Cls (cs : list ascii)     (* a class [[...]] *)
| Dot                       (* [.] *)
| Digit                     (* [\d] *)
| Space                     (* [\s] *)
| Cat (r s : re)
| Alt (r s : re)
| Star (r : re).

Definition fold (c : ascii) : ascii :=
  if Js.inRange 65 90 c then ascii_of_N (Js.code c + 32) else c.

Definition sameChar (p x : ascii) : bool := Ascii.eqb (fold p) (fold x).

Fixpoint nullable (r : re) : bool :=
  match r with
  | Void | Chr _ | Cls _ | Dot | Digit | Space => false
  | Eps | Star _ => true
  | Cat r s => nullable r && nullable s
  | Alt r s => nullable r || nullable s
  end.

Definition cat (r s : re) : re :=
  match r, s with
  | Void, _ | _, Void => Void
  | Eps, _ => s
  | _, _ => Cat r s
  end.

Definition alt (r s : re) : re :=
  match r, s with
  | Void, _ => s
  | _, Void => r
  | _, _ => Alt r s
  end.

Definition ofBool (b : bool) : re := if b then Eps else Void.

(** Brzozowski derivative of [r] by the input character [x]. *)
Fixpoint deriv (x : ascii) (r : re) : re :=
  match r with
  | Void | Eps => Void
  | Chr c => ofBool (sameChar c x)
  | Cls cs => ofBool (existsb (fun c => sameChar c x) cs)
  | Dot => ofBool (negb (Js.isLineTerminator x))
  | Digit => ofBool (Js.isDigit x)
  | Space => ofBool (Js.isWhiteSpace x)
  | Cat r s =>
      alt (cat (deriv x r) s) (if nullable r then deriv x s else Void)
  | Alt r s => alt (deriv x r) (deriv x s)
  | Star r' => cat (deriv x r') (Star r')
  end.

(** A pattern [/\b body \b/i]; the two flags say whether the assertion
    [\b] is present at either end. *)
Record pattern : Type := Pattern {
  wordStart : bool;
  body : re;
  wordEnd : bool
}.

Definition isWord (c : option ascii) : bool :=
  match c with Some x => Js.isWordChar x | None => false end.

(** [\b] between the character before the position and the one after. *)
Definition boundary (prev : option ascii) (rest : list ascii) : bool :=
  xorb (isWord prev) (isWord (hd_error rest)).

(** Does some prefix of [s] match [r], ending where [wEnd] allows? *)
Fixpoint matchHere (wEnd : bool) (r : re) (prev : option ascii)
         (s : list ascii) : bool :=
  match r with
  | Void => false
  | _ =>
      (nullable r && (negb wEnd || boundary prev s))
      || match s with
         | [] => false
         | c :: s' => matchHere wEnd (deriv c r) (Some c) s'
         end
  end.

Fixpoint searchFrom (p : pattern) (prev : option ascii) (s : list ascii)
  : bool :=
  ((negb (wordStart p) || boundary prev s)
     && matchHere (wordEnd p) (body p) prev s)
  || match s with
     | [] => false
     | c :: s' => searchFrom p (Some c) s'
     end.

(** [pattern.test(s)]. *)
Definition test (p : pattern) (s : string) : bool :=
  searchFrom p None (Js.chars s).

(** *** Building patterns *)

Definition lit (s : string) : re :=
  fold_right (fun c r => cat (Chr c) r) Eps (Js.chars s).

Definition oneOf (s : string) : re := Cls (Js.chars s).

Definition alts (l : list re) : re := fold_right alt Void l.

Definition words (l : list string) : re := alts (map lit l).

Definition seq (l : list re) : re := fold_right cat Eps l.

Definition plus (r : re) : re := Cat r (Star r).

(** [/\b(w1|w2|...)\b/i] *)
Definition keywords (l : list string) : pattern :=
  Pattern true (words l) true.

(** [/w1|w2|.../i] *)
Definition anywhere (r : re) : pattern := Pattern false r false.

End Regex.

(* ================================================================== *)
(** ** task-classifier.ts *)
(* ================================================================== *)

Module TaskClassifier.

Import Regex.
Open Scope string_scope.
Open Scope Q_scope.

Inductive TaskType : Type :=
| coding | reasoning | chat | vision | analysis | general.

Inductive TaskComplexity : Type := simple | moderate | complex.

Definition TaskType_eqb (a b : TaskType) : bool :=
  match a, b with
  | coding, coding | reasoning, reasoning | chat, chat
  | vision, vision | analysis, analysis | general, general => true
  | _, _ => false
  end.

Definition TaskComplexity_eqb (a b : TaskComplexity) : bool :=
  match a, b with
  | simple, simple | moderate, moderate | complex, complex => true
  | _, _ => false
  end.

Definition showTaskType (t : TaskType) : string :=
  match t with
  | coding => "coding" | reasoning => "reasoning" | chat => "chat"
  | vision => "vision" | analysis => "analysis" | general => "general"
  end.

Record TaskClassification : Type := {
  type : TaskType;
  complexity : TaskComplexity;
  requiresVision : bool;
  estimatedContextTokens : option Q;
  requiresReasoning : bool;
  confidence : Q
}.

Record TaskClassificationHints : Type := {
  hint_taskType : option TaskType;
  hint_complexity : option TaskComplexity;
  hint_requiresVision : option bool;
  hint_requiresReasoning : option bool
}.

Definition noHints : TaskClassificationHints :=
  {| hint_taskType := None; hint_complexity := None;
     hint_requiresVision := None; hint_requiresReasoning := None |}.

(** [TASK_PATTERNS], keyed by task type. *)
Definition TASK_PATTERNS (t : TaskType) : list pattern :=
  match t with
  | coding =>
      [ keywords ["debug"; "implement"; "refactor"; "function"; "class";
                  "method"; "variable"; "code"; "compile"; "syntax"; "bug";
                  "fix"; "error"; "exception"];
        keywords ["typescript"; "javascript"; "python"; "rust"; "go";
                  "java"; "c++"; "css"; "html"; "sql"; "api"; "endpoint"];
        keywords ["test"; "unit test"; "integration"; "mock"; "stub";
                  "coverage"];
        keywords ["git"; "commit"; "merge"; "branch"; "pull request"; "pr"] ]
  | reasoning =>
      [ keywords ["analyze"; "prove"; "deduce"; "calculate"; "solve";
                  "derive"; "infer"; "reason"; "logic"; "theorem"];
        Pattern true
          (alts [ seq [lit "step"; oneOf "- "; lit "by"; oneOf "- ";
                       lit "step"];
                  lit "think through"; lit "work out"; lit "figure out";
                  lit "explain why" ])
          true;
        keywords ["mathematical"; "equation"; "formula"; "proof";
                  "hypothesis"];
        keywords ["compare and contrast"; "evaluate"; "assess"; "critique"] ]
  | vision =>
      [ keywords ["image"; "photo"; "picture"; "screenshot"; "diagram";
                  "chart"; "graph"; "visual"; "ui"; "design"];
        keywords ["look at"; "see"; "view"; "show"; "display"; "render";
                  "draw"];
        keywords ["ocr"; "recognize"; "identify"; "detect"; "scan"] ]
  | analysis =>
      [ keywords ["summarize"; "summary"; "overview"; "review"; "analyze";
                  "analysis"; "evaluate"; "assessment"];
        keywords ["compare"; "contrast"; "difference"; "similarity";
                  "pros and cons"];
        keywords ["report"; "findings"; "conclusion"; "recommendation"];
        keywords ["data"; "metrics"; "statistics"; "trends"; "patterns"] ]
  | chat =>
      [ keywords ["hello"; "hi"; "hey"; "thanks"; "thank you"; "please";
                  "sorry"; "excuse me"];
        keywords ["how are you"; "what's up"; "good morning";
                  "good evening"];
        keywords ["yes"; "no"; "ok"; "okay"; "sure"; "got it";
                  "understood"] ]
  | general => []
  end.

(** [COMPLEXITY_PATTERNS.complex] and [COMPLEXITY_PATTERNS.simple]. *)
Definition COMPLEXITY_PATTERNS_complex : list pattern :=
  [ keywords ["complex"; "complicated"; "advanced"; "sophisticated";
              "comprehensive"; "thorough"; "detailed"];
    Pattern true
      (alts [ seq [lit "multi"; oneOf "- "; lit "step"];
              lit "multiple"; lit "several"; lit "many"; lit "all";
              lit "entire"; lit "complete" ])
      true;
    keywords ["architecture"; "system"; "design"; "refactor"; "rewrite";
              "overhaul"];
    keywords ["optimize"; "performance"; "scale"; "production";
              "enterprise"] ].

Definition COMPLEXITY_PATTERNS_simple : list pattern :=
  [ keywords ["simple"; "basic"; "quick"; "easy"; "small"; "minor";
              "trivial"; "just"; "only"];
    Pattern true
      (seq [ words ["one"; "single"; "a"; "the"];
             plus Space;
             words ["function"; "method"; "line"; "file"; "change"] ])
      true;
    keywords ["typo"; "rename"; "format"; "lint"; "style"] ].

(** [inferComplexity]: the first matching rule wins. *)
Definition inferComplexity (prompt : string) : TaskComplexity :=
  if existsb (fun p => test p prompt) COMPLEXITY_PATTERNS_complex
  then complex
  else if existsb (fun p => test p prompt) COMPLEXITY_PATTERNS_simple
  then simple
  else if (String.length prompt <? 100)%nat then simple
  else if (500 <? String.length prompt)%nat then complex
  else moderate.

(** The number of patterns of [t] that the prompt matches: the value of
    [scores[t]] after the pattern loop. *)
Definition patternScore (prompt : string) (t : TaskType) : nat :=
  List.length (filter (fun p => test p prompt) (TASK_PATTERNS t)).

(** [scores[t]] after the vision boost. *)
Definition scoreOf (prompt : string) (hasImages : bool) (t : TaskType)
  : nat :=
  match t with
  | vision => patternScore prompt t + (if hasImages then 3 else 0)
  | _ => patternScore prompt t
  end.

(** Key order of the [scores] object. *)
Definition scoreKeys : list TaskType :=
  [coding; reasoning; chat; vision; analysis; general].

(** The loop that finds the highest scoring type; a later type replaces
    the current one only with a strictly higher score. *)
Definition pickMax (score : TaskType -> nat) : nat * TaskType :=
  fold_left
    (fun (acc : nat * TaskType) t =>
       if (fst acc <? score t)%nat then (score t, t) else acc)
    scoreKeys (O, general).

Definition totalScore (score : TaskType -> nat) : nat :=
  fold_left (fun a t => (a + score t)%nat) scoreKeys O.

Definition orElse {A} (o : option A) (d : A) : A :=
  match o with Some a => a | None => d end.

Definition classifyTask (prompt : string) (hasImages : bool)
           (hints : option TaskClassificationHints) : TaskClassification :=
  let h := orElse hints noHints in
  match hint_taskType h with
  | Some ty =>
      {| type := ty;
         complexity := orElse (hint_complexity h) (inferComplexity prompt);
         requiresVision := orElse (hint_requiresVision h) hasImages;
         estimatedContextTokens := None;
         requiresReasoning :=
           orElse (hint_requiresReasoning h) (TaskType_eqb ty reasoning);
         confidence := 1 |}
  | None =>
      let score := scoreOf prompt hasImages in
      let '(maxScore, detectedType) := pickMax score in
      let total := totalScore score in
      let conf :=
        if (0 <? total)%nat
        then Js.min (Js.ofNat maxScore / Js.ofNat total + 0.3) 1
        else 0.5 in
      let cx := orElse (hint_complexity h) (inferComplexity prompt) in
      let rr :=
        orElse (hint_requiresReasoning h)
               (TaskType_eqb detectedType reasoning
                || TaskComplexity_eqb cx complex
                || (1 <? score reasoning)%nat) in
      {| type := detectedType;
         complexity := cx;
         requiresVision := orElse (hint_requiresVision h) hasImages;
         estimatedContextTokens := None;
         requiresReasoning := rr;
         confidence := conf |}
  end.

End TaskClassifier.

(* ================================================================== *)
(** ** types.models.ts *)
(* ================================================================== *)

Module Models.

Import TaskClassifier.
Open Scope Q_scope.

Inductive ModelCostTier : Type := free | low | medium | high.

Inductive InputKind : Type := text | image.

Definition isImage (k : InputKind) : bool :=
  match k with image => true | text => false end.

Record ModelCapabilities : Type := {
  taskTypes : list TaskType;
  maxComplexity : TaskComplexity;
  supportsVision : bool;
  supportsReasoning : bool;
  cap_contextWindow : Q;
  costTier : ModelCostTier
}.

Record ModelScoringWeights : Type := {
  capabilityMatch : Q;
  costEfficiency : Q;
  w_performance : Q;
  w_availability : Q
}.

Record ModelScoreBreakdown : Type := {
  capability : Q;
  cost : Q;
  performance : Q;
  availability : Q
}.

Record ModelScore : Type := {
  provider : string;
  model : string;
  totalScore : Q;
  breakdown : ModelScoreBreakdown;
  score_reasoning : string
}.

Record ModelCostConfig : Type := {
  cost_input : option Q;
  cost_output : option Q;
  cost_cacheRead : option Q;
  cost_cacheWrite : option Q
}.

(** [ModelCatalogEntry] of model-catalog.ts. *)
Record ModelCatalogEntry : Type := {
  entry_id : string;
  entry_name : string;
  entry_provider : string;
  entry_contextWindow : option Q;
  entry_reasoning : option bool;
  entry_input : option (list InputKind);
  entry_cost : option ModelCostConfig;
  entry_capabilities : option ModelCapabilities
}.

(** Modelled from the spec: the type [ModelRef] of model-selection.ts,
    which is not among the sources: the (provider, id) pair that identifies
    a backend. *)
Record ModelRef : Type := {
  ref_provider : string;
  ref_model : string
}.

End Models.

(* ================================================================== *)
(** ** model-capabilities.ts *)
(* ================================================================== *)

Module ModelCapabilities.

Import Regex TaskClassifier Models.
Open Scope string_scope.
Open Scope Q_scope.

Definition DEFAULT_CONTEXT_WINDOW : Q := 8192.

Definition MODEL_VISION_PATTERNS : pattern :=
  anywhere (words ["vision"; "vlm"; "llava"; "bakllava"; "moondream"]).

Definition MODEL_CODING_PATTERNS : pattern :=
  anywhere (alts [ lit "code"; lit "coder"; lit "codellama";
                   lit "starcoder"; lit "deepseek-coder";
                   seq [lit "qwen"; Star Dot; lit "coder"] ]).

Definition MODEL_REASONING_PATTERNS : pattern :=
  anywhere (words ["r1"; "reasoning"; "deepseek-r1"; "qwen-r1"]).

(** [MODEL_CONTEXT_PATTERNS.exec(s)?.[1]] for [/(\d+)k/i]: the leftmost
    match starts at the first maximal run of digits that is directly
    followed by [k], and the group captures the whole run.  [run] holds
    the digits of the current run, last digit first. *)
Fixpoint contextDigits (run : list ascii) (l : list ascii)
  : option (list ascii) :=
  match l with
  | [] => None
  | c :: l' =>
      if Js.isDigit c then contextDigits (c :: run) l'
      else
        match run with
        | _ :: _ =>
            if sameChar "k" c then Some (rev run) else contextDigits [] l'
        | [] => contextDigits [] l'
        end
  end.

(** [parseInt(digits, 10)] on a non-empty string of digits. *)
Definition parseInt (ds : list ascii) : Z :=
  fold_left (fun acc c => (acc * 10 + (Z.of_N (Js.code c) - 48))%Z) ds 0%Z.

(** Integers from this bound on are read as [Infinity], which
    [Number.isFinite] rejects. *)
Definition infinityFrom : Z := (2 ^ 1024 - 2 ^ 970)%Z.

Record NameSignals : Type := {
  sig_supportsVision : bool;
  sig_supportsCoding : bool;
  sig_supportsReasoning : bool;
  sig_contextWindow : option Q
}.

Definition detectModelNameCapabilities (modelId : string) : NameSignals :=
  let lowerName := Js.toLowerCase modelId in
  {| sig_supportsVision := test MODEL_VISION_PATTERNS lowerName;
     sig_supportsCoding := test MODEL_CODING_PATTERNS lowerName;
     sig_supportsReasoning := test MODEL_REASONING_PATTERNS lowerName;
     sig_contextWindow :=
       match contextDigits [] (Js.chars lowerName) with
       | Some ds =>
           let parsed := parseInt ds in
           if (parsed <? infinityFrom)%Z && (0 <? parsed)%Z
           then Some (inject_Z parsed * 1000)
           else None
       | None => None
       end |}.

Definition finiteOr0 (x : option Q) : Q := orElse x 0.

(** The total is the exact sum of the four figures; the code adds doubles
    in the order input, output, cacheRead, cacheWrite, so a total that is
    exactly 2 or 10 can fall to either side of its tier boundary. *)
Definition inferCostTier (cost : option ModelCostConfig)
           (fallback : ModelCostTier) : ModelCostTier :=
  match cost with
  | None => fallback
  | Some c =>
      let total := finiteOr0 (cost_input c) + finiteOr0 (cost_output c)
                   + finiteOr0 (cost_cacheRead c)
                   + finiteOr0 (cost_cacheWrite c) in
      if Js.eqb total 0 then free
      else if Js.leb total 2 then low
      else if Js.leb total 10 then medium
      else high
  end.

Definition inferMaxComplexity (contextWindow : Q) (supportsReasoning : bool)
  : TaskComplexity :=
  if supportsReasoning || Js.geb contextWindow 100000 then complex
  else if Js.geb contextWindow 32000 then moderate
  else simple.

(** Insertion order of the [Set]: general, chat, then the additions. *)
Definition inferTaskTypes (supportsVision supportsReasoning supportsCoding
                           : bool) (contextWindow : Q) : list TaskType :=
  [general; chat]
    ++ (if supportsVision then [vision] else [])
    ++ (if supportsReasoning then [reasoning] else [])
    ++ (if supportsCoding then [coding] else [])
    ++ (if supportsReasoning || Js.geb contextWindow 32000
        then [analysis] else []).

Record ModelCapabilityDefaults : Type := {
  defaultContextWindow : option Q;
  defaultCostTier : option ModelCostTier
}.

Definition noDefaults : ModelCapabilityDefaults :=
  {| defaultContextWindow := None; defaultCostTier := None |}.

Definition orElseOpt {A} (o d : option A) : option A :=
  match o with Some _ => o | None => d end.

Definition inferModelCapabilities (m : ModelCatalogEntry)
           (defaults : option ModelCapabilityDefaults) : ModelCapabilities :=
  match entry_capabilities m with
  | Some caps => caps
  | None =>
      let d := orElse defaults noDefaults in
      let name := Js.trim (entry_name m) in
      let detectionTarget :=
        if Js.truthy name then (name ++ " " ++ entry_id m)%string
        else entry_id m in
      let nameSignals := detectModelNameCapabilities detectionTarget in
      let supportsVision :=
        match entry_input m with
        | Some inp => existsb isImage inp
        | None => sig_supportsVision nameSignals
        end in
      let supportsReasoning :=
        orElse (entry_reasoning m) (sig_supportsReasoning nameSignals) in
      let supportsCoding := sig_supportsCoding nameSignals in
      let declared :=
        match entry_contextWindow m with
        | Some w => if Js.gtb w 0 then Some w else None
        | None => None
        end in
      let contextWindow :=
        orElse (orElseOpt (orElseOpt declared
                                     (sig_contextWindow nameSignals))
                          (defaultContextWindow d))
               DEFAULT_CONTEXT_WINDOW in
      {| taskTypes := inferTaskTypes supportsVision supportsReasoning
                                     supportsCoding contextWindow;
         maxComplexity := inferMaxComplexity contextWindow supportsReasoning;
         supportsVision := supportsVision;
         supportsReasoning := supportsReasoning;
         cap_contextWindow := contextWindow;
         costTier := inferCostTier (entry_cost m)
                                   (orElse (defaultCostTier d) medium) |}
  end.

End ModelCapabilities.

(* ================================================================== *)
(** ** model-scorer.ts *)
(* ================================================================== *)

Module ModelScorer.

Import TaskClassifier Models.
Open Scope string_scope.
Open Scope Q_scope.

Definition DEFAULT_SCORING_WEIGHTS : ModelScoringWeights :=
  {| capabilityMatch := 0.4; costEfficiency := 0.3;
     w_performance := 0.2; w_availability := 0.1 |}.

Definition COST_TIER_SCORES (t : ModelCostTier) : Q :=
  match t with
  | free => 1.0 | low => 0.7 | medium => 0.4 | high => 0.2
  end.

Definition COMPLEXITY_LEVELS (c : TaskComplexity) : Q :=
  match c with
  | simple => 1 | moderate => 2 | complex => 3
  end.

Definition weightSum (w : ModelScoringWeights) : Q :=
  capabilityMatch w + costEfficiency w + w_performance w + w_availability w.

(** The guard is decided on the exact sum; in double arithmetic a sum that
    is exactly 0.001 away from 1 can pass it or not. *)
Definition normalizeWeights (weights : ModelScoringWeights)
  : ModelScoringWeights :=
  let sum := weightSum weights in
  if Js.eqb sum 0 then DEFAULT_SCORING_WEIGHTS
  else if Js.ltb (Js.abs (sum - 1.0)) 0.001 then weights
  else {| capabilityMatch := capabilityMatch weights / sum;
          costEfficiency := costEfficiency weights / sum;
          w_performance := w_performance weights / sum;
          w_availability := w_availability weights / sum |}.

(** [modelCatalogEntryToCapabilities] of model-catalog.ts. *)
Definition modelCatalogEntryToCapabilities (m : ModelCatalogEntry)
  : ModelCapabilities :=
  ModelCapabilities.inferModelCapabilities m None.

Definition getModelCapabilities (m : ModelCatalogEntry)
  : ModelCapabilities :=
  match entry_capabilities m with
  | Some caps => caps
  | None => modelCatalogEntryToCapabilities m
  end.

Definition scoreCapabilityMatch (m : ModelCatalogEntry)
           (task : TaskClassification) : Q :=
  let capabilities := getModelCapabilities m in
  let score := 0 in
  let factors := 0 in
  (* Task type match (weight: 0.3) *)
  let taskTypeMatch :=
    existsb (TaskType_eqb (type task)) (taskTypes capabilities) in
  let score := score + (if taskTypeMatch then 0.3 else 0) in
  let factors := factors + 0.3 in
  (* Complexity support (weight: 0.25) *)
  let modelComplexity := COMPLEXITY_LEVELS (maxComplexity capabilities) in
  let taskComplexity := COMPLEXITY_LEVELS (complexity task) in
  let complexityMatch := Js.geb modelComplexity taskComplexity in
  let score :=
    score + (if complexityMatch then 0.25
             else 0.25 * (modelComplexity / taskComplexity)) in
  let factors := factors + 0.25 in
  (* Vision requirement (weight: 0.2) *)
  let score :=
    score + (if requiresVision task
             then (if supportsVision capabilities then 0.2 else 0)
             else 0.2) in
  let factors := factors + 0.2 in
  (* Reasoning requirement (weight: 0.15) *)
  let score :=
    score + (if requiresReasoning task
             then (if supportsReasoning capabilities then 0.15 else 0.05)
             else 0.15) in
  let factors := factors + 0.15 in
  (* Context window (weight: 0.1) *)
  let score :=
    score +
    match estimatedContextTokens task with
    | Some est =>
        if Js.gtb est 0 then
          let contextRatio := cap_contextWindow capabilities / est in
          if Js.geb contextRatio 1 then 0.1 else 0.1 * contextRatio
        else 0.1
    | None => 0.1
    end in
  let factors := factors + 0.1 in
  if Js.gtb factors 0 then score / factors else 0.

Definition scoreCostEfficiency (m : ModelCatalogEntry) : Q :=
  COST_TIER_SCORES (costTier (getModelCapabilities m)).

Definition scorePerformance (m : ModelCatalogEntry)
           (task : TaskClassification) : Q :=
  let capabilities := getModelCapabilities m in
  let contextWindow := cap_contextWindow capabilities in
  let score :=
    if Js.geb contextWindow 200000 then 0.6
    else if Js.geb contextWindow 128000 then 0.5
    else if Js.geb contextWindow 32000 then 0.4
    else if Js.geb contextWindow 8000 then 0.2
    else 0.1 in
  let score :=
    score +
    (if requiresReasoning task || TaskComplexity_eqb (complexity task) complex
     then (if supportsReasoning capabilities then 0.4 else 0.1)
     else 0.3) in
  Js.min score 1.0.

Definition scoreAvailability (m : ModelCatalogEntry)
           (providerHealth : option Q) : Q :=
  match providerHealth with
  | Some h => Js.max 0 (Js.min 1 h)
  | None => 1.0
  end.

(** [Math.round(x * 100)].  The product is exact here; in double
    arithmetic a product that is a half (0.575 * 100) can lie just below
    it and print one less.  No property below speaks of the digits. *)
Definition pct (x : Q) : string := Js.showInt (Js.round (x * 100)).

Definition explainScore (score : ModelScore) (taskType : string) : string :=
  ("Selected " ++ provider score ++ "/" ++ model score ++ " for "
     ++ taskType ++ " task: "
     ++ pct (capability (breakdown score)) ++ "% capability match, "
     ++ pct (cost (breakdown score)) ++ "% cost efficiency, "
     ++ pct (performance (breakdown score)) ++ "% performance, "
     ++ pct (availability (breakdown score)) ++ "% availability")%string.

Definition scoreModel (m : ModelCatalogEntry)
           (taskClassification : TaskClassification)
           (weights : option ModelScoringWeights)
           (providerHealth : option Q) : ModelScore :=
  let weights := normalizeWeights (orElse weights DEFAULT_SCORING_WEIGHTS) in
  let breakdown :=
    {| capability := scoreCapabilityMatch m taskClassification;
       cost := scoreCostEfficiency m;
       performance := scorePerformance m taskClassification;
       availability := scoreAvailability m providerHealth |} in
  let totalScore :=
    capability breakdown * capabilityMatch weights
    + cost breakdown * costEfficiency weights
    + performance breakdown * w_performance weights
    + availability breakdown * w_availability weights in
  {| provider := entry_provider m;
     model := entry_id m;
     totalScore := totalScore;
     breakdown := breakdown;
     score_reasoning :=
       explainScore
         {| provider := entry_provider m; model := entry_id m;
            totalScore := totalScore; breakdown := breakdown;
            score_reasoning := "" |}
         (showTaskType (type taskClassification)) |}.

(** The comparator handed to [toSorted] by [rankModels]. *)
Definition rankCompare (a b : ModelScore) : Q :=
  if Js.gtb (Js.abs (totalScore a - totalScore b)) 0.001
  then totalScore b - totalScore a
  else if negb (Js.eqb (cost (breakdown a)) (cost (breakdown b)))
  then cost (breakdown b) - cost (breakdown a)
  else performance (breakdown b) - performance (breakdown a).

Definition rankModels (models : list ModelCatalogEntry)
           (task : TaskClassification)
           (weights : option ModelScoringWeights) : list ModelScore :=
  match models with
  | [] => []
  | _ =>
      let scores := map (fun m => scoreModel m task weights None) models in
      Js.toSorted rankCompare scores
  end.

Record ModelFilterRequirements : Type := {
  req_requiresVision : option bool;
  req_requiresReasoning : option bool;
  req_minContextWindow : option Q;
  req_allowedProviders : option (list string)
}.

Definition isTrue (o : option bool) : bool := orElse o false.

Definition meetsRequirements (requirements : ModelFilterRequirements)
           (m : ModelCatalogEntry) : bool :=
  let capabilities := getModelCapabilities m in
  if isTrue (req_requiresVision requirements)
     && negb (supportsVision capabilities) then false
  else if isTrue (req_requiresReasoning requirements)
          && negb (supportsReasoning capabilities) then false
  else if match req_minContextWindow requirements with
          | Some w => Js.ltb (cap_contextWindow capabilities) w
          | None => false
          end then false
  else
    match req_allowedProviders requirements with
    | Some ((_ :: _) as allowedProviders) =>
        let normalizedProvider := Js.toLowerCase (entry_provider m) in
        existsb (fun p => Js.streq (Js.toLowerCase p) normalizedProvider)
                allowedProviders
    | _ => true
    end.

Definition filterModelsByCapabilities (models : list ModelCatalogEntry)
           (requirements : ModelFilterRequirements)
  : list ModelCatalogEntry :=
  filter (meetsRequirements requirements) models.

(** Result of [selectBestModelForTask]. *)
Record BestModelResult : Type := {
  best_score : ModelScore;
  best_task : TaskClassification;
  allRanked : list ModelScore
}.

(** The hard requirements [selectBestModelForTask] derives from the task. *)
Definition taskRequirements (task : TaskClassification)
  : ModelFilterRequirements :=
  {| req_requiresVision := Some (requiresVision task);
     req_requiresReasoning := Some (requiresReasoning task);
     req_minContextWindow := None;
     req_allowedProviders := None |}.

Definition selectBestModelForTask (catalog : list ModelCatalogEntry)
           (prompt : string) (hasImages : bool)
           (hints : option TaskClassificationHints)
           (weights : option ModelScoringWeights) : option BestModelResult :=
  match catalog with
  | [] => None
  | _ =>
      let task := classifyTask prompt hasImages hints in
      let requirements := taskRequirements task in
      let filtered := filterModelsByCapabilities catalog requirements in
      let modelsToRank := match filtered with [] => catalog | _ => filtered end in
      match rankModels modelsToRank task weights with
      | [] => None
      | top :: rest =>
          Some {| best_score := top; best_task := task;
                  allRanked := top :: rest |}
      end
  end.

End ModelScorer.

(* ================================================================== *)
(** ** task-router.ts *)
(* ================================================================== *)

Module TaskRouter.

Import TaskClassifier Models ModelScorer.
Open Scope string_scope.
Open Scope Q_scope.

Inductive RoutingStrategy : Type :=
| cost_optimized | performance_optimized | balanced.

Definition showStrategy (s : RoutingStrategy) : string :=
  match s with
  | cost_optimized => "cost-optimized"
  | performance_optimized => "performance-optimized"
  | balanced => "balanced"
  end.

Inductive FallbackBehavior : Type := manual_selection | default_model.

(** Modelled from the spec: the type [TaskRoutingRule] of
    types.agent-defaults.ts, which is not among the sources.  The fields
    are those of the spec's TaskRule, which are the ones the router reads. *)
Record TaskRoutingRule : Type := {
  rule_taskType : TaskType;
  rule_complexity : option TaskComplexity;
  preferredProviders : option (list string);
  preferredModels : option (list string);
  excludeProviders : option (list string);
  minContextWindow : option Q;
  requireReasoning : option bool
}.

(** Modelled from the spec: the type [ModelRoutingConfig] of
    types.agent-defaults.ts, which is not among the sources.  The fields
    are those of the spec's RoutingConfig and of [mergeRoutingConfig];
    every one is optional. *)
Record ModelRoutingConfig : Type := {
  cfg_enabled : option bool;
  cfg_strategy : option RoutingStrategy;
  cfg_preferLocal : option bool;
  cfg_localProviders : option (list string);
  cfg_cloudProviders : option (list string);
  cfg_taskRules : option (list TaskRoutingRule);
  cfg_scoringWeights : option ModelScoringWeights;
  cfg_fallbackBehavior : option FallbackBehavior
}.

(** The merged configuration held by the router. *)
Record RoutingConfig : Type := {
  enabled : bool;
  strategy : RoutingStrategy;
  preferLocal : bool;
  localProviders : list string;
  cloudProviders : list string;
  taskRules : list TaskRoutingRule;
  scoringWeights : ModelScoringWeights;
  fallbackBehavior : FallbackBehavior
}.

Definition DEFAULT_ROUTING_CONFIG : RoutingConfig :=
  {| enabled := false;
     strategy := balanced;
     preferLocal := true;
     localProviders := ["ollama"];
     cloudProviders := ["anthropic"; "openai"; "google"];
     taskRules := [];
     scoringWeights := DEFAULT_SCORING_WEIGHTS;
     fallbackBehavior := default_model |}.

Definition mergeRoutingConfig (config : option ModelRoutingConfig)
  : RoutingConfig :=
  match config with
  | None => DEFAULT_ROUTING_CONFIG
  | Some c =>
      let d := DEFAULT_ROUTING_CONFIG in
      {| enabled := orElse (cfg_enabled c) (enabled d);
         strategy := orElse (cfg_strategy c) (strategy d);
         preferLocal := orElse (cfg_preferLocal c) (preferLocal d);
         localProviders := orElse (cfg_localProviders c) (localProviders d);
         cloudProviders := orElse (cfg_cloudProviders c) (cloudProviders d);
         taskRules := orElse (cfg_taskRules c) (taskRules d);
         scoringWeights :=
           match cfg_scoringWeights c with
           | Some w => normalizeWeights w
           | None => scoringWeights d
           end;
         fallbackBehavior :=
           orElse (cfg_fallbackBehavior c) (fallbackBehavior d) |}
  end.

Record RoutingDecision : Type := {
  selectedScore : ModelScore;
  taskClassification : TaskClassification;
  allRankedScores : list ModelScore;
  decision_reasoning : string
}.

Record RoutingResult : Type := {
  primary : ModelRef;
  fallbacks : option (list ModelRef);
  decision : RoutingDecision
}.

Record TaskRoutingOptions : Type := {
  prompt : string;
  hasImages : bool;
  hints : option TaskClassificationHints;
  overrideModel : option string;
  allowedProviders : option (list string)
}.

(** The router object: merged configuration and catalog. *)
Record TaskBasedModelRouter : Type := {
  config : RoutingConfig;
  catalog : list ModelCatalogEntry
}.

Definition newRouter (cfg : ModelRoutingConfig)
           (catalog : list ModelCatalogEntry) : TaskBasedModelRouter :=
  {| config := mergeRoutingConfig (Some cfg); catalog := catalog |}.

(** *** Manual override *)

Definition parseOverrideModelRef (overrideModel : string) : ModelRef :=
  let trimmed := Js.trim overrideModel in
  match Js.indexOf "/" trimmed with
  | None => {| ref_provider := "anthropic"; ref_model := trimmed |}
  | Some slashIndex =>
      {| ref_provider := Js.trim (Js.sliceTo slashIndex trimmed);
         ref_model := Js.trim (Js.sliceFrom (slashIndex + 1) trimmed) |}
  end.

Definition refKey (provider model : string) : string :=
  (provider ++ "/" ++ model)%string.

Definition buildManualOverrideRoutingResult (overrideModel prompt : string)
           (hasImages : bool) (hints : option TaskClassificationHints)
  : RoutingResult :=
  let primary := parseOverrideModelRef overrideModel in
  let taskClassification := classifyTask prompt hasImages hints in
  let decision :=
    {| selectedScore :=
         {| provider := ref_provider primary;
            model := ref_model primary;
            totalScore := 1.0;
            breakdown := {| capability := 1.0; cost := 1.0;
                            performance := 1.0; availability := 1.0 |};
            score_reasoning :=
              ("Manual override: "
                 ++ refKey (ref_provider primary) (ref_model primary))%string
         |};
       taskClassification := taskClassification;
       allRankedScores := [];
       decision_reasoning :=
         ("Manual model override: "
            ++ refKey (ref_provider primary) (ref_model primary))%string |} in
  {| primary := primary; fallbacks := None; decision := decision |}.

(** *** Strategy *)

Definition applyRoutingStrategy (strategy : RoutingStrategy)
           (baseWeights : ModelScoringWeights) : ModelScoringWeights :=
  match strategy with
  | cost_optimized =>
      normalizeWeights
        {| capabilityMatch := capabilityMatch baseWeights * 0.8;
           costEfficiency := 0.5;
           w_performance := 0.1;
           w_availability := w_availability baseWeights |}
  | performance_optimized =>
      normalizeWeights
        {| capabilityMatch := capabilityMatch baseWeights * 0.8;
           costEfficiency := 0.1;
           w_performance := 0.5;
           w_availability := w_availability baseWeights |}
  | balanced => normalizeWeights baseWeights
  end.

(** *** Task rules *)

Definition ruleMatches (task : TaskClassification) (rule : TaskRoutingRule)
  : bool :=
  if negb (TaskType_eqb (rule_taskType rule) (type task)) then false
  else match rule_complexity rule with
       | Some c => TaskComplexity_eqb c (complexity task)
       | None => true
       end.

(** Membership in [new Set(names.map(toLowerCase))]. *)
Definition inLowerSet (names : list string) (x : string) : bool :=
  Js.includes x (map Js.toLowerCase names).

(** One iteration of the loop over the matching rules. *)
Definition applyRule (task : TaskClassification)
           (filtered : list ModelCatalogEntry) (rule : TaskRoutingRule)
  : list ModelCatalogEntry :=
  let filtered :=
    match excludeProviders rule with
    | Some ((_ :: _) as ex) =>
        filter (fun e =>
                  negb (inLowerSet ex (Js.toLowerCase (entry_provider e))))
               filtered
    | _ => filtered
    end in
  let filtered :=
    match preferredProviders rule with
    | Some ((_ :: _) as pp) =>
        let preferred :=
          filter (fun e => inLowerSet pp (Js.toLowerCase (entry_provider e)))
                 filtered in
        match preferred with [] => filtered | _ => preferred end
    | _ => filtered
    end in
  let filtered :=
    match preferredModels rule with
    | Some ((_ :: _) as pm) =>
        let preferred :=
          filter (fun e =>
                    inLowerSet pm
                      (Js.toLowerCase
                         (refKey (entry_provider e) (entry_id e))))
                 filtered in
        match preferred with [] => filtered | _ => preferred end
    | _ => filtered
    end in
  filterModelsByCapabilities filtered
    {| req_requiresVision := Some (requiresVision task);
       req_requiresReasoning :=
         Some (orElse (requireReasoning rule) (requiresReasoning task));
       req_minContextWindow := minContextWindow rule;
       req_allowedProviders := None |}.

Definition applyTaskRules (rules : list TaskRoutingRule)
           (catalog : list ModelCatalogEntry) (task : TaskClassification)
  : list ModelCatalogEntry :=
  match rules with
  | [] => catalog
  | _ =>
      match filter (ruleMatches task) rules with
      | [] => catalog
      | matchingRules => fold_left (applyRule task) matchingRules catalog
      end
  end.

(** *** Provider preference *)

Inductive Preference : Type := pref_local | pref_cloud | pref_none.

Definition showPreference (p : Preference) : string :=
  match p with
  | pref_local => "local" | pref_cloud => "cloud" | pref_none => "none"
  end.

Definition nonEmpty {A} (l : list A) : bool :=
  match l with [] => false | _ => true end.

Definition boostCompare (a b : ModelScore) : Q := totalScore b - totalScore a.

Definition withTotal (s : ModelScore) (t : Q) : ModelScore :=
  {| provider := provider s; model := model s; totalScore := t;
     breakdown := breakdown s; score_reasoning := score_reasoning s |}.

Definition applyProviderPreference (cfg : RoutingConfig)
           (rankedScores : list ModelScore) (task : TaskClassification)
  : list ModelScore * Preference :=
  let prefersCloud :=
    TaskComplexity_eqb (complexity task) complex || requiresReasoning task in
  let prefersLocal :=
    preferLocal cfg && TaskComplexity_eqb (complexity task) simple
    && negb prefersCloud in
  let choice : Preference * option (list string) :=
    if prefersCloud && nonEmpty (cloudProviders cfg)
    then (pref_cloud, Some (cloudProviders cfg))
    else if prefersLocal && nonEmpty (localProviders cfg)
    then (pref_local, Some (localProviders cfg))
    else (pref_none, None) in
  match snd choice with
  | None => (rankedScores, fst choice)
  | Some preferredProviders =>
      let boostedScores :=
        map (fun score =>
               if inLowerSet preferredProviders
                             (Js.toLowerCase (provider score))
               then withTotal score (Js.min (totalScore score * 1.1) 1.0)
               else score)
            rankedScores in
      (Js.toSorted boostCompare boostedScores, fst choice)
  end.

(** *** Fallback list *)

Definition scoreKey (s : ModelScore) : string :=
  Js.toLowerCase (refKey (provider s) (model s)).

Definition primaryKeyOf (primary : ModelRef) : string :=
  Js.toLowerCase (refKey (ref_provider primary) (ref_model primary)).

(** The [for ... of] loop shared by the two fallback builders: [emit]
    turns a score into the pushed element, [acc] is the array so far. *)
Fixpoint fallbackLoop {A} (emit : ModelScore -> A) (primaryKey : string)
         (maxFallbacks : nat) (rankedScores : list ModelScore)
         (acc : list A) : list A :=
  match rankedScores with
  | [] => acc
  | score :: rest =>
      if (maxFallbacks <=? List.length acc)%nat then acc
      else if Js.streq (scoreKey score) primaryKey
      then fallbackLoop emit primaryKey maxFallbacks rest acc
      else fallbackLoop emit primaryKey maxFallbacks rest
                        (acc ++ [emit score])
  end.

Definition scoreRef (s : ModelScore) : ModelRef :=
  {| ref_provider := provider s; ref_model := model s |}.

(** The private method [TaskBasedModelRouter.generateFallbackList];
    [maxFallbacks] defaults to 3 and an empty list is [undefined]. *)
Definition routerFallbackList (rankedScores : list ModelScore)
           (primary : ModelRef) (maxFallbacks : option nat)
  : option (list ModelRef) :=
  match fallbackLoop scoreRef (primaryKeyOf primary)
                     (orElse maxFallbacks 3%nat) rankedScores [] with
  | [] => None
  | l => Some l
  end.

(** The exported [generateFallbackList], which renders the refs. *)
Definition generateFallbackList (rankedScores : list ModelScore)
           (primary : ModelRef) (maxFallbacks : option nat) : list string :=
  fallbackLoop (fun s => refKey (provider s) (model s))
               (primaryKeyOf primary) (orElse maxFallbacks 3%nat)
               rankedScores [].

(** *** Selection *)

(** The catalog after the allowed-provider stage. *)
Definition allowedOnly (allowed : list string) : ModelFilterRequirements :=
  {| req_requiresVision := None; req_requiresReasoning := None;
     req_minContextWindow := None; req_allowedProviders := Some allowed |}.

Definition allowedStage (catalog : list ModelCatalogEntry)
           (allowedProviders : option (list string))
  : list ModelCatalogEntry :=
  match allowedProviders with
  | Some ((_ :: _) as allowed) =>
      match filterModelsByCapabilities catalog (allowedOnly allowed) with
      | [] => catalog
      | l => l
      end
  | _ => catalog
  end.

(** The catalog after the task-rule stage: the set that is ranked. *)
Definition ruleStage (r : TaskBasedModelRouter)
           (preRule : list ModelCatalogEntry) (task : TaskClassification)
  : list ModelCatalogEntry :=
  match applyTaskRules (taskRules (config r)) preRule task with
  | [] => catalog r
  | l => l
  end.

Definition isOverride (overrideModel : option string) : bool :=
  match overrideModel with
  | Some s => Js.truthy (Js.trim s)
  | None => false
  end.

Definition selectModelForTask (r : TaskBasedModelRouter)
           (options : TaskRoutingOptions) : option RoutingResult :=
  if isOverride (overrideModel options) then
    Some (buildManualOverrideRoutingResult
            (orElse (overrideModel options) "") (prompt options)
            (hasImages options) (hints options))
  else if negb (enabled (config r)) then None
  else
    let taskClassification :=
      classifyTask (prompt options) (hasImages options) (hints options) in
    let filteredCatalog :=
      allowedStage (catalog r) (allowedProviders options) in
    let filteredCatalog := ruleStage r filteredCatalog taskClassification in
    let adjustedWeights :=
      applyRoutingStrategy (strategy (config r))
                           (scoringWeights (config r)) in
    let rankedScores :=
      rankModels filteredCatalog taskClassification (Some adjustedWeights) in
    match rankedScores with
    | [] => None
    | _ =>
        let '(finalRankedScores, preference) :=
          applyProviderPreference (config r) rankedScores
                                  taskClassification in
        match finalRankedScores with
        | [] => None
        | selectedScore :: _ =>
            let primary := scoreRef selectedScore in
            let fallbacks :=
              routerFallbackList finalRankedScores primary None in
            let baseReasoning :=
              explainScore selectedScore
                           (showTaskType (type taskClassification)) in
            let reasoning :=
              ("Task-based routing: " ++ baseReasoning
                 ++ " | Strategy: " ++ showStrategy (strategy (config r))
                 ++ " | Provider preference: "
                 ++ showPreference preference)%string in
            Some {| primary := primary;
                    fallbacks := fallbacks;
                    decision :=
                      {| selectedScore := selectedScore;
                         taskClassification := taskClassification;
                         allRankedScores := finalRankedScores;
                         decision_reasoning := reasoning |} |}
        end
    end.

(** *** Entry points around the router *)

(** Modelled from the spec: [OpenClawConfig] of config.ts is not among the
    sources; the router reads only [agents.defaults.routing] from it. *)
Record OpenClawConfig : Type := {
  agents_defaults_routing : option ModelRoutingConfig
}.

Definition disabledRouting : ModelRoutingConfig :=
  {| cfg_enabled := Some false; cfg_strategy := None;
     cfg_preferLocal := None; cfg_localProviders := None;
     cfg_cloudProviders := None; cfg_taskRules := None;
     cfg_scoringWeights := None; cfg_fallbackBehavior := None |}.

Definition loadRoutingConfig (cfg : option OpenClawConfig)
  : ModelRoutingConfig :=
  match cfg with
  | Some c => orElse (agents_defaults_routing c) disabledRouting
  | None => disabledRouting
  end.

Definition shouldUseRouting (cfg : option OpenClawConfig)
           (overrideModel : option string) : bool :=
  if isOverride overrideModel then true
  else isTrue (cfg_enabled (loadRoutingConfig cfg)).

Definition createRouterFromConfig (cfg : option OpenClawConfig)
           (catalog : list ModelCatalogEntry) : option TaskBasedModelRouter :=
  let routingConfig := loadRoutingConfig cfg in
  if negb (isTrue (cfg_enabled routingConfig)) then None
  else Some (newRouter routingConfig catalog).

(** Result of [routeModelForTask]: a model, or the sentinel that asks for a
    manual selection. *)
Inductive RouteModelForTaskResult : Type :=
| Routed (provider model : string) (fallbacks : option (list string))
         (decision : option RoutingDecision)
| ManualSelectionRequired.

Section Entry.

(** The collaborators of auth-profiles.ts and model-selection.ts, which are
    not among the sources.  A result [None] stands for an exception. *)
Variable AuthProfileStore : Type.
Variable ProfileId : Type.
Variable ensureAuthProfileStore : string -> option AuthProfileStore.
Variable resolveAuthProfileOrder :
  OpenClawConfig -> AuthProfileStore -> string -> option (list ProfileId).
Variable isProfileInCooldown : AuthProfileStore -> ProfileId -> bool.
Variable resolveDefaultModelForAgent : option OpenClawConfig -> ModelRef.

(** The callback of [fallbacks.filter]; [None] when it throws. *)
Definition fallbackUsable (cfg : OpenClawConfig) (store : AuthProfileStore)
           (fallback : ModelRef) : option bool :=
  match resolveAuthProfileOrder cfg store (ref_provider fallback) with
  | None => None
  | Some [] => Some true
  | Some profileIds =>
      Some (existsb (fun id => negb (isProfileInCooldown store id)) profileIds)
  end.

(** [fallbacks.filter(callback)]; [None] when a callback throws. *)
Fixpoint filterUsable (cfg : OpenClawConfig) (store : AuthProfileStore)
         (fallbacks : list ModelRef) : option (list ModelRef) :=
  match fallbacks with
  | [] => Some []
  | f :: rest =>
      match fallbackUsable cfg store f with
      | None => None
      | Some keep =>
          match filterUsable cfg store rest with
          | None => None
          | Some kept => Some (if keep then f :: kept else kept)
          end
      end
  end.

Definition filterFallbacksByCooldown (cfg : OpenClawConfig)
           (agentDir : string) (fallbacks : list ModelRef) : list ModelRef :=
  match ensureAuthProfileStore agentDir with
  | None => fallbacks
  | Some authStore =>
      match filterUsable cfg authStore fallbacks with
      | None => fallbacks
      | Some kept => kept
      end
  end.

(** [routeModelForTask], with [catalog] the awaited result of
    [loadModelCatalog]. *)
Definition routeModelForTask (cfg : option OpenClawConfig)
           (catalog : list ModelCatalogEntry) (options : TaskRoutingOptions)
           (agentDir : option string) : RouteModelForTaskResult :=
  if isOverride (overrideModel options) then
    let overrideResult :=
      buildManualOverrideRoutingResult
        (orElse (overrideModel options) "") (prompt options)
        (hasImages options) (hints options) in
    Routed (ref_provider (primary overrideResult))
           (ref_model (primary overrideResult)) None
           (Some (decision overrideResult))
  else
    let routed :=
      match createRouterFromConfig cfg catalog with
      | Some router => selectModelForTask router options
      | None => None
      end in
    match routed with
    | Some result =>
        let filteredFallbacks :=
          match fallbacks result, agentDir, cfg with
          | Some fs, Some dir, Some c =>
              if Js.truthy dir
              then Some (filterFallbacksByCooldown c dir fs)
              else Some fs
          | fs, _, _ => fs
          end in
        Routed (ref_provider (primary result)) (ref_model (primary result))
               (option_map
                  (map (fun f => refKey (ref_provider f) (ref_model f)))
                  filteredFallbacks)
               (Some (decision result))
    | None =>
        match orElse (cfg_fallbackBehavior (loadRoutingConfig cfg))
                     default_model with
        | manual_selection => ManualSelectionRequired
        | default_model =>
            let defaultRef := resolveDefaultModelForAgent cfg in
            Routed (ref_provider defaultRef) (ref_model defaultRef) None None
        end
    end.

End Entry.

End TaskRouter.

(* ================================================================== *)
(** ** model-catalog.ts *)
(* ================================================================== *)

Module ModelCatalog.

Import Models.
Open Scope string_scope.
Open Scope Q_scope.

(** A descriptor as the model registry hands it over; absent or ill-typed
    fields are [None]. *)
Record DiscoveredModel : Type := {
  d_id : option string;
  d_name : option string;
  d_provider : option string;
  d_contextWindow : option Q;
  d_reasoning : option bool;
  d_input : option (list InputKind);
  d_cost : option ModelCostConfig;
  d_capabilities : option ModelCapabilities
}.

Definition resolveModelCost (value : option ModelCostConfig)
  : option ModelCostConfig :=
  match value with
  | None => None
  | Some c =>
      match cost_input c, cost_output c, cost_cacheRead c, cost_cacheWrite c
      with
      | None, None, None, None => None
      | _, _, _, _ => Some c
      end
  end.

Definition resolveModelCapabilities (value : option ModelCapabilities)
  : option ModelCapabilities := value.

(** The body of the loop over the discovered entries; [None] is
    [continue]. *)
Definition catalogEntry (entry : DiscoveredModel) : option ModelCatalogEntry :=
  let id := Js.trim (TaskClassifier.orElse (d_id entry) "") in
  if negb (Js.truthy id) then None
  else
    let provider := Js.trim (TaskClassifier.orElse (d_provider entry) "") in
    if negb (Js.truthy provider) then None
    else
      let name :=
        let n := Js.trim (TaskClassifier.orElse (d_name entry) id) in
        if Js.truthy n then n else id in
      let contextWindow :=
        match d_contextWindow entry with
        | Some w => if Js.gtb w 0 then Some w else None
        | None => None
        end in
      Some {| entry_id := id;
              entry_name := name;
              entry_provider := provider;
              entry_contextWindow := contextWindow;
              entry_reasoning := d_reasoning entry;
              entry_input := d_input entry;
              entry_cost := resolveModelCost (d_cost entry);
              entry_capabilities :=
                resolveModelCapabilities (d_capabilities entry) |}.

(** [models] after the loop has handled [entries]. *)
Fixpoint collectModels (entries : list DiscoveredModel)
  : list ModelCatalogEntry :=
  match entries with
  | [] => []
  | e :: rest =>
      match catalogEntry e with
      | Some m => m :: collectModels rest
      | None => collectModels rest
      end
  end.

(** What the environment does to one load once it has suspended. *)
Inductive DiscoveryOutcome : Type :=
| Enumerated (entries : list DiscoveredModel)
    (* the registry lists [entries] and the loop reaches its end *)
| Threw (processed : list DiscoveredModel).
    (* an exception reaches the [catch] after the loop has handled
       [processed]: none when models.json, the import or the registry
       fails, some when reading an entry throws *)

Inductive PromiseStatus : Type :=
| Pending
| Fulfilled (value : list ModelCatalogEntry).

Definition PromiseId : Type := nat.

(** The module-level variables, the promises created so far (a promise is
    its index) and the number of [console.warn] lines written. *)
Record CatalogState : Type := {
  modelCatalogPromise : option PromiseId;
  hasLoggedModelCatalogError : bool;
  promises : list PromiseStatus;
  warnings : nat
}.

(** The state at module load and after [resetModelCatalogCacheForTest]. *)
Definition initialState : CatalogState :=
  {| modelCatalogPromise := None;
     hasLoggedModelCatalogError := false;
     promises := [];
     warnings := O |}.

(** The promises created so far.  Each belongs to one run of the async
    body, which reaches the discovery unless the configuration lookup
    throws; a discovery in progress is a pending promise. *)
Definition discoveryRuns (st : CatalogState) : nat := List.length (promises st).

Definition statusOf (st : CatalogState) (p : PromiseId) : option PromiseStatus :=
  nth_error (promises st) p.

Definition isPending (st : CatalogState) (p : PromiseId) : bool :=
  match statusOf st p with Some Pending => true | _ => false end.

Fixpoint setNth {A} (n : nat) (x : A) (l : list A) : list A :=
  match l, n with
  | [], _ => []
  | _ :: l', O => x :: l'
  | y :: l', S n' => y :: setNth n' x l'
  end.

(** [modelSupportsVision]. *)
Definition modelSupportsVision (entry : option ModelCatalogEntry) : bool :=
  match entry with
  | None => false
  | Some e =>
      match entry_capabilities e with
      | Some caps => supportsVision caps
      | None =>
          match entry_input e with
          | Some inp => existsb isImage inp
          | None => false
          end
      end
  end.

(** The predicate of [catalog.find] in [findModelInCatalog]. *)
Definition matchesIdentity (normalizedProvider normalizedModelId : string)
           (entry : ModelCatalogEntry) : bool :=
  Js.streq (Js.toLowerCase (entry_provider entry)) normalizedProvider
  && Js.streq (Js.toLowerCase (entry_id entry)) normalizedModelId.

Definition findModelInCatalog (catalog : list ModelCatalogEntry)
           (provider modelId : string) : option ModelCatalogEntry :=
  let normalizedProvider := Js.trim (Js.toLowerCase provider) in
  let normalizedModelId := Js.trim (Js.toLowerCase modelId) in
  find (matchesIdentity normalizedProvider normalizedModelId) catalog.

Section Catalog.

(** [OpenClawConfig] of config.ts is not among the sources; the catalog
    only hands it on, so it is a parameter. *)
Variable OpenClawConfig : Type.

(** [String.prototype.localeCompare], which depends on the host locale. *)
Variable localeCompare : string -> string -> Q.

Record LoadParams : Type := {
  param_config : option OpenClawConfig;
  useCache : option bool
}.

Definition sortCompare (a b : ModelCatalogEntry) : Q :=
  let p := localeCompare (entry_provider a) (entry_provider b) in
  if negb (Js.eqb p 0) then p
  else localeCompare (entry_name a) (entry_name b).

Definition sortModels (entries : list ModelCatalogEntry)
  : list ModelCatalogEntry :=
  Js.toSorted sortCompare entries.

Definition bypassesCache (params : option LoadParams) : bool :=
  match params with
  | Some p => match useCache p with Some false => true | _ => false end
  | None => false
  end.

(** [params?.config ?? loadConfig()] throws exactly when no configuration
    is passed and [loadConfig] throws; [loadConfig] is [None] then. *)
Definition configThrows (params : option LoadParams)
           (loadConfig : option OpenClawConfig) : bool :=
  match params with
  | Some {| param_config := Some _ |} => false
  | _ => match loadConfig with Some _ => false | None => true end
  end.

(** The [catch] block's logging. *)
Definition logOnce (st : CatalogState) : CatalogState :=
  if hasLoggedModelCatalogError st then st
  else {| modelCatalogPromise := modelCatalogPromise st;
          hasLoggedModelCatalogError := true;
          promises := promises st;
          warnings := S (warnings st) |}.

Definition withCache (c : option PromiseId) (st : CatalogState)
  : CatalogState :=
  {| modelCatalogPromise := c;
     hasLoggedModelCatalogError := hasLoggedModelCatalogError st;
     promises := promises st;
     warnings := warnings st |}.

Definition withPromises (ps : list PromiseStatus) (st : CatalogState)
  : CatalogState :=
  {| modelCatalogPromise := modelCatalogPromise st;
     hasLoggedModelCatalogError := hasLoggedModelCatalogError st;
     promises := ps;
     warnings := warnings st |}.

(** One call of [loadModelCatalog], up to the point where it returns its
    promise.  The async body runs synchronously until its first [await]:
    when the configuration lookup throws, the [catch] block runs and the
    body returns before the assignment to [modelCatalogPromise] is done;
    otherwise the body suspends and the promise is pending. *)
Definition loadModelCatalog (params : option LoadParams)
           (loadConfig : option OpenClawConfig) (st : CatalogState)
  : PromiseId * CatalogState :=
  let st := if bypassesCache params then withCache None st else st in
  match modelCatalogPromise st with
  | Some p => (p, st)
  | None =>
      let p := List.length (promises st) in
      if configThrows params loadConfig then
        let st := withCache None (logOnce st) in
        let st := withPromises (promises st ++ [Fulfilled []]) st in
        (p, withCache (Some p) st)
      else
        let st := withPromises (promises st ++ [Pending]) st in
        (p, withCache (Some p) st)
  end.

(** The rest of the async body of promise [p], run when the environment
    delivers [outcome]; a promise that is not pending has no body left. *)
Definition settle (p : PromiseId) (outcome : DiscoveryOutcome)
           (st : CatalogState) : CatalogState :=
  if negb (isPending st p) then st
  else
    match outcome with
    | Enumerated entries =>
        let models := collectModels entries in
        let st := match models with
                  | [] => withCache None st
                  | _ => st
                  end in
        withPromises (setNth p (Fulfilled (sortModels models)) (promises st))
                     st
    | Threw processed =>
        let models := collectModels processed in
        let st := withCache None (logOnce st) in
        let value := match models with
                     | [] => []
                     | _ => sortModels models
                     end in
        withPromises (setNth p (Fulfilled value) (promises st)) st
    end.

(** The observable events of the catalog: a caller asks for the catalog,
    or a suspended load runs to its end. *)
Inductive Event : Type :=
| Call (params : option LoadParams) (loadConfig : option OpenClawConfig)
| Settle (p : PromiseId) (outcome : DiscoveryOutcome).

Definition step (st : CatalogState) (e : Event) : CatalogState :=
  match e with
  | Call params loadConfig => snd (loadModelCatalog params loadConfig st)
  | Settle p outcome => settle p outcome st
  end.

Definition run (events : list Event) (st : CatalogState) : CatalogState :=
  fold_left step events st.

Definition isBypass (e : Event) : bool :=
  match e with
  | Call params _ => bypassesCache params
  | Settle _ _ => false
  end.

End Catalog.

Arguments Call {OpenClawConfig} params loadConfig.
Arguments Settle {OpenClawConfig} p outcome.

End ModelCatalog.

Unset Implicit Arguments.

(* ================================================================== *)
(** * Properties *)
(* ================================================================== *)

(** ** Shared facts about the primitives *)

Section JsFacts.

Open Scope Q_scope.

Lemma ltb_true x y : Js.ltb x y = true <-> x < y.
Proof.
  unfold Js.ltb. rewrite negb_true_iff.
  destruct (Qle_bool y x) eqn:E.
  - apply Qle_bool_iff in E. split; [discriminate | intro; lra].
  - split; [intros _ | reflexivity].
    apply Qnot_le_lt. intro H. apply Qle_bool_iff in H. congruence.
Qed.

Lemma ltb_false x y : Js.ltb x y = false <-> y <= x.
Proof.
  unfold Js.ltb. rewrite negb_false_iff. apply Qle_bool_iff.
Qed.

Lemma leb_true x y : Js.leb x y = true <-> x <= y.
Proof. apply Qle_bool_iff. Qed.

Lemma leb_false x y : Js.leb x y = false <-> y < x.
Proof.
  unfold Js.leb. destruct (Qle_bool x y) eqn:E.
  - apply Qle_bool_iff in E. split; [discriminate | intro; lra].
  - split; [intros _ | reflexivity].
    apply Qnot_le_lt. intro H. apply Qle_bool_iff in H. congruence.
Qed.

Lemma eqb_true x y : Js.eqb x y = true <-> x == y.
Proof. apply Qeq_bool_iff. Qed.

Lemma eqb_false x y : Js.eqb x y = false <-> ~ x == y.
Proof.
  unfold Js.eqb. destruct (Qeq_bool x y) eqn:E.
  - apply Qeq_bool_iff in E. split; [discriminate | tauto].
  - split; [intros _ H | reflexivity].
    apply Qeq_bool_iff in H. congruence.
Qed.

Lemma abs_spec x : (0 <= x /\ Js.abs x = x) \/ (x < 0 /\ Js.abs x = - x).
Proof.
  unfold Js.abs. destruct (Js.leb 0 x) eqn:E.
  - left. apply leb_true in E. auto.
  - right. apply leb_false in E. auto.
Qed.

Lemma min_spec x y : (x <= y /\ Js.min x y = x) \/ (y < x /\ Js.min x y = y).
Proof.
  unfold Js.min. destruct (Js.leb x y) eqn:E.
  - left. apply leb_true in E. auto.
  - right. apply leb_false in E. auto.
Qed.


Lemma toLowerCase_cons c s :
  Js.toLowerCase (String c s) = String (Js.lowerChar c) (Js.toLowerCase s).
Proof. reflexivity. Qed.

Lemma toLowerCase_app a b :
  Js.toLowerCase (a ++ b) = (Js.toLowerCase a ++ Js.toLowerCase b)%string.
Proof.
  induction a as [|c a IH]; [reflexivity|].
  change (String c a ++ b)%string with (String c (a ++ b)).
  rewrite !toLowerCase_cons, IH. reflexivity.
Qed.

Lemma streq_true a b : Js.streq a b = true <-> a = b.
Proof. apply String.eqb_eq. Qed.

Lemma streq_false a b : Js.streq a b = false <-> a <> b.
Proof. apply String.eqb_neq. Qed.

(** Sorting keeps the elements. *)
Lemma insertSorted_perm A (cmp : A -> A -> Q) x l :
  Permutation (Js.insertSorted cmp x l) (x :: l).
Proof.
  induction l as [|y l IH]; simpl; [reflexivity|].
  destruct (Js.ltb 0 (cmp x y)); [|reflexivity].
  rewrite IH. apply perm_swap.
Qed.

Lemma toSorted_perm A (cmp : A -> A -> Q) l :
  Permutation (Js.toSorted cmp l) l.
Proof.
  induction l as [|x l IH]; simpl; [reflexivity|].
  rewrite insertSorted_perm. now constructor.
Qed.

Lemma toSorted_length A (cmp : A -> A -> Q) l :
  List.length (Js.toSorted cmp l) = List.length l.
Proof. apply Permutation_length, toSorted_perm. Qed.

Lemma toSorted_nonempty A (cmp : A -> A -> Q) l :
  l <> [] -> Js.toSorted cmp l <> [].
Proof.
  intros H E. apply (f_equal (@List.length A)) in E.
  rewrite toSorted_length in E. destruct l; [congruence | discriminate].
Qed.

End JsFacts.

(** ** task-classifier.ts *)

Section ClassifierProperties.

Import TaskClassifier.
Open Scope string_scope.
Open Scope Q_scope.








(** C10: with a hinted task type and no hinted reasoning flag, reasoning is
    required exactly when the hinted type is [reasoning], whatever the
    complexity; a hinted [chat] with hinted [complex] gives [false], while
    the rule without a hinted type gives [true] for a complex task. *)
Theorem classifyTask_hinted_reasoning
        (prompt : string) (hasImages : bool)
        (h : TaskClassificationHints) (ty : TaskType) :
  hint_taskType h = Some ty ->
  hint_requiresReasoning h = None ->
  (requiresReasoning (classifyTask prompt hasImages (Some h)) = true
   <-> ty = reasoning)
  /\ requiresReasoning
       (classifyTask prompt hasImages
          (Some {| hint_taskType := Some chat;
                   hint_complexity := Some complex;
                   hint_requiresVision := None;
                   hint_requiresReasoning := None |})) = false
  /\ requiresReasoning
       (classifyTask prompt hasImages
          (Some {| hint_taskType := None;
                   hint_complexity := Some complex;
                   hint_requiresVision := None;
                   hint_requiresReasoning := None |})) = true.
Proof.
  intros Hty Hrr. split; [|split].
  - unfold classifyTask. cbn [orElse]. rewrite Hty. cbn [requiresReasoning].
    rewrite Hrr. cbn [orElse].
    destruct ty; cbn [TaskType_eqb]; split; intro H;
      try reflexivity; discriminate.
  - reflexivity.
  - unfold classifyTask.
    cbn [orElse hint_taskType hint_complexity hint_requiresReasoning].
    destruct (pickMax _) as [m d]. cbn [requiresReasoning TaskComplexity_eqb].
    rewrite orb_true_r. reflexivity.
Qed.

Lemma classifyTask_hinted_reasoning_witness :
  requiresReasoning
    (classifyTask "Hello" false
       (Some {| hint_taskType := Some reasoning;
                hint_complexity := Some simple;
                hint_requiresVision := None;
                hint_requiresReasoning := None |})) = true
  /\ requiresReasoning
       (classifyTask "Prove the theorem step by step" false
          (Some {| hint_taskType := Some chat;
                   hint_complexity := Some complex;
                   hint_requiresVision := None;
                   hint_requiresReasoning := None |})) <> true.
Proof.
  split.
  - refine (proj2 (proj1 (classifyTask_hinted_reasoning
                            "Hello" false _ reasoning _ _)) eq_refl);
      reflexivity.
  - intro H.
    pose proof (proj1 (proj1 (classifyTask_hinted_reasoning
                                "Prove the theorem step by step" false
                                {| hint_taskType := Some chat;
                                   hint_complexity := Some complex;
                                   hint_requiresVision := None;
                                   hint_requiresReasoning := None |}
                                chat eq_refl eq_refl)) H).
    discriminate.
Defined.

End ClassifierProperties.

(** ** model-scorer.ts *)

Section ScorerProperties.

Import TaskClassifier Models ModelScorer.
Open Scope string_scope.
Open Scope Q_scope.

Lemma abs_Qabs x : Js.abs x == Qabs x.
Proof.
  destruct (abs_spec x) as [[H ->] | [H ->]].
  - symmetry. now apply Qabs_pos.
  - symmetry. apply Qabs_neg. lra.
Qed.

Lemma normalized_sum a b c d s :
  ~ s == 0 -> s == a + b + c + d -> a / s + b / s + c / s + d / s == 1.
Proof. intros Hs E. rewrite E in Hs |- *. now field. Qed.

(** The three cases of [normalizeWeights]. *)
Lemma normalizeWeights_cases w :
  (weightSum w == 0 /\ normalizeWeights w = DEFAULT_SCORING_WEIGHTS)
  \/ (~ weightSum w == 0 /\ Qabs (weightSum w - 1) < 0.001
      /\ normalizeWeights w = w)
  \/ (~ weightSum w == 0 /\ 0.001 <= Qabs (weightSum w - 1)
      /\ normalizeWeights w
         = {| capabilityMatch := capabilityMatch w / weightSum w;
              costEfficiency := costEfficiency w / weightSum w;
              w_performance := w_performance w / weightSum w;
              w_availability := w_availability w / weightSum w |}).
Proof.
  unfold normalizeWeights.
  destruct (Js.eqb (weightSum w) 0) eqn:E0.
  - left. apply eqb_true in E0. auto.
  - apply eqb_false in E0. right.
    destruct (Js.ltb (Js.abs (weightSum w - 1.0)) 0.001) eqn:E1.
    + left. apply ltb_true in E1. rewrite abs_Qabs in E1.
      assert (Qabs (weightSum w - 1) == Qabs (weightSum w - 1.0)) as ->
          by (apply Qabs_wd; lra).
      split; [exact E0|]. split; [exact E1 | reflexivity].
    + right. apply ltb_false in E1. rewrite abs_Qabs in E1.
      assert (Qabs (weightSum w - 1) == Qabs (weightSum w - 1.0)) as ->
          by (apply Qabs_wd; lra).
      split; [exact E0|]. split; [exact E1 | reflexivity].
Qed.

Lemma weightSum_rescaled w :
  ~ weightSum w == 0 ->
  weightSum {| capabilityMatch := capabilityMatch w / weightSum w;
               costEfficiency := costEfficiency w / weightSum w;
               w_performance := w_performance w / weightSum w;
               w_availability := w_availability w / weightSum w |} == 1.
Proof.
  intro H. unfold weightSum at 1. cbn [capabilityMatch costEfficiency
                                       w_performance w_availability].
  apply normalized_sum; [exact H | reflexivity].
Qed.





(** *** Bounds of the sub-scores *)

Lemma div_unit_interval x y : 0 <= x -> 0 < y -> 0 <= x / y.
Proof. intros Hx Hy. apply Qle_shift_div_l; lra. Qed.








(** *** Capability profiles that are inferred have a positive window *)

Lemma detected_contextWindow_pos s w :
  ModelCapabilities.sig_contextWindow
    (ModelCapabilities.detectModelNameCapabilities s) = Some w ->
  0 < w.
Proof.
  unfold ModelCapabilities.detectModelNameCapabilities.
  cbn [ModelCapabilities.sig_contextWindow].
  destruct (ModelCapabilities.contextDigits _ _) as [ds|]; [|discriminate].
  cbv zeta.
  destruct (ModelCapabilities.parseInt ds <? ModelCapabilities.infinityFrom)%Z;
    [|discriminate].
  destruct (0 <? ModelCapabilities.parseInt ds)%Z eqn:E; [|discriminate].
  cbn [andb]. intro H. injection H as <-.
  apply Z.ltb_lt in E.
  assert (0 < inject_Z (ModelCapabilities.parseInt ds)).
  { change 0 with (inject_Z 0). now rewrite <- Zlt_Qlt. }
  lra.
Qed.

Lemma inferred_contextWindow_pos m :
  entry_capabilities m = None ->
  0 < cap_contextWindow (ModelCapabilities.inferModelCapabilities m None).
Proof.
  intro Hnone. unfold ModelCapabilities.inferModelCapabilities.
  rewrite Hnone. cbv zeta. cbn [cap_contextWindow].
  cbn [orElse ModelCapabilities.noDefaults
       ModelCapabilities.defaultContextWindow].
  destruct (entry_contextWindow m) as [w|].
  - destruct (Js.gtb w 0) eqn:E.
    + apply ltb_true in E. exact E.
    + cbn [ModelCapabilities.orElseOpt].
      destruct (ModelCapabilities.sig_contextWindow _) as [w'|] eqn:E'.
      * cbn [orElse]. exact (detected_contextWindow_pos _ _ E').
      * reflexivity.
  - cbn [ModelCapabilities.orElseOpt].
    destruct (ModelCapabilities.sig_contextWindow _) as [w'|] eqn:E'.
    + cbn [orElse]. exact (detected_contextWindow_pos _ _ E').
    + reflexivity.
Qed.


(** *** The weighted total *)

Definition nonNegativeWeights (w : ModelScoringWeights) : Prop :=
  0 <= capabilityMatch w /\ 0 <= costEfficiency w
  /\ 0 <= w_performance w /\ 0 <= w_availability w.

Lemma normalizeWeights_nonneg w :
  nonNegativeWeights w ->
  nonNegativeWeights (normalizeWeights w)
  /\ weightSum (normalizeWeights w) < 1.001
  /\ (weightSum w <= 1 \/ 1.001 <= weightSum w ->
      weightSum (normalizeWeights w) <= 1).
Proof.
  intros (Ha & Hb & Hc & Hd).
  destruct (normalizeWeights_cases w)
    as [[E ->] | [(Hn & Hlt & ->) | (Hn & Hge & ->)]].
  - split; [|split].
    + unfold nonNegativeWeights. cbn. repeat split; discriminate.
    + reflexivity.
    + intros _. discriminate.
  - apply Qabs_Qlt_condition in Hlt.
    split; [|split].
    + unfold nonNegativeWeights. auto.
    + lra.
    + intros [H | H]; lra.
  - assert (Hpos : 0 < weightSum w).
    { assert (0 <= weightSum w) by (unfold weightSum; lra).
      destruct (Qlt_le_dec 0 (weightSum w)) as [H0 | H0]; [exact H0|].
      exfalso. apply Hn. lra. }
    pose proof (weightSum_rescaled w Hn) as E.
    split; [|split].
    + unfold nonNegativeWeights.
      cbn [capabilityMatch costEfficiency w_performance w_availability].
      repeat split; apply div_unit_interval; assumption.
    + rewrite E. reflexivity.
    + intros _. rewrite E. discriminate.
Qed.







(** *** Ranking *)

(** Insertion with a comparator keeps a list locally ordered for every
    relation that the comparator's sign decides. *)
Section SortOrder.

Variable A : Type.
Variable cmp : A -> A -> Q.
Variable R : A -> A -> Prop.
Hypothesis keep : forall x y, Js.ltb 0 (cmp x y) = false -> R x y.
Hypothesis swap : forall x y, Js.ltb 0 (cmp x y) = true -> R y x.

Lemma insertSorted_HdRel x y l :
  R y x -> HdRel R y l -> HdRel R y (Js.insertSorted cmp x l).
Proof.
  intros Hyx Hl. destruct l as [|z l]; simpl.
  - now constructor.
  - destruct (Js.ltb 0 (cmp x z)); constructor; [|assumption].
    now inversion Hl.
Qed.

Lemma insertSorted_Sorted x l :
  Sorted R l -> Sorted R (Js.insertSorted cmp x l).
Proof.
  induction l as [|y l IH]; intro Hs; simpl.
  - repeat constructor.
  - inversion Hs as [|? ? Hl Hhd]; subst.
    destruct (Js.ltb 0 (cmp x y)) eqn:E.
    + constructor; [now apply IH|].
      apply insertSorted_HdRel; [now apply swap | assumption].
    + constructor; [assumption|]. constructor. now apply keep.
Qed.

Lemma toSorted_Sorted l : Sorted R (Js.toSorted cmp l).
Proof.
  induction l as [|x l IH]; simpl; [constructor|].
  now apply insertSorted_Sorted.
Qed.

End SortOrder.

(** [a] may stand directly before [b] in a ranking: its total is higher by
    more than 0.001, or the totals are within 0.001 of each other and [a]
    has the higher cost sub-score, or the same cost sub-score and a
    performance sub-score that is not lower. *)
Definition rankedBefore (a b : ModelScore) : Prop :=
  0.001 < totalScore a - totalScore b
  \/ (Qabs (totalScore a - totalScore b) <= 0.001
      /\ (cost (breakdown b) < cost (breakdown a)
          \/ (cost (breakdown a) == cost (breakdown b)
              /\ performance (breakdown b) <= performance (breakdown a)))).

Lemma Qabs_split x : (0 <= x /\ Qabs x == x) \/ (x < 0 /\ Qabs x == - x).
Proof.
  destruct (Qlt_le_dec x 0) as [H | H]; [right | left]; split; auto.
  - apply Qabs_neg. lra.
  - now apply Qabs_pos.
Qed.

Lemma rankCompare_cases a b :
  (0.001 < Qabs (totalScore a - totalScore b)
   /\ rankCompare a b = totalScore b - totalScore a)
  \/ (Qabs (totalScore a - totalScore b) <= 0.001
      /\ ~ cost (breakdown a) == cost (breakdown b)
      /\ rankCompare a b = cost (breakdown b) - cost (breakdown a))
  \/ (Qabs (totalScore a - totalScore b) <= 0.001
      /\ cost (breakdown a) == cost (breakdown b)
      /\ rankCompare a b
         = performance (breakdown b) - performance (breakdown a)).
Proof.
  unfold rankCompare.
  destruct (Js.gtb (Js.abs (totalScore a - totalScore b)) 0.001) eqn:E.
  - left. apply ltb_true in E. rewrite abs_Qabs in E. auto.
  - right. apply ltb_false in E. rewrite abs_Qabs in E.
    destruct (Js.eqb (cost (breakdown a)) (cost (breakdown b))) eqn:Ec.
    + right. apply eqb_true in Ec. auto.
    + left. apply eqb_false in Ec. auto.
Qed.

Lemma rankCompare_keep a b :
  Js.ltb 0 (rankCompare a b) = false -> rankedBefore a b.
Proof.
  intro H. apply ltb_false in H. unfold rankedBefore.
  destruct (rankCompare_cases a b)
    as [[Hd E] | [(Ht & Hc & E) | (Ht & Hc & E)]]; rewrite E in H.
  - left. destruct (Qabs_split (totalScore a - totalScore b))
      as [[? Ea] | [? Ea]]; rewrite Ea in Hd; lra.
  - right. split; [exact Ht|]. left.
    destruct (Qlt_le_dec (cost (breakdown b)) (cost (breakdown a)))
      as [L | L]; [exact L|].
    exfalso. apply Hc. lra.
  - right. split; [exact Ht|]. right. split; [exact Hc | lra].
Qed.

Lemma Qabs_flip x y : Qabs (x - y) == Qabs (y - x).
Proof.
  rewrite <- (Qabs_opp (x - y)). apply Qabs_wd. lra.
Qed.

Lemma rankCompare_swap a b :
  Js.ltb 0 (rankCompare a b) = true -> rankedBefore b a.
Proof.
  intro H. apply ltb_true in H. unfold rankedBefore.
  destruct (rankCompare_cases a b)
    as [[Hd E] | [(Ht & Hc & E) | (Ht & Hc & E)]]; rewrite E in H.
  - left. destruct (Qabs_split (totalScore a - totalScore b))
      as [[? Ea] | [? Ea]]; rewrite Ea in Hd; lra.
  - right. rewrite Qabs_flip in Ht. split; [exact Ht|]. left. lra.
  - right. rewrite Qabs_flip in Ht. split; [exact Ht|]. right.
    split; [symmetry; exact Hc | lra].
Qed.

Lemma rankedBefore_tolerance a b :
  rankedBefore a b -> totalScore b <= totalScore a + 0.001.
Proof.
  intros [H | [H _]]; [lra|].
  apply Qabs_Qle_condition in H. lra.
Qed.

Lemma Sorted_weaken A (R S : A -> A -> Prop) l :
  (forall x y, R x y -> S x y) -> Sorted R l -> Sorted S l.
Proof.
  intros HRS H. induction H as [|x l Hl IH Hhd]; constructor; [assumption|].
  destruct Hhd; constructor. now apply HRS.
Qed.

(** A cheap entry and a premium one whose totals for [codingTask] are 0.7396
    and 0.74. *)
Definition tinyModel : ModelCatalogEntry :=
  {| entry_id := "tiny"; entry_name := "Tiny"; entry_provider := "ollama";
     entry_contextWindow := None; entry_reasoning := None;
     entry_input := None; entry_cost := None;
     entry_capabilities :=
       Some {| taskTypes := [general; chat];
               maxComplexity := simple;
               supportsVision := false;
               supportsReasoning := false;
               cap_contextWindow := 4900;
               costTier := free |} |}.

Definition bigModel : ModelCatalogEntry :=
  {| entry_id := "big"; entry_name := "Big"; entry_provider := "anthropic";
     entry_contextWindow := None; entry_reasoning := None;
     entry_input := None; entry_cost := None;
     entry_capabilities :=
       Some {| taskTypes := [coding; general; chat];
               maxComplexity := complex;
               supportsVision := true;
               supportsReasoning := true;
               cap_contextWindow := 200000;
               costTier := high |} |}.

Definition codingTask : TaskClassification :=
  {| type := coding; complexity := simple; requiresVision := false;
     estimatedContextTokens := Some 10000; requiresReasoning := false;
     confidence := 1 |}.

(** C2, as stated, fails: the two totals are within 0.001, so the cost
    tie-break puts the cheaper entry first although its total is the lower
    one; the ranking is not non-increasing by total score. *)
Lemma rankModels_sorted_counterexample :
  let a := scoreModel tinyModel codingTask None None in
  let b := scoreModel bigModel codingTask None None in
  rankModels [bigModel; tinyModel] codingTask None = [a; b]
  /\ totalScore a == 0.7396 /\ totalScore b == 0.74
  /\ totalScore a < totalScore b
  /\ ~ Sorted (fun x y => totalScore y <= totalScore x)
       (rankModels [bigModel; tinyModel] codingTask None).
Proof.
  intros a b.
  assert (E : rankModels [bigModel; tinyModel] codingTask None = [a; b])
    by (vm_compute; reflexivity).
  split; [exact E|].
  split; [reflexivity|]. split; [reflexivity|]. split; [reflexivity|].
  rewrite E. intro H.
  apply Sorted_inv in H as [_ Hhd]. apply HdRel_inv in Hhd.
  apply Hhd. reflexivity.
Qed.

(** C2 (amended): the list returned by [rankModels] holds the score of every
    given entry, and each entry stands before its successor by the
    three-level comparator: its total is higher by more than 0.001, or the
    two totals are within 0.001 and its cost sub-score is higher, or the
    cost sub-scores are equal and its performance sub-score is not lower.
    The total score is therefore non-increasing only up to 0.001 from one
    entry to the next. *)
Theorem rankModels_order (models : list ModelCatalogEntry)
        (task : TaskClassification) (weights : option ModelScoringWeights) :
  Sorted rankedBefore (rankModels models task weights)
  /\ Sorted (fun a b => totalScore b <= totalScore a + 0.001)
            (rankModels models task weights)
  /\ Permutation (rankModels models task weights)
                 (map (fun m => scoreModel m task weights None) models).
Proof.
  assert (Sorted rankedBefore (rankModels models task weights)) as H.
  { unfold rankModels. destruct models as [|m models]; [constructor|].
    apply toSorted_Sorted; [apply rankCompare_keep | apply rankCompare_swap]. }
  split; [exact H|]. split.
  - revert H. apply Sorted_weaken. apply rankedBefore_tolerance.
  - unfold rankModels. destruct models as [|m models]; [constructor|].
    apply toSorted_perm.
Qed.

End ScorerProperties.

(** ** task-router.ts *)

Section RouterProperties.

Import TaskClassifier Models ModelScorer TaskRouter.
Open Scope string_scope.
Open Scope Q_scope.

Lemma truthy_true s : Js.truthy s = true <-> s <> "".
Proof.
  destruct s; simpl; split; intro H; try reflexivity; try discriminate.
  now elim H.
Qed.

(** *** Manual override *)

Definition disabledRouter : TaskBasedModelRouter :=
  {| config := DEFAULT_ROUTING_CONFIG; catalog := [] |}.

Definition optionsWithOverride (o : option string) : TaskRoutingOptions :=
  {| prompt := "Fix the bug"; hasImages := false; hints := None;
     overrideModel := o; allowedProviders := None |}.

(** C1, as stated, fails: a single space is a non-empty override string,
    but it is empty once trimmed, so it is not taken as an override and the
    disabled router returns null. *)
Lemma selectModelForTask_override_counterexample :
  " " <> ""
  /\ selectModelForTask disabledRouter (optionsWithOverride (Some " ")) = None.
Proof. split; [discriminate | reflexivity]. Qed.

(** The same call without an override. *)
Definition withoutOverride (options : TaskRoutingOptions)
  : TaskRoutingOptions :=
  {| prompt := prompt options; hasImages := hasImages options;
     hints := hints options; overrideModel := None;
     allowedProviders := allowedProviders options |}.

(** C1 (amended): for every override string that is non-empty after
    trimming, [selectModelForTask] returns, whatever the router's
    configuration and catalog, the parsed reference as primary (split at the
    first slash, provider [anthropic] without a slash), no fallbacks, no
    ranked scores, and a synthetic score of 1.0 whose four sub-scores are
    1.0; the prompt is still classified and the classification is recorded
    in the decision, and both reasoning strings name the override; the
    override ["openai/gpt-4o"] yields provider [openai] and model [gpt-4o].
    An override that is empty once trimmed is treated as absent: the result
    is that of the same call without an override. *)
Theorem selectModelForTask_override
        (r : TaskBasedModelRouter) (options : TaskRoutingOptions) :
  (forall s,
      overrideModel options = Some s ->
      Js.trim s <> "" ->
      exists res,
        selectModelForTask r options = Some res
        /\ primary res = parseOverrideModelRef s
        /\ fallbacks res = None
        /\ provider (selectedScore (decision res)) = ref_provider (primary res)
        /\ model (selectedScore (decision res)) = ref_model (primary res)
        /\ totalScore (selectedScore (decision res)) = 1.0
        /\ breakdown (selectedScore (decision res))
           = {| capability := 1.0; cost := 1.0;
                performance := 1.0; availability := 1.0 |}
        /\ allRankedScores (decision res) = []
        /\ taskClassification (decision res)
           = classifyTask (prompt options) (hasImages options)
                          (hints options)
        /\ score_reasoning (selectedScore (decision res))
           = "Manual override: "
               ++ refKey (ref_provider (primary res)) (ref_model (primary res))
        /\ decision_reasoning (decision res)
           = "Manual model override: "
               ++ refKey (ref_provider (primary res)) (ref_model (primary res))
        /\ (Js.indexOf "/" (Js.trim s) = None ->
            primary res
            = {| ref_provider := "anthropic"; ref_model := Js.trim s |})
        /\ (forall i, Js.indexOf "/" (Js.trim s) = Some i ->
            primary res
            = {| ref_provider := Js.trim (Js.sliceTo i (Js.trim s));
                 ref_model := Js.trim (Js.sliceFrom (i + 1) (Js.trim s)) |})
        /\ (s = "openai/gpt-4o" ->
            primary res
            = {| ref_provider := "openai"; ref_model := "gpt-4o" |}))
  /\ (forall s,
         overrideModel options = Some s ->
         Js.trim s = "" ->
         selectModelForTask r options
         = selectModelForTask r (withoutOverride options)).
Proof.
  split.
  - intros s Ho Ht.
    exists (buildManualOverrideRoutingResult s (prompt options)
              (hasImages options) (hints options)).
    split.
    { unfold selectModelForTask, isOverride. rewrite Ho.
      rewrite (proj2 (truthy_true (Js.trim s)) Ht). reflexivity. }
    cbn [buildManualOverrideRoutingResult primary fallbacks decision
         selectedScore provider model totalScore breakdown allRankedScores
         taskClassification score_reasoning decision_reasoning].
    do 10 (split; [reflexivity|]).
    split; [|split].
    + intro E. unfold parseOverrideModelRef. now rewrite E.
    + intros i E. unfold parseOverrideModelRef. now rewrite E.
    + intros ->. reflexivity.
  - intros s Ho Ht. unfold selectModelForTask, isOverride.
    rewrite Ho, Ht. reflexivity.
Qed.

Lemma selectModelForTask_override_witness :
  exists res,
    selectModelForTask disabledRouter
                       (optionsWithOverride (Some "openai/gpt-4o")) = Some res
    /\ primary res = {| ref_provider := "openai"; ref_model := "gpt-4o" |}.
Proof.
  destruct (proj1 (selectModelForTask_override
                     disabledRouter
                     (optionsWithOverride (Some "openai/gpt-4o")))
                  "openai/gpt-4o")
    as (res & E & Hp & _); [reflexivity | discriminate |].
  exists res. split; [exact E | exact Hp].
Defined.

(** *** Fallback list *)

Lemma fallbackLoop_spec A (emit : ModelScore -> A) key maxFallbacks ranked acc :
  fallbackLoop emit key maxFallbacks ranked acc
  = (acc ++ firstn (maxFallbacks - List.length acc)
                   (map emit
                        (filter (fun s => negb (Js.streq (scoreKey s) key))
                                ranked)))%list.
Proof.
  revert acc. induction ranked as [|score rest IH]; intro acc.
  - simpl. now rewrite firstn_nil, app_nil_r.
  - cbn [fallbackLoop filter].
    destruct (maxFallbacks <=? List.length acc)%nat eqn:E.
    + apply Nat.leb_le in E.
      replace (maxFallbacks - List.length acc)%nat with O by lia.
      now rewrite app_nil_r.
    + apply Nat.leb_gt in E.
      destruct (Js.streq (scoreKey score) key); cbn [negb].
      * apply IH.
      * rewrite IH, length_app. cbn [List.length map].
        replace (maxFallbacks - List.length acc)%nat
          with (S (maxFallbacks - (List.length acc + 1)))%nat by lia.
        cbn [firstn]. now rewrite <- app_assoc.
Qed.

Lemma primaryKey_split provider model :
  Js.toLowerCase (refKey provider model)
  = (Js.toLowerCase provider ++ "/" ++ Js.toLowerCase model)%string.
Proof.
  unfold refKey. rewrite !toLowerCase_app. reflexivity.
Qed.

(** The reference [f] is not the primary: the two differ in the provider or
    in the model once both are lower-cased. *)
Definition differsFrom (primary f : ModelRef) : Prop :=
  ~ (Js.toLowerCase (ref_provider f) = Js.toLowerCase (ref_provider primary)
     /\ Js.toLowerCase (ref_model f) = Js.toLowerCase (ref_model primary)).

Definition keepsFallback (primary : ModelRef) (s : ModelScore) : bool :=
  negb (Js.streq (scoreKey s) (primaryKeyOf primary)).

Lemma keepsFallback_differs primary s :
  keepsFallback primary s = true -> differsFrom primary (scoreRef s).
Proof.
  unfold keepsFallback, differsFrom, scoreKey, primaryKeyOf, scoreRef.
  rewrite negb_true_iff, streq_false, !primaryKey_split.
  cbn [ref_provider ref_model]. intros Hne [Hp Hm]. apply Hne.
  now rewrite Hp, Hm.
Qed.

Lemma Forall_firstn A (P : A -> Prop) n l : Forall P l -> Forall P (firstn n l).
Proof.
  intro H. revert n. induction H; intros [|n]; simpl; constructor; auto.
Qed.

(** C5: the fallback list never holds a reference with the primary's
    (provider, model) identity, compared case-insensitively; it is never
    longer than the maximum (3 unless given); and it is the ranked list
    without the primary, in rank order, cut at the maximum.  The same holds
    for the exported builder, which renders the references as strings. *)
Theorem generateFallbackList_sound
        (rankedScores : list ModelScore) (primary : ModelRef)
        (maxFallbacks : option nat) :
  let limit := orElse maxFallbacks 3%nat in
  let refs := orElse (routerFallbackList rankedScores primary maxFallbacks) [] in
  let keys := generateFallbackList rankedScores primary maxFallbacks in
  Forall (differsFrom primary) refs
  /\ (List.length refs <= limit)%nat
  /\ refs = firstn limit
                   (map scoreRef (filter (keepsFallback primary) rankedScores))
  /\ Forall (fun k => Js.toLowerCase k <> primaryKeyOf primary) keys
  /\ (List.length keys <= limit)%nat
  /\ keys = firstn limit
                   (map (fun s => refKey (provider s) (model s))
                        (filter (keepsFallback primary) rankedScores)).
Proof.
  intros limit refs keys.
  assert (Er : refs = firstn limit
                 (map scoreRef (filter (keepsFallback primary) rankedScores))).
  { subst refs. unfold routerFallbackList. rewrite fallbackLoop_spec.
    cbn [List.length app]. rewrite Nat.sub_0_r.
    fold limit. unfold keepsFallback.
    destruct (firstn limit _); reflexivity. }
  assert (Ek : keys = firstn limit
                 (map (fun s => refKey (provider s) (model s))
                      (filter (keepsFallback primary) rankedScores))).
  { subst keys. unfold generateFallbackList. rewrite fallbackLoop_spec.
    cbn [List.length app]. now rewrite Nat.sub_0_r. }
  split; [|split; [|split; [exact Er | split; [|split; [|exact Ek]]]]].
  - rewrite Er. apply Forall_firstn, Forall_map, Forall_forall.
    intros s Hs. apply filter_In in Hs. now apply keepsFallback_differs.
  - rewrite Er, length_firstn. lia.
  - rewrite Ek. apply Forall_firstn, Forall_map, Forall_forall.
    intros s Hs. apply filter_In in Hs as [_ Hs].
    unfold keepsFallback in Hs.
    now rewrite negb_true_iff, streq_false in Hs.
  - rewrite Ek, length_firstn. lia.
Qed.

(** *** Filtering stages *)

Lemma rankModels_nonempty models task weights :
  models <> [] -> rankModels models task weights <> [].
Proof.
  intro H. unfold rankModels. destruct models as [|m models]; [congruence|].
  apply toSorted_nonempty. discriminate.
Qed.

Lemma applyProviderPreference_nonempty cfg ranked task :
  ranked <> [] -> fst (applyProviderPreference cfg ranked task) <> [].
Proof.
  intro H. unfold applyProviderPreference. cbv zeta.
  destruct (snd _) as [preferred|]; cbn [fst]; [|exact H].
  apply toSorted_nonempty. destruct ranked; [congruence | discriminate].
Qed.

Lemma allowedStage_nonempty catalog allowed :
  catalog <> [] -> allowedStage catalog allowed <> [].
Proof.
  intro H. unfold allowedStage.
  destruct allowed as [[|a allowed]|]; try exact H.
  destruct (filterModelsByCapabilities _ _); [exact H | discriminate].
Qed.

Lemma ruleStage_nonempty r preRule task :
  catalog r <> [] -> ruleStage r preRule task <> [].
Proof.
  intro H. unfold ruleStage.
  destruct (applyTaskRules _ _ _); [exact H | discriminate].
Qed.

(** A catalog with an [openai] entry without reasoning and an [anthropic]
    entry with it, and a rule that demands reasoning for coding tasks. *)
Definition plainModel : ModelCatalogEntry :=
  {| entry_id := "gpt-plain"; entry_name := "GPT Plain";
     entry_provider := "openai";
     entry_contextWindow := None; entry_reasoning := None;
     entry_input := None; entry_cost := None;
     entry_capabilities :=
       Some {| taskTypes := [coding; general; chat];
               maxComplexity := moderate;
               supportsVision := false;
               supportsReasoning := false;
               cap_contextWindow := 128000;
               costTier := medium |} |}.

Definition thinkerModel : ModelCatalogEntry :=
  {| entry_id := "thinker"; entry_name := "Thinker";
     entry_provider := "anthropic";
     entry_contextWindow := None; entry_reasoning := None;
     entry_input := None; entry_cost := None;
     entry_capabilities :=
       Some {| taskTypes := [coding; reasoning; general; chat];
               maxComplexity := complex;
               supportsVision := true;
               supportsReasoning := true;
               cap_contextWindow := 200000;
               costTier := high |} |}.

Definition reasoningRule : TaskRoutingRule :=
  {| rule_taskType := coding; rule_complexity := None;
     preferredProviders := None; preferredModels := None;
     excludeProviders := None; minContextWindow := None;
     requireReasoning := Some true |}.

Definition ruledRouter : TaskBasedModelRouter :=
  newRouter
    {| cfg_enabled := Some true; cfg_strategy := None;
       cfg_preferLocal := None; cfg_localProviders := None;
       cfg_cloudProviders := None; cfg_taskRules := Some [reasoningRule];
       cfg_scoringWeights := None; cfg_fallbackBehavior := None |}
    [plainModel; thinkerModel].

Definition openaiOnly : TaskRoutingOptions :=
  {| prompt := "Fix the bug"; hasImages := false; hints := None;
     overrideModel := None; allowedProviders := Some ["openai"] |}.

(** C7, as stated, fails in its second part: the allow-list leaves the
    pre-rule catalog [[plainModel]], the matching rule empties it, and the
    router then ranks the full catalog, not the pre-rule one, so that an
    [anthropic] entry outside the allow-list comes back as a fallback. *)
Lemma ruleStage_revert_counterexample :
  let task := classifyTask (prompt openaiOnly) (hasImages openaiOnly)
                           (hints openaiOnly) in
  let preRule := allowedStage (catalog ruledRouter)
                              (allowedProviders openaiOnly) in
  preRule = [plainModel]
  /\ applyTaskRules (taskRules (config ruledRouter)) preRule task = []
  /\ ruleStage ruledRouter preRule task = [plainModel; thinkerModel]
  /\ ruleStage ruledRouter preRule task <> preRule
  /\ option_map
       (fun res => (primary res, fallbacks res))
       (selectModelForTask ruledRouter openaiOnly)
     = Some ({| ref_provider := "openai"; ref_model := "gpt-plain" |},
             Some [{| ref_provider := "anthropic"; ref_model := "thinker" |}]).
Proof.
  cbv zeta.
  assert (E1 : allowedStage (catalog ruledRouter) (allowedProviders openaiOnly)
               = [plainModel]) by (vm_compute; reflexivity).
  rewrite E1.
  assert (E2 : ruleStage ruledRouter [plainModel]
                 (classifyTask (prompt openaiOnly) (hasImages openaiOnly)
                               (hints openaiOnly))
               = [plainModel; thinkerModel]) by (vm_compute; reflexivity).
  rewrite E2.
  split; [reflexivity|]. split; [vm_compute; reflexivity|].
  split; [reflexivity|]. split; [discriminate|].
  vm_compute. reflexivity.
Qed.

(** C7 (amended): an empty set produced by a filtering stage is recovered by
    reverting to the router's full catalog: when the allowed-provider
    restriction leaves nothing, the full catalog is used; when the matching
    task rules leave nothing, the full catalog is used again (also when the
    allow-list had narrowed the pre-rule set); so for a non-empty catalog
    both stages yield a non-empty set and an enabled router never returns
    null. *)
Theorem filtering_reverts_to_catalog
        (r : TaskBasedModelRouter) (options : TaskRoutingOptions) :
  catalog r <> [] ->
  let task := classifyTask (prompt options) (hasImages options)
                           (hints options) in
  let preRule := allowedStage (catalog r) (allowedProviders options) in
  let ranked := ruleStage r preRule task in
  (forall allowed,
      allowedProviders options = Some allowed ->
      filterModelsByCapabilities (catalog r) (allowedOnly allowed) = [] ->
      preRule = catalog r)
  /\ (forall allowed,
         allowedProviders options = Some allowed -> allowed <> [] ->
         filterModelsByCapabilities (catalog r) (allowedOnly allowed) <> [] ->
         preRule = filterModelsByCapabilities (catalog r) (allowedOnly allowed))
  /\ (applyTaskRules (taskRules (config r)) preRule task = [] ->
      ranked = catalog r)
  /\ (applyTaskRules (taskRules (config r)) preRule task <> [] ->
      ranked = applyTaskRules (taskRules (config r)) preRule task)
  /\ preRule <> [] /\ ranked <> []
  /\ (enabled (config r) = true -> selectModelForTask r options <> None).
Proof.
  intros Hcat task preRule ranked.
  split; [|split; [|split; [|split; [|split; [|split]]]]].
  - intros allowed Ea Hf. subst preRule. unfold allowedStage.
    rewrite Ea. destruct allowed; [reflexivity|]. now rewrite Hf.
  - intros allowed Ea Hne Hf. subst preRule. unfold allowedStage.
    rewrite Ea. destruct allowed; [congruence|].
    destruct (filterModelsByCapabilities _ _); [congruence | reflexivity].
  - intro E. subst ranked. unfold ruleStage. now rewrite E.
  - intro E. subst ranked. unfold ruleStage.
    destruct (applyTaskRules _ _ _); [congruence | reflexivity].
  - now apply allowedStage_nonempty.
  - now apply ruleStage_nonempty.
  - intro Hen. unfold selectModelForTask.
    destruct (isOverride _); [discriminate|].
    rewrite Hen. cbn [negb]. cbv zeta. fold task. fold preRule. fold ranked.
    pose proof (@rankModels_nonempty ranked task
                  (Some (applyRoutingStrategy (strategy (config r))
                                              (scoringWeights (config r))))
                  (@ruleStage_nonempty r preRule task Hcat)) as Hr.
    destruct (rankModels ranked task _) as [|s0 scores] eqn:Er;
      [congruence|].
    pose proof (@applyProviderPreference_nonempty (config r) (s0 :: scores)
                  task Hr) as Hp.
    destruct (applyProviderPreference _ _ _) as [final pref].
    cbn [fst] in Hp. destruct final; [congruence | discriminate].
Qed.

Lemma filtering_reverts_to_catalog_witness :
  selectModelForTask ruledRouter openaiOnly <> None.
Proof.
  refine (proj2 (proj2 (proj2 (proj2 (proj2 (proj2
            (@filtering_reverts_to_catalog ruledRouter openaiOnly _)))))) _).
  - discriminate.
  - reflexivity.
Defined.

End RouterProperties.

(** ** model-catalog.ts *)

Section CatalogProperties.

Import Models ModelCatalog.
Open Scope string_scope.

Variable OpenClawConfig : Type.
Variable localeCompare : string -> string -> Q.


(** The value a suspended load resolves to. *)
Definition resolvedValue (outcome : DiscoveryOutcome)
  : list ModelCatalogEntry :=
  match outcome with
  | Enumerated entries => sortModels localeCompare (collectModels entries)
  | Threw processed => sortModels localeCompare (collectModels processed)
  end.

(** The load failed or found no usable entry. *)
Definition failedOrEmpty (outcome : DiscoveryOutcome) : bool :=
  match outcome with
  | Enumerated entries =>
      match collectModels entries with [] => true | _ => false end
  | Threw _ => true
  end.

(** Every pending promise is the cached one. *)
Definition cachedIfPending (st : CatalogState) : Prop :=
  forall q, isPending st q = true -> modelCatalogPromise st = Some q.

Definition noBypass (events : list (Event OpenClawConfig)) : bool :=
  forallb (fun e => negb (isBypass e)) events.

Definition pendingCount (st : CatalogState) : nat :=
  List.length
    (filter (fun s => match s with Pending => true | Fulfilled _ => false end)
            (promises st)).

(** *** Promise store *)

Lemma nth_error_setNth A (l : list A) p q x :
  nth_error (setNth p x l) q
  = if Nat.eqb q p
    then match nth_error l p with Some _ => Some x | None => None end
    else nth_error l q.
Proof.
  revert p q. induction l as [|y l IH]; intros p q.
  - simpl. destruct (Nat.eqb q p); destruct p, q; reflexivity.
  - destruct p as [|p], q as [|q]; simpl; try reflexivity. apply IH.
Qed.

Lemma length_setNth A (l : list A) p x :
  List.length (setNth p x l) = List.length l.
Proof.
  revert p. induction l as [|y l IH]; intros [|p]; simpl; auto.
Qed.

Lemma promises_logOnce st : promises (logOnce st) = promises st.
Proof. unfold logOnce. now destruct (hasLoggedModelCatalogError st). Qed.

Lemma settle_promises st p outcome :
  isPending st p = true ->
  promises (settle localeCompare p outcome st)
  = setNth p (Fulfilled (resolvedValue outcome)) (promises st).
Proof.
  intro Hp. unfold ModelCatalog.settle. rewrite Hp. cbn [negb].
  destruct outcome as [entries | processed]; cbn [resolvedValue].
  - destruct (collectModels entries); reflexivity.
  - cbv zeta. cbn [promises withPromises withCache].
    rewrite promises_logOnce.
    destruct (collectModels processed); reflexivity.
Qed.

Lemma settle_cache st p outcome :
  isPending st p = true ->
  modelCatalogPromise (settle localeCompare p outcome st)
  = if failedOrEmpty outcome then None else modelCatalogPromise st.
Proof.
  intro Hp. unfold ModelCatalog.settle. rewrite Hp. cbn [negb].
  destruct outcome as [entries | processed]; cbn [failedOrEmpty].
  - destruct (collectModels entries); reflexivity.
  - reflexivity.
Qed.

Lemma settle_not_pending st p outcome :
  isPending st p = false -> settle localeCompare p outcome st = st.
Proof. intro Hp. unfold ModelCatalog.settle. now rewrite Hp. Qed.

Lemma isPending_settle st p outcome q :
  isPending st p = true ->
  isPending (settle localeCompare p outcome st) q = isPending st q && negb (Nat.eqb q p).
Proof.
  intro Hp. unfold isPending, statusOf. rewrite (settle_promises _ _ _ Hp).
  rewrite nth_error_setNth.
  destruct (Nat.eqb q p) eqn:E.
  - rewrite andb_false_r.
    unfold isPending, statusOf in Hp.
    destruct (nth_error (promises st) p) as [[]|]; reflexivity || discriminate.
  - now rewrite andb_true_r.
Qed.

Lemma nth_error_snoc A (l : list A) x q :
  nth_error (l ++ [x]) q
  = if Nat.eqb q (List.length l) then Some x else nth_error l q.
Proof.
  revert q. induction l as [|y l IH]; intros [|q]; simpl; try reflexivity.
  - now destruct q.
  - apply IH.
Qed.

(** *** The call, case by case *)

Lemma load_cached (params : option (LoadParams OpenClawConfig)) loadConfig st p :
  bypassesCache params = false ->
  modelCatalogPromise st = Some p ->
  loadModelCatalog params loadConfig st = (p, st).
Proof.
  intros Hb Hc. unfold loadModelCatalog. rewrite Hb, Hc. reflexivity.
Qed.

Lemma load_fresh (params : option (LoadParams OpenClawConfig)) loadConfig st :
  bypassesCache params = true \/ modelCatalogPromise st = None ->
  let res := loadModelCatalog params loadConfig st in
  fst res = discoveryRuns st
  /\ discoveryRuns (snd res) = S (discoveryRuns st)
  /\ modelCatalogPromise (snd res) = Some (fst res)
  /\ isPending (snd res) (fst res) = negb (configThrows params loadConfig)
  /\ (forall q, q <> fst res -> statusOf (snd res) q = statusOf st q).
Proof.
  intros H res. subst res. unfold loadModelCatalog.
  assert (E : modelCatalogPromise
                (if bypassesCache params then withCache None st else st)
              = None).
  { destruct H as [-> | H]; [reflexivity|].
    destruct (bypassesCache params); [reflexivity | exact H]. }
  assert (P : promises (if bypassesCache params then withCache None st else st)
              = promises st)
    by (destruct (bypassesCache params); reflexivity).
  rewrite E.
  destruct (configThrows params loadConfig);
    cbn [fst snd modelCatalogPromise withCache withPromises promises negb];
    unfold discoveryRuns, isPending, statusOf;
    cbn [promises withCache withPromises];
    rewrite ?promises_logOnce, P, length_app, nth_error_snoc, Nat.eqb_refl;
    cbn [List.length];
    (split; [reflexivity|]); (split; [lia|]); (split; [reflexivity|]);
    (split; [reflexivity|]);
    intros q Hq; rewrite nth_error_snoc;
    apply Nat.eqb_neq in Hq; now rewrite Hq.
Qed.

Lemma load_fresh_promises (params : option (LoadParams OpenClawConfig))
      loadConfig st :
  bypassesCache params = true \/ modelCatalogPromise st = None ->
  promises (snd (loadModelCatalog params loadConfig st))
  = (promises st
       ++ [if configThrows params loadConfig then Fulfilled [] else Pending])%list.
Proof.
  intro H. unfold loadModelCatalog.
  assert (E : modelCatalogPromise
                (if bypassesCache params then withCache None st else st)
              = None).
  { destruct H as [-> | H]; [reflexivity|].
    destruct (bypassesCache params); [reflexivity | exact H]. }
  assert (P : promises (if bypassesCache params then withCache None st else st)
              = promises st)
    by (destruct (bypassesCache params); reflexivity).
  rewrite E.
  destruct (configThrows params loadConfig);
    cbn [snd promises withCache withPromises];
    now rewrite ?promises_logOnce, P.
Qed.

(** *** Invariants *)

Lemma cachedIfPending_step st (e : Event OpenClawConfig) :
  isBypass e = false -> cachedIfPending st -> cachedIfPending (step localeCompare st e).
Proof.
  intros Hb Hinv. destruct e as [params loadConfig | p outcome];
    cbn [ModelCatalog.step isBypass] in *.
  - destruct (modelCatalogPromise st) as [p|] eqn:Ec.
    + now rewrite (load_cached _ _ _ _ Hb Ec).
    + destruct (@load_fresh params loadConfig st (or_intror Ec))
        as (Hf & _ & Hc & _ & Hother).
      intros q Hq. rewrite Hc. f_equal.
      destruct (Nat.eq_dec q (fst (loadModelCatalog params loadConfig st)))
        as [-> | Hne]; [reflexivity|].
      exfalso. unfold isPending in Hq. rewrite (Hother q Hne) in Hq.
      specialize (Hinv q Hq). congruence.
  - destruct (isPending st p) eqn:Hp.
    + intros q Hq. rewrite (isPending_settle _ _ _ _ Hp) in Hq.
      apply andb_prop in Hq as [Hq Hne].
      apply negb_true_iff, Nat.eqb_neq in Hne.
      pose proof (Hinv p Hp). pose proof (Hinv q Hq). congruence.
    + now rewrite (settle_not_pending _ _ _ Hp).
Qed.

Lemma cachedIfPending_run events st :
  noBypass events = true -> cachedIfPending st ->
  cachedIfPending (run localeCompare events st).
Proof.
  revert st. induction events as [|e events IH]; intros st Hb Hinv;
    [exact Hinv|].
  cbn [noBypass forallb] in Hb. apply andb_prop in Hb as [He Hb].
  apply negb_true_iff in He.
  cbn [ModelCatalog.run fold_left]. apply IH; [exact Hb|].
  now apply cachedIfPending_step.
Qed.

Lemma cachedIfPending_initial : cachedIfPending initialState.
Proof. intros [|q] Hq; discriminate. Qed.

Definition isPendingStatus (s : PromiseStatus) : bool :=
  match s with Pending => true | Fulfilled _ => false end.

Lemma filter_pending_nil (l : list PromiseStatus) :
  (forall q, nth_error l q <> Some Pending) -> filter isPendingStatus l = [].
Proof.
  induction l as [|s l IH]; intro H; [reflexivity|].
  cbn [filter]. destruct s.
  - now elim (H O).
  - cbn [isPendingStatus]. apply IH. intro q. exact (H (S q)).
Qed.

Lemma pendingCount_bound st : cachedIfPending st -> (pendingCount st <= 1)%nat.
Proof.
  unfold cachedIfPending, pendingCount, isPending, statusOf.
  change (fun s => match s with Pending => true | Fulfilled _ => false end)
    with isPendingStatus.
  generalize (modelCatalogPromise st) as c.
  induction (promises st) as [|s l IH]; intros c H; [simpl; lia|].
  cbn [filter]. destruct s; cbn [isPendingStatus].
  - assert (Hc : c = Some O) by (apply (H O); reflexivity).
    rewrite filter_pending_nil; [simpl; lia|].
    intros q Hq. specialize (H (S q)). cbn [nth_error] in H.
    rewrite Hq in H. specialize (H eq_refl). congruence.
  - apply (IH (option_map pred c)). intros q Hq.
    specialize (H (S q) Hq). now rewrite H.
Qed.

Lemma warnings_step st (e : Event OpenClawConfig) :
  ((warnings st <= 1)%nat
   /\ (hasLoggedModelCatalogError st = false -> warnings st = O)) ->
  ((warnings (step localeCompare st e) <= 1)%nat
   /\ (hasLoggedModelCatalogError (step localeCompare st e) = false ->
       warnings (step localeCompare st e) = O)).
Proof.
  intros [Hle H0].
  assert (L : (warnings (logOnce st) <= 1)%nat
              /\ (hasLoggedModelCatalogError (logOnce st) = false ->
                  warnings (logOnce st) = O)).
  { unfold logOnce. destruct (hasLoggedModelCatalogError st) eqn:E.
    - now rewrite E.
    - cbn. rewrite (H0 eq_refl). split; [lia | discriminate]. }
  destruct e as [params loadConfig | p outcome]; cbn [ModelCatalog.step].
  - unfold loadModelCatalog.
    replace (warnings (if bypassesCache params then withCache None st else st))
      with (warnings st) in * by (destruct (bypassesCache params); reflexivity).
    destruct (bypassesCache params).
    + cbn [modelCatalogPromise withCache].
      destruct (configThrows params loadConfig);
        cbn [snd warnings withCache withPromises hasLoggedModelCatalogError];
        [|auto].
      unfold logOnce in *.
      cbn [hasLoggedModelCatalogError withCache warnings promises
           modelCatalogPromise] in *.
      destruct (hasLoggedModelCatalogError st); cbn in *; auto.
    + destruct (modelCatalogPromise st); [auto|].
      destruct (configThrows params loadConfig);
        cbn [snd warnings withCache withPromises hasLoggedModelCatalogError];
        auto.
  - unfold ModelCatalog.settle.
    destruct (isPending st p); cbn [negb]; [|auto].
    destruct outcome as [entries | processed].
    + destruct (collectModels entries);
        cbn [warnings withCache withPromises hasLoggedModelCatalogError]; auto.
    + cbv zeta.
      cbn [warnings withCache withPromises hasLoggedModelCatalogError]. auto.
Qed.

Lemma warnings_run (events : list (Event OpenClawConfig)) :
  (warnings (run localeCompare events initialState) <= 1)%nat.
Proof.
  assert (H : forall st,
             ((warnings st <= 1)%nat
              /\ (hasLoggedModelCatalogError st = false -> warnings st = O)) ->
             (warnings (run localeCompare events st) <= 1)%nat).
  { induction events as [|e events IH]; intros st Hst; [apply Hst|].
    cbn [ModelCatalog.run fold_left]. apply IH. now apply warnings_step. }
  apply H. simpl. split; [lia | reflexivity].
Qed.

(** Once a load has delivered entries and nothing is pending, calls that do
    not bypass the cache and late settlements leave the state as it is. *)
Lemma settled_state_stable st (later : list (Event OpenClawConfig)) :
  modelCatalogPromise st <> None ->
  (forall q, isPending st q = false) ->
  noBypass later = true ->
  run localeCompare later st = st.
Proof.
  intros Hc Hnone. induction later as [|e later IH]; intro Hb;
    [reflexivity|].
  cbn [noBypass forallb] in Hb. apply andb_prop in Hb as [He Hb].
  apply negb_true_iff in He.
  cbn [ModelCatalog.run fold_left].
  assert (E : step localeCompare st e = st).
  { destruct e as [params loadConfig | q outcome];
      cbn [ModelCatalog.step isBypass] in *.
    - destruct (modelCatalogPromise st) as [c|] eqn:Ec; [|congruence].
      now rewrite (load_cached _ _ _ _ He Ec).
    - apply settle_not_pending, Hnone. }
  rewrite E. now apply IH.
Qed.

Lemma run_snoc (events : list (Event OpenClawConfig)) e st :
  run localeCompare (events ++ [e]) st
  = step localeCompare (run localeCompare events st) e.
Proof. unfold ModelCatalog.run. now rewrite fold_left_app. Qed.

Lemma statusOf_settle st p outcome :
  isPending st p = true ->
  statusOf (settle localeCompare p outcome st) p
  = Some (Fulfilled (resolvedValue outcome)).
Proof.
  intro Hp. unfold statusOf. rewrite (settle_promises _ _ _ Hp).
  rewrite nth_error_setNth, Nat.eqb_refl.
  unfold isPending, statusOf in Hp.
  destruct (nth_error (promises st) p); [reflexivity | discriminate].
Qed.

Lemma discoveryRuns_settle st p outcome :
  discoveryRuns (settle localeCompare p outcome st) = discoveryRuns st.
Proof.
  destruct (isPending st p) eqn:Hp.
  - unfold discoveryRuns. rewrite (settle_promises _ _ _ Hp).
    apply length_setNth.
  - now rewrite (settle_not_pending _ _ _ Hp).
Qed.

(** C9 (amended): as long as no caller has bypassed the cache, a load that
    is issued without the bypass option while an earlier load is pending
    returns that same pending promise and starts nothing: the state is
    unchanged, and at most one load is ever pending.  Two calls in a row,
    the first on an empty cache and the second without the bypass option,
    share one promise: the first call creates the only new promise, which
    is pending, its discovery in progress, unless its configuration lookup
    threw, and the second call changes nothing.  A load issued with the
    bypass option does not share a promise that exists: it creates a
    promise of its own, which becomes the cached one and is pending, a
    discovery of its own in progress, unless its configuration lookup
    threw. *)
Theorem loadModelCatalog_single_flight
        (events : list (Event OpenClawConfig)) (p : PromiseId)
        (params : option (LoadParams OpenClawConfig))
        (loadConfig : option OpenClawConfig) :
  noBypass events = true ->
  bypassesCache params = false ->
  isPending (run localeCompare events initialState) p = true ->
  let st := run localeCompare events initialState in
  loadModelCatalog params loadConfig st = (p, st)
  /\ (pendingCount st <= 1)%nat
  /\ (forall st0 (params1 : option (LoadParams OpenClawConfig)) loadConfig1,
         modelCatalogPromise st0 = None ->
         let first := loadModelCatalog params1 loadConfig1 st0 in
         let second := loadModelCatalog params loadConfig (snd first) in
         second = (fst first, snd first)
         /\ fst first = List.length (promises st0)
         /\ promises (snd first)
            = (promises st0
                 ++ [if configThrows params1 loadConfig1
                     then Fulfilled [] else Pending])%list
         /\ (configThrows params1 loadConfig1 = false ->
             isPending (snd second) (fst first) = true
             /\ discoveryRuns (snd second) = S (discoveryRuns st0)))
  /\ (forall st1 (paramsB : option (LoadParams OpenClawConfig)) loadConfigB,
         bypassesCache paramsB = true ->
         let own := loadModelCatalog paramsB loadConfigB st1 in
         fst own = List.length (promises st1)
         /\ statusOf st1 (fst own) = None
         /\ modelCatalogPromise (snd own) = Some (fst own)
         /\ promises (snd own)
            = (promises st1
                 ++ [if configThrows paramsB loadConfigB
                     then Fulfilled [] else Pending])%list
         /\ (configThrows paramsB loadConfigB = false ->
             isPending (snd own) (fst own) = true)).
Proof.
  intros Hev Hb Hp st.
  pose proof (cachedIfPending_run events initialState Hev
                cachedIfPending_initial) as Hinv.
  fold st in Hinv, Hp.
  split; [|split; [|split]].
  - apply load_cached; [exact Hb | now apply Hinv].
  - now apply pendingCount_bound.
  - intros st0 params1 loadConfig1 Hc first second.
    destruct (load_fresh params1 loadConfig1 st0 (or_intror Hc))
      as (Hfst & Hruns & Hcache & Hpend & _).
    fold first in Hfst, Hruns, Hcache, Hpend.
    assert (E2 : second = (fst first, snd first))
      by (subst second; now apply load_cached).
    split; [exact E2|]. split; [exact Hfst|].
    split; [apply load_fresh_promises; now right|].
    intro Ht. rewrite E2. cbn [fst snd].
    rewrite Hpend, Ht. split; [reflexivity | exact Hruns].
  - intros st1 paramsB loadConfigB HB own.
    destruct (load_fresh paramsB loadConfigB st1 (or_introl HB))
      as (Hfst & _ & Hcache & Hpend & _).
    fold own in Hfst, Hcache, Hpend.
    split; [exact Hfst|].
    split.
    { rewrite Hfst. unfold statusOf, discoveryRuns.
      apply nth_error_None. lia. }
    split; [exact Hcache|].
    split; [apply load_fresh_promises; now left|].
    intro Ht. now rewrite Hpend, Ht.
Qed.

(** The asynchronous failure path keeps the cache clean: when a suspended
    load fails, or discovery yields no usable entry, the promise resolves
    to the entries gathered before the failure (the empty list when there
    are none, and always for an empty discovery), at most one warning is
    ever written, the cache is reset, and the next call creates a new
    promise, which is pending unless its own configuration lookup throws.
    A load that delivers entries stays cached: while no caller bypasses the
    cache, every later call finds that promise and nothing runs again. *)
Theorem failed_load_is_not_cached
        (events : list (Event OpenClawConfig)) (p : PromiseId)
        (outcome : DiscoveryOutcome)
        (params : option (LoadParams OpenClawConfig))
        (loadConfig : option OpenClawConfig) :
  isPending (run localeCompare events initialState) p = true ->
  failedOrEmpty outcome = true ->
  let st := run localeCompare events initialState in
  let st' := settle localeCompare p outcome st in
  let next := loadModelCatalog params loadConfig st' in
  modelCatalogPromise st' = None
  /\ statusOf st' p = Some (Fulfilled (resolvedValue outcome))
  /\ (forall entries, outcome = Enumerated entries -> resolvedValue outcome = [])
  /\ (forall processed,
         outcome = Threw processed -> collectModels processed = [] ->
         resolvedValue outcome = [])
  /\ (warnings st' <= 1)%nat
  /\ fst next = discoveryRuns st'
  /\ discoveryRuns (snd next) = S (discoveryRuns st')
  /\ modelCatalogPromise (snd next) = Some (fst next)
  /\ (configThrows params loadConfig = false ->
      isPending (snd next) (fst next) = true)
  /\ (forall entries later,
         noBypass events = true -> noBypass later = true ->
         failedOrEmpty (Enumerated entries) = false ->
         let kept := settle localeCompare p (Enumerated entries) st in
         let st2 := run localeCompare later kept in
         modelCatalogPromise st2 = Some p
         /\ statusOf st2 p
            = Some (Fulfilled (sortModels localeCompare (collectModels entries)))
         /\ discoveryRuns st2 = discoveryRuns st).
Proof.
  intros Hp Hf st st' next.
  fold st in Hp.
  assert (Hc : modelCatalogPromise st' = None).
  { subst st'. rewrite (settle_cache _ _ _ Hp), Hf. reflexivity. }
  destruct (load_fresh params loadConfig st' (or_intror Hc))
    as (Hfst & Hruns & Hcache & Hpend & _).
  fold next in Hfst, Hruns, Hcache, Hpend.
  split; [exact Hc|].
  split; [now apply statusOf_settle|].
  split.
  { intros entries ->. cbn [failedOrEmpty resolvedValue] in *.
    destruct (collectModels entries); [reflexivity | discriminate]. }
  split.
  { intros processed -> E. cbn [resolvedValue]. now rewrite E. }
  split.
  { subst st' st.
    change (settle localeCompare p outcome (run localeCompare events initialState))
      with (step localeCompare (run localeCompare events initialState)
                 (@Settle OpenClawConfig p outcome)).
    rewrite <- run_snoc. apply warnings_run. }
  split; [exact Hfst|]. split; [exact Hruns|]. split; [exact Hcache|].
  split.
  { intro Ht. now rewrite Hpend, Ht. }
  intros entries later Hev Hlater Hkeep kept st2.
  pose proof (cachedIfPending_run events initialState Hev
                cachedIfPending_initial) as Hinv.
  fold st in Hinv.
  assert (Hck : modelCatalogPromise kept = Some p).
  { subst kept. rewrite (settle_cache _ _ _ Hp), Hkeep. now apply Hinv. }
  assert (Hstable : st2 = kept).
  { subst st2. apply settled_state_stable; [congruence | | exact Hlater].
    intro q. subst kept. rewrite (isPending_settle _ _ _ _ Hp).
    destruct (isPending st q) eqn:Hq; [|reflexivity].
    pose proof (Hinv q Hq) as E1. pose proof (Hinv p Hp) as E2.
    assert (q = p) as -> by congruence.
    now rewrite Nat.eqb_refl. }
  rewrite Hstable. split; [exact Hck|]. split.
  - subst kept. now rewrite (statusOf_settle _ _ _ Hp).
  - subst kept. apply discoveryRuns_settle.
Qed.

(** A failure before the first suspension takes another course: when the
    configuration lookup throws, the [catch] block resets the cache before
    the call has stored its promise, so the promise, already resolved to
    the empty list, is what the next calls get. *)
Remark synchronous_failure_stays_cached
       (params : option (LoadParams OpenClawConfig)) st :
  modelCatalogPromise st = None ->
  configThrows params None = true ->
  let first := loadModelCatalog params None st in
  statusOf (snd first) (fst first) = Some (Fulfilled [])
  /\ modelCatalogPromise (snd first) = Some (fst first)
  /\ forall loadConfig : option OpenClawConfig,
      loadModelCatalog None loadConfig (snd first) = (fst first, snd first).
Proof.
  intros Hc Ht first.
  destruct (load_fresh params None st (or_intror Hc))
    as (Hfst & _ & Hcache & Hpend & _).
  fold first in Hfst, Hcache, Hpend.
  split; [|split; [exact Hcache|]].
  - subst first. unfold loadModelCatalog, statusOf.
    replace (modelCatalogPromise
               (if bypassesCache params then withCache None st else st))
      with (@None PromiseId)
      by (destruct (bypassesCache params); [reflexivity | now rewrite Hc]).
    rewrite Ht.
    cbn [fst snd promises withCache withPromises].
    rewrite promises_logOnce, nth_error_snoc, Nat.eqb_refl. reflexivity.
  - intro loadConfig. now apply load_cached.
Qed.

End CatalogProperties.

(** *** The catalog on concrete events *)

Section CatalogExamples.

Import Models ModelCatalog.
Open Scope string_scope.
Open Scope Q_scope.

(** A locale in which all strings collate alike; the order of the catalog
    plays no part below. *)
Definition flatCompare (a b : string) : Q := 0.

Definition defaultLoad : Event unit := Call None (Some tt).

Definition goodEntry : DiscoveredModel :=
  {| d_id := Some "gpt-4.1"; d_name := Some "GPT-4.1";
     d_provider := Some "openai"; d_contextWindow := None;
     d_reasoning := None; d_input := None; d_cost := None;
     d_capabilities := None |}.

(** C9, as stated, fails: a load issued with [useCache: false] while the
    first load is still pending gets a new promise and starts discovery a
    second time. *)
Lemma single_flight_counterexample :
  let first := loadModelCatalog None (Some tt) initialState in
  let second :=
    loadModelCatalog (Some {| param_config := None; useCache := Some false |})
                     (Some tt) (snd first) in
  isPending (snd first) (fst first) = true
  /\ isPending (snd second) (fst first) = true
  /\ fst second <> fst first
  /\ discoveryRuns (snd second) = 2%nat.
Proof.
  cbv. split; [reflexivity|]. split; [reflexivity|].
  split; [discriminate | reflexivity].
Qed.

Lemma loadModelCatalog_single_flight_witness :
  loadModelCatalog None (Some tt) (run flatCompare [defaultLoad] initialState)
  = (O, run flatCompare [defaultLoad] initialState).
Proof.
  refine (proj1 (loadModelCatalog_single_flight unit flatCompare
                   [defaultLoad] O None (Some tt) _ _ _)); reflexivity.
Defined.

(** A load that throws after one entry has been read resolves to that
    entry, not to the empty list. *)
Lemma failed_load_counterexample :
  let st := run flatCompare [defaultLoad] initialState in
  let st' := settle flatCompare O (Threw [goodEntry]) st in
  isPending st O = true
  /\ modelCatalogPromise st' = None
  /\ option_map
       (fun s => match s with
                 | Fulfilled v => map entry_id v
                 | Pending => []
                 end)
       (statusOf st' O) = Some ["gpt-4.1"]
  /\ statusOf st' O <> Some (Fulfilled []).
Proof.
  cbv zeta. split; [reflexivity|]. split; [reflexivity|].
  split; [reflexivity|]. vm_compute. discriminate.
Qed.

Lemma failed_load_is_not_cached_witness :
  modelCatalogPromise
    (settle flatCompare O (Threw [])
            (run flatCompare [defaultLoad] initialState)) = None.
Proof.
  refine (proj1 (failed_load_is_not_cached unit flatCompare
                   [defaultLoad] O (Threw []) None (Some tt) _ _));
    reflexivity.
Defined.

(** C8: the code does not keep what the claim says when the configuration
    lookup fails.  On a fresh module, a call that passes no configuration
    while [loadConfig] throws returns a promise resolved to the empty list
    and writes one warning, but that promise is stored in the cache: the
    next call, whose configuration can be read, gets the same promise and
    the same empty list, changes nothing and leaves no load pending, so
    discovery is not run again. *)
Theorem config_failure_is_cached :
  let failing : option (LoadParams unit) := None in
  let first := loadModelCatalog failing None initialState in
  let second := loadModelCatalog None (Some tt) (snd first) in
  configThrows failing None = true
  /\ statusOf (snd first) (fst first) = Some (Fulfilled [])
  /\ warnings (snd first) = 1%nat
  /\ modelCatalogPromise (snd first) = Some (fst first)
  /\ second = (fst first, snd first)
  /\ statusOf (snd second) (fst second) = Some (Fulfilled [])
  /\ pendingCount (snd second) = O
  /\ discoveryRuns (snd second) = discoveryRuns (snd first).
Proof.
  cbv zeta. repeat split; reflexivity.
Qed.

End CatalogExamples.

(** ** The repository's own test cases, replayed on the embedding *)

Section RepositoryTests.

Import TaskClassifier Models ModelScorer TaskRouter.
Open Scope string_scope.
Open Scope Q_scope.

Definition declared (id name providerId : string) (caps : ModelCapabilities)
  : ModelCatalogEntry :=
  {| entry_id := id; entry_name := name; entry_provider := providerId;
     entry_contextWindow := Some (cap_contextWindow caps);
     entry_reasoning := Some (supportsReasoning caps);
     entry_input := None; entry_cost := None;
     entry_capabilities := Some caps |}.

Definition profile (types : list TaskType) (mc : TaskComplexity)
           (sv sr : bool) (cw : Q) (tier : ModelCostTier) : ModelCapabilities :=
  {| taskTypes := types; maxComplexity := mc; supportsVision := sv;
     supportsReasoning := sr; cap_contextWindow := cw; costTier := tier |}.

(** [createTestCatalog] of task-router.test.ts. *)
Definition createTestCatalog : list ModelCatalogEntry :=
  [ declared "llama3.2" "Llama 3.2" "ollama"
      (profile [coding; chat; general] moderate false false 128000 free);
    declared "qwen2.5-coder" "Qwen 2.5 Coder" "ollama"
      (profile [coding] complex false false 32000 free);
    declared "claude-sonnet-4-20250514" "Claude Sonnet 4" "anthropic"
      (profile [coding; reasoning; analysis; chat; vision; general]
               complex true true 200000 medium);
    declared "gpt-4o" "GPT-4o" "openai"
      (profile [coding; analysis; chat; vision; general]
               complex true false 128000 medium);
    declared "o1" "o1" "openai"
      (profile [reasoning; coding; analysis] complex false true 200000 high) ].

(** [allModels] of model-scorer.test.ts. *)
Definition allModels : list ModelCatalogEntry :=
  [ declared "codellama:7b" "Code Llama 7B" "ollama"
      (profile [coding; general; chat] moderate false false 128000 free);
    declared "llama3:8b" "Llama 3 8B" "ollama"
      (profile [general; chat] simple false false 8000 free);
    declared "claude-3-opus" "Claude 3 Opus" "anthropic"
      (profile [coding; reasoning; analysis; general; chat; vision]
               complex true true 200000 high);
    declared "gpt-4-vision" "GPT-4 Vision" "openai"
      (profile [vision; general; chat; analysis]
               moderate true false 128000 medium);
    declared "gpt-3.5-turbo" "GPT-3.5 Turbo" "openai"
      (profile [general; chat; coding] moderate false false 32000 low) ].

Definition simpleCodingTask : TaskClassification :=
  {| type := coding; complexity := simple; requiresVision := false;
     estimatedContextTokens := None; requiresReasoning := false;
     confidence := 0.9 |}.

Definition complexReasoningTask : TaskClassification :=
  {| type := reasoning; complexity := complex; requiresVision := false;
     estimatedContextTokens := None; requiresReasoning := true;
     confidence := 0.85 |}.

Definition enabledBalanced : ModelRoutingConfig :=
  {| cfg_enabled := Some true; cfg_strategy := Some balanced;
     cfg_preferLocal := None; cfg_localProviders := None;
     cfg_cloudProviders := None; cfg_taskRules := None;
     cfg_scoringWeights := None; cfg_fallbackBehavior := None |}.

Definition plainOptions (text : string) : TaskRoutingOptions :=
  {| prompt := text; hasImages := false; hints := None;
     overrideModel := None; allowedProviders := None |}.

Definition summary (c : TaskClassification)
  : TaskType * TaskComplexity * bool * bool :=
  (type c, complexity c, requiresReasoning c, requiresVision c).

Example classify_debug :
  summary (classifyTask "Debug this TypeScript function" false None)
  = (coding, simple, false, false).
Proof. vm_compute. reflexivity. Qed.

Example classify_proof :
  summary
    (classifyTask
       "Analyze this complex mathematical proof step by step and explain the reasoning"
       false None)
  = (reasoning, complex, true, false).
Proof. vm_compute. reflexivity. Qed.

Example classify_image :
  summary (classifyTask "What is in this image?" true None)
  = (vision, simple, false, true).
Proof. vm_compute. reflexivity. Qed.

Example classify_hints :
  summary
    (classifyTask "Hello" false
       (Some {| hint_taskType := Some reasoning;
                hint_complexity := Some complex;
                hint_requiresVision := None;
                hint_requiresReasoning := None |}))
  = (reasoning, complex, true, false).
Proof. vm_compute. reflexivity. Qed.

Example rank_simple_coding :
  map model (rankModels allModels simpleCodingTask None)
  = ["codellama:7b"; "gpt-3.5-turbo"; "llama3:8b"; "claude-3-opus";
     "gpt-4-vision"].
Proof. vm_compute. reflexivity. Qed.

Example rank_complex_reasoning :
  option_map model (hd_error (rankModels allModels complexReasoningTask None))
  = Some "claude-3-opus".
Proof. vm_compute. reflexivity. Qed.

Example route_disabled :
  selectModelForTask
    (newRouter {| cfg_enabled := Some false; cfg_strategy := None;
                  cfg_preferLocal := None; cfg_localProviders := None;
                  cfg_cloudProviders := None; cfg_taskRules := None;
                  cfg_scoringWeights := None; cfg_fallbackBehavior := None |}
               createTestCatalog)
    (plainOptions "Fix the bug") = None.
Proof. reflexivity. Qed.

Example route_empty_catalog :
  selectModelForTask (newRouter enabledBalanced []) (plainOptions "Fix the bug")
  = None.
Proof. vm_compute. reflexivity. Qed.

Example route_allowed_providers :
  option_map primary
    (selectModelForTask (newRouter enabledBalanced createTestCatalog)
       {| prompt := "Fix the bug"; hasImages := false; hints := None;
          overrideModel := None; allowedProviders := Some ["openai"] |})
  = Some {| ref_provider := "openai"; ref_model := "gpt-4o" |}.
Proof. vm_compute. reflexivity. Qed.

Example route_override_without_provider :
  option_map primary
    (selectModelForTask (newRouter enabledBalanced createTestCatalog)
       {| prompt := "Fix the bug"; hasImages := false; hints := None;
          overrideModel := Some "claude-sonnet-4-20250514";
          allowedProviders := None |})
  = Some {| ref_provider := "anthropic";
            ref_model := "claude-sonnet-4-20250514" |}.
Proof. vm_compute. reflexivity. Qed.

Example route_fallbacks :
  option_map (fun res => (primary res, fallbacks res))
    (selectModelForTask (newRouter enabledBalanced createTestCatalog)
                        (plainOptions "Fix the bug"))
  = Some ({| ref_provider := "ollama"; ref_model := "llama3.2" |},
          Some [ {| ref_provider := "ollama"; ref_model := "qwen2.5-coder" |};
                 {| ref_provider := "anthropic";
                    ref_model := "claude-sonnet-4-20250514" |};
                 {| ref_provider := "openai"; ref_model := "gpt-4o" |} ]).
Proof. vm_compute. reflexivity. Qed.

End RepositoryTests.

(* ================================================================== *)
(** * Further properties of the code *)
(* ================================================================== *)

(** ** Strings: trimming and case *)

Section TrimFacts.

Open Scope string_scope.

Lemma chars_str l : Js.chars (Js.str l) = l.
Proof. apply list_ascii_of_string_of_list_ascii. Qed.

Lemma str_chars s : Js.str (Js.chars s) = s.
Proof. apply string_of_list_ascii_of_string. Qed.

Lemma chars_app a b : Js.chars (a ++ b) = (Js.chars a ++ Js.chars b)%list.
Proof.
  induction a as [|c a IH]; [reflexivity|].
  change (Js.chars (String c (a ++ b)) = c :: (Js.chars a ++ Js.chars b)%list).
  unfold Js.chars in *. simpl. now rewrite IH.
Qed.

(** The list is empty or starts with a character that is not white space. *)
Definition headKept (l : list ascii) : Prop :=
  match l with
  | [] => True
  | c :: _ => Js.isWhiteSpace c = false
  end.

Lemma dropWhile_headKept l : headKept (Js.dropWhile Js.isWhiteSpace l).
Proof.
  induction l as [|c l IH]; simpl; [exact I|].
  destruct (Js.isWhiteSpace c) eqn:E; [exact IH | exact E].
Qed.

Lemma dropWhile_fixed l :
  headKept l -> Js.dropWhile Js.isWhiteSpace l = l.
Proof. destruct l as [|c l]; simpl; [reflexivity|]. now intros ->. Qed.

Lemma dropWhile_suffix l :
  exists k, l = (k ++ Js.dropWhile Js.isWhiteSpace l)%list.
Proof.
  induction l as [|c l [k IH]]; simpl.
  - now exists [].
  - destruct (Js.isWhiteSpace c).
    + exists (c :: k). simpl. now rewrite <- IH.
    + now exists [].
Qed.

Lemma headKept_prefix (a b : list ascii) :
  headKept (a ++ b)%list -> headKept a.
Proof. destruct a; simpl; auto. Qed.

Lemma trimChars_fixed l :
  headKept l -> headKept (rev l) -> Js.trimChars l = l.
Proof.
  intros H1 H2. unfold Js.trimChars.
  rewrite (dropWhile_fixed l H1), (dropWhile_fixed (rev l) H2).
  apply rev_involutive.
Qed.

Lemma trimChars_edges l :
  headKept (Js.trimChars l) /\ headKept (rev (Js.trimChars l)).
Proof.
  unfold Js.trimChars. split.
  - set (d := Js.dropWhile Js.isWhiteSpace l).
    destruct (dropWhile_suffix (rev d)) as [k Hk].
    apply (f_equal (@rev ascii)) in Hk.
    rewrite rev_involutive, rev_app_distr in Hk.
    apply headKept_prefix with (b := rev k). rewrite <- Hk.
    apply dropWhile_headKept.
  - rewrite rev_involutive. apply dropWhile_headKept.
Qed.

Lemma trimChars_idempotent l : Js.trimChars (Js.trimChars l) = Js.trimChars l.
Proof. apply trimChars_fixed; apply trimChars_edges. Qed.

Lemma trim_idempotent s : Js.trim (Js.trim s) = Js.trim s.
Proof.
  unfold Js.trim. now rewrite chars_str, trimChars_idempotent.
Qed.

Lemma trim_fixed_edges s :
  Js.trim s = s -> headKept (Js.chars s) /\ headKept (rev (Js.chars s)).
Proof.
  intro H. apply (f_equal Js.chars) in H. unfold Js.trim in H.
  rewrite chars_str in H. rewrite <- H. apply trimChars_edges.
Qed.

Lemma isWhiteSpace_lowerChar c :
  Js.isWhiteSpace (Js.lowerChar c) = Js.isWhiteSpace c.
Proof.
  destruct c as [[] [] [] [] [] [] [] []]; vm_compute; reflexivity.
Qed.

Lemma dropWhile_lower l :
  Js.dropWhile Js.isWhiteSpace (map Js.lowerChar l)
  = map Js.lowerChar (Js.dropWhile Js.isWhiteSpace l).
Proof.
  induction l as [|c l IH]; simpl; [reflexivity|].
  rewrite isWhiteSpace_lowerChar.
  destruct (Js.isWhiteSpace c); [exact IH | reflexivity].
Qed.

Lemma trim_toLowerCase s :
  Js.trim (Js.toLowerCase s) = Js.toLowerCase (Js.trim s).
Proof.
  unfold Js.trim, Js.toLowerCase, Js.trimChars. rewrite !chars_str.
  now rewrite dropWhile_lower, <- map_rev, dropWhile_lower, map_rev.
Qed.

Lemma indexOfChars_app c a b :
  Js.indexOfChars c a = None ->
  Js.indexOfChars c (a ++ c :: b)%list = Some (List.length a).
Proof.
  induction a as [|x a IH]; simpl.
  - now rewrite Ascii.eqb_refl.
  - destruct (Ascii.eqb x c); [discriminate|].
    destruct (Js.indexOfChars c a); [discriminate|].
    intros _. now rewrite IH.
Qed.

Lemma indexOfChars_firstn c l i :
  Js.indexOfChars c l = Some i ->
  Js.indexOfChars c (firstn i l) = None.
Proof.
  revert i. induction l as [|x l IH]; intros i; simpl; [discriminate|].
  destruct (Ascii.eqb x c) eqn:E.
  - intro H. injection H as <-. reflexivity.
  - destruct (Js.indexOfChars c l) as [j|] eqn:Ej; [|discriminate].
    intro H. injection H as <-. simpl. rewrite E.
    now rewrite (IH j eq_refl).
Qed.

Lemma indexOfChars_dropped c l :
  Js.indexOfChars c l = None ->
  forall k, (exists p, l = (p ++ k)%list) -> Js.indexOfChars c k = None.
Proof.
  intros H k [p ->]. induction p as [|x p IH]; [exact H|].
  simpl in H. destruct (Ascii.eqb x c); [discriminate|].
  destruct (Js.indexOfChars c (p ++ k)); [discriminate | now apply IH].
Qed.

Lemma indexOfChars_prefix c a b :
  Js.indexOfChars c (a ++ b)%list = None -> Js.indexOfChars c a = None.
Proof.
  induction a as [|x a IH]; simpl; [reflexivity|].
  destruct (Ascii.eqb x c); [discriminate|].
  destruct (Js.indexOfChars c (a ++ b)); [discriminate|].
  intros _. now rewrite IH.
Qed.

End TrimFacts.

(** ** Override references *)

Section OverrideProperties.

Import Models TaskRouter.
Open Scope string_scope.

(** X1: a reference rendered as [provider/model] is read back by
    [parseOverrideModelRef] as the same provider and model, provided that
    neither carries surrounding white space and the provider holds no
    slash. *)
Theorem parseOverrideModelRef_refKey (provider model : string) :
  Js.trim provider = provider ->
  Js.trim model = model ->
  Js.indexOf "/" provider = None ->
  parseOverrideModelRef (refKey provider model)
  = {| ref_provider := provider; ref_model := model |}.
Proof.
  intros Hp Hm Hs.
  destruct (trim_fixed_edges provider Hp) as [Hp1 Hp2].
  destruct (trim_fixed_edges model Hm) as [Hm1 Hm2].
  assert (Ec : Js.chars (refKey provider model)
               = (Js.chars provider ++ "/"%char :: Js.chars model)%list).
  { unfold refKey. now rewrite !chars_app. }
  assert (Et : Js.trim (refKey provider model) = refKey provider model).
  { unfold Js.trim. rewrite Ec, trimChars_fixed.
    - rewrite <- Ec. apply str_chars.
    - destruct (Js.chars provider); [reflexivity | exact Hp1].
    - rewrite rev_app_distr. simpl. rewrite <- app_assoc.
      destruct (rev (Js.chars model)); [reflexivity | exact Hm2]. }
  unfold parseOverrideModelRef. rewrite Et.
  unfold Js.indexOf. rewrite Ec.
  rewrite (indexOfChars_app _ _ _ Hs).
  unfold Js.sliceTo, Js.sliceFrom. rewrite Ec.
  rewrite firstn_app, Nat.sub_diag, firstn_all. cbn [firstn].
  rewrite app_nil_r, str_chars, Hp.
  replace (List.length (Js.chars provider) + 1)%nat
    with (List.length (Js.chars provider ++ ["/"%char])%list)
    by (rewrite length_app; reflexivity).
  replace (Js.chars provider ++ "/"%char :: Js.chars model)%list
    with ((Js.chars provider ++ ["/"%char]) ++ Js.chars model)%list
    by (now rewrite <- app_assoc).
  rewrite skipn_app, Nat.sub_diag, skipn_all. cbn [skipn app].
  now rewrite str_chars, Hm.
Qed.

Lemma parseOverrideModelRef_refKey_witness :
  parseOverrideModelRef (refKey "openrouter" "meta/llama-3")
  = {| ref_provider := "openrouter"; ref_model := "meta/llama-3" |}.
Proof.
  apply parseOverrideModelRef_refKey; reflexivity.
Defined.

(** X2: whatever the override string, the parsed provider and model carry
    no surrounding white space and the provider holds no slash: the string
    is split at its first slash. *)
Theorem parseOverrideModelRef_normal_form (overrideModel : string) :
  let r := parseOverrideModelRef overrideModel in
  Js.trim (ref_provider r) = ref_provider r
  /\ Js.trim (ref_model r) = ref_model r
  /\ Js.indexOf "/" (ref_provider r) = None.
Proof.
  unfold parseOverrideModelRef.
  destruct (Js.indexOf "/" (Js.trim overrideModel)) as [i|] eqn:E;
    cbn [ref_provider ref_model].
  - split; [apply trim_idempotent|]. split; [apply trim_idempotent|].
    unfold Js.indexOf, Js.trim, Js.sliceTo in *. rewrite !chars_str in *.
    set (l := Js.trimChars (Js.chars overrideModel)) in *.
    pose proof (indexOfChars_firstn _ _ _ E) as Hf.
    unfold Js.trimChars.
    set (f := firstn i l) in *.
    set (d := Js.dropWhile Js.isWhiteSpace f).
    assert (Hd : Js.indexOfChars "/" d = None)
      by (apply (indexOfChars_dropped _ _ Hf); apply dropWhile_suffix).
    destruct (dropWhile_suffix (rev d)) as [k Hk].
    apply (f_equal (@rev ascii)) in Hk.
    rewrite rev_involutive, rev_app_distr in Hk.
    rewrite Hk in Hd. now apply indexOfChars_prefix in Hd.
  - split; [reflexivity|]. split; [apply trim_idempotent | reflexivity].
Qed.

End OverrideProperties.

(** ** Classification *)

Section ClassifierExtras.

Import TaskClassifier.
Open Scope string_scope.
Open Scope Q_scope.

(** Position of a task type in the key order of the score table. *)
Definition keyRank (t : TaskType) : nat :=
  match t with
  | coding => 0 | reasoning => 1 | chat => 2
  | vision => 3 | analysis => 4 | general => 5
  end.

(** Case split on the comparison of the running maximum with [v]. *)
Ltac caseLt v :=
  match goal with
  | |- context [(?x <? v)%nat] =>
      let E := fresh "E" in
      destruct (x <? v)%nat eqn:E;
      [apply Nat.ltb_lt in E | apply Nat.ltb_ge in E];
      cbn [fst snd] in *
  end.

Lemma pickMax_spec (score : TaskType -> nat) :
  score general = O ->
  let m := fst (pickMax score) in
  let d := snd (pickMax score) in
  m = score d
  /\ (forall t, (score t <= score d)%nat)
  /\ (forall t, d <> general -> (keyRank t < keyRank d)%nat ->
                 (score t < score d)%nat)
  /\ (d = general <-> forall t, score t = O).
Proof.
  intro Hg. unfold pickMax, scoreKeys. cbn [fold_left fst snd].
  rewrite Hg.
  remember (score coding) as a eqn:Ha.
  remember (score reasoning) as b eqn:Hb.
  remember (score chat) as c eqn:Hc.
  remember (score vision) as d eqn:Hd.
  remember (score analysis) as e eqn:He.
  assert (Hall : forall t, score t = match t with
                                     | coding => a | reasoning => b
                                     | chat => c | vision => d
                                     | analysis => e | general => O
                                     end)
    by (intros []; congruence).
  clear Ha Hb Hc Hd He Hg.
  cbn [fst snd].
  caseLt a; caseLt b; caseLt c; caseLt d; caseLt e; caseLt O;
    (split; [rewrite ?Hall; cbv beta iota; lia|]);
    (split; [intro t; rewrite !Hall; destruct t; cbv beta iota; lia|]);
    (split; [intros t Hd; rewrite !Hall; destruct t; cbn [keyRank];
             cbv beta iota; try lia; now elim Hd|]);
    (split;
     [ try discriminate; intros _ t; rewrite Hall; destruct t;
       cbv beta iota; lia
     | intro H0; try reflexivity; exfalso;
       pose proof (H0 coding) as P1; pose proof (H0 reasoning) as P2;
       pose proof (H0 chat) as P3; pose proof (H0 vision) as P4;
       pose proof (H0 analysis) as P5;
       rewrite Hall in P1, P2, P3, P4, P5; cbv beta iota in *; lia ]).
Qed.

Lemma scoreOf_general prompt hasImages :
  scoreOf prompt hasImages general = O.
Proof. reflexivity. Qed.

Lemma unhinted_type prompt hasImages h :
  hint_taskType (orElse h noHints) = None ->
  type (classifyTask prompt hasImages h)
  = snd (pickMax (scoreOf prompt hasImages)).
Proof.
  intro Hh. unfold classifyTask. rewrite Hh.
  destruct (pickMax _). reflexivity.
Qed.

Lemma classifyTask_highest
        (prompt : string) (hasImages : bool)
        (h : option TaskClassificationHints) :
  hint_taskType (orElse h noHints) = None ->
  let score := scoreOf prompt hasImages in
  let d := type (classifyTask prompt hasImages h) in
  (forall t, (score t <= score d)%nat)
  /\ (forall t, d <> general -> (keyRank t < keyRank d)%nat ->
                 (score t < score d)%nat)
  /\ (d = general <-> forall t, score t = O).
Proof.
  intros Hh score d. subst d. rewrite (unhinted_type _ _ _ Hh).
  destruct (pickMax_spec score (scoreOf_general prompt hasImages))
    as (_ & H1 & H2 & H3).
  auto.
Qed.

(** X3: without a hinted type, the detected type has the highest score of
    all task types; unless it is [general], every type earlier in the key
    order (coding, reasoning, chat, vision, analysis) has a strictly lower
    score; and the type is [general] exactly when no pattern matched and
    there is no image. *)
Theorem classifyTask_picks_highest
        (prompt : string) (hasImages : bool)
        (h : option TaskClassificationHints) :
  hint_taskType (orElse h noHints) = None ->
  let score := scoreOf prompt hasImages in
  let d := type (classifyTask prompt hasImages h) in
  (forall t, (score t <= score d)%nat)
  /\ (forall t, d <> general -> (keyRank t < keyRank d)%nat ->
                 (score t < score d)%nat)
  /\ (d = general <-> forall t, score t = O).
Proof. apply classifyTask_highest. Qed.

Lemma classifyTask_picks_highest_witness :
  type (classifyTask "Debug this function" false None) = general
  <-> forall t, scoreOf "Debug this function" false t = O.
Proof.
  refine (proj2 (proj2 (classifyTask_picks_highest
                          "Debug this function" false None _))).
  reflexivity.
Defined.

(** X4: when images are attached and no type is hinted, the task is
    classified as [vision] unless some other type matches at least three
    patterns more than [vision] does; it is never [general]. *)
Theorem classifyTask_images_vision
        (prompt : string) (h : option TaskClassificationHints) :
  hint_taskType (orElse h noHints) = None ->
  type (classifyTask prompt true h) <> general
  /\ ((forall t, t <> vision ->
                 (patternScore prompt t < 3 + patternScore prompt vision)%nat) ->
      type (classifyTask prompt true h) = vision).
Proof.
  intro Hh.
  destruct (classifyTask_highest prompt true h Hh) as (H1 & H2 & H3).
  cbv zeta in *.
  set (d := type (classifyTask prompt true h)) in *.
  assert (Hv : (3 <= scoreOf prompt true vision)%nat)
    by (unfold scoreOf; lia).
  split.
  - intro E. pose proof (proj1 H3 E vision). lia.
  - intro Hlt.
    destruct (TaskType_eqb d vision) eqn:Ed;
      [destruct d; try discriminate; reflexivity|].
    exfalso.
    assert (Hd : d <> vision) by (intros ->; discriminate).
    specialize (Hlt d Hd). specialize (H1 vision).
    assert (scoreOf prompt true d = patternScore prompt d)
      by (unfold scoreOf; destruct d; try reflexivity; congruence).
    unfold scoreOf in H1 at 1. lia.
Qed.

Lemma classifyTask_images_vision_witness :
  type (classifyTask "Fix the bug" true None) <> general.
Proof.
  refine (proj1 (classifyTask_images_vision "Fix the bug" None _)).
  reflexivity.
Defined.

Lemma totalScore_bounds (score : TaskType -> nat) :
  (fst (pickMax score) <= totalScore score)%nat
  /\ ((0 < totalScore score)%nat -> (0 < fst (pickMax score))%nat).
Proof.
  unfold pickMax, totalScore, scoreKeys. cbn [fold_left fst].
  generalize (score coding) (score reasoning) (score chat)
             (score vision) (score analysis) (score general).
  intros a b c d e f.
  caseLt a; caseLt b; caseLt c; caseLt d; caseLt e; caseLt f; lia.
Qed.

(** X5: the confidence of every classification lies in (0.3, 1]: it is 1
    with a hinted type, 0.5 when nothing matched, and otherwise the share
    of the winning type plus 0.3, capped at 1. *)
Theorem classifyTask_confidence_range
        (prompt : string) (hasImages : bool)
        (h : option TaskClassificationHints) :
  0.3 < confidence (classifyTask prompt hasImages h)
  /\ confidence (classifyTask prompt hasImages h) <= 1.
Proof.
  unfold classifyTask.
  destruct (hint_taskType (orElse h noHints)); [split; reflexivity || discriminate|].
  pose proof (totalScore_bounds (scoreOf prompt hasImages)) as [Hle Hpos].
  destruct (pickMax (scoreOf prompt hasImages)) as [m d].
  cbn [fst confidence] in *.
  destruct (0 <? totalScore (scoreOf prompt hasImages))%nat eqn:E;
    [|split; reflexivity || discriminate].
  apply Nat.ltb_lt in E. specialize (Hpos E).
  set (tot := totalScore (scoreOf prompt hasImages)) in *.
  assert (Hm : 0 < Js.ofNat m).
  { unfold Js.ofNat. change 0 with (inject_Z 0). rewrite <- Zlt_Qlt. lia. }
  assert (Ht : 0 < Js.ofNat tot).
  { unfold Js.ofNat. change 0 with (inject_Z 0). rewrite <- Zlt_Qlt. lia. }
  assert (Hr : 0 < Js.ofNat m / Js.ofNat tot)
    by (apply Qlt_shift_div_l; lra).
  destruct (min_spec (Js.ofNat m / Js.ofNat tot + 0.3) 1) as [[? ->] | [? ->]];
    split; lra.
Qed.

End ClassifierExtras.

(** ** Capability profiles *)

Section CapabilityExtras.

Import TaskClassifier Models ModelCapabilities ModelScorer.
Open Scope string_scope.
Open Scope Q_scope.

Lemma inferred_shape m :
  entry_capabilities m = None ->
  exists sv sr sc cw,
    0 < cw
    /\ getModelCapabilities m
       = {| taskTypes := inferTaskTypes sv sr sc cw;
            maxComplexity := inferMaxComplexity cw sr;
            supportsVision := sv;
            supportsReasoning := sr;
            cap_contextWindow := cw;
            costTier := inferCostTier (entry_cost m) medium |}.
Proof.
  intro Hn. pose proof (inferred_contextWindow_pos m Hn) as Hpos.
  unfold getModelCapabilities, modelCatalogEntryToCapabilities.
  rewrite Hn. unfold inferModelCapabilities in *. rewrite Hn in *.
  cbv zeta in *. cbn [cap_contextWindow] in Hpos.
  do 4 eexists. split; [exact Hpos | reflexivity].
Qed.

Lemma geb_true x y : Js.geb x y = true <-> y <= x.
Proof. apply leb_true. Qed.

Lemma geb_false x y : Js.geb x y = false <-> x < y.
Proof. apply leb_false. Qed.

Lemma In_existsb_TaskType t l :
  In t l <-> existsb (TaskType_eqb t) l = true.
Proof.
  rewrite existsb_exists. split.
  - intro H. exists t. split; [exact H | now destruct t].
  - intros [x [H E]]. destruct t, x; try discriminate; exact H.
Qed.

Lemma inferTaskTypes_spec sv sr sc cw t :
  existsb (TaskType_eqb t) (inferTaskTypes sv sr sc cw)
  = match t with
    | general | chat => true
    | vision => sv
    | reasoning => sr
    | coding => sc
    | analysis => sr || Js.geb cw 32000
    end.
Proof.
  unfold inferTaskTypes.
  destruct sv, sr, sc, (Js.geb cw 32000), t; reflexivity.
Qed.

Lemma inferTaskTypes_NoDup sv sr sc cw : NoDup (inferTaskTypes sv sr sc cw).
Proof.
  unfold inferTaskTypes.
  destruct sv, sr, sc, (Js.geb cw 32000); cbn [orb app];
    repeat constructor; simpl; intuition discriminate.
Qed.

(** X6: a capability profile that is inferred, not declared, is coherent:
    its context window is positive; it always lists [general] and [chat];
    it lists [vision] and [reasoning] exactly when it supports them and
    [analysis] exactly when it supports reasoning or has a window of at
    least 32000; and its highest complexity is [complex] exactly when it
    supports reasoning or has a window of at least 100000, and [simple]
    exactly when it does neither and the window is below 32000. *)
Theorem inferred_profile_coherent (m : ModelCatalogEntry) :
  entry_capabilities m = None ->
  let c := getModelCapabilities m in
  0 < cap_contextWindow c
  /\ In general (taskTypes c) /\ In chat (taskTypes c)
  /\ (In vision (taskTypes c) <-> supportsVision c = true)
  /\ (In reasoning (taskTypes c) <-> supportsReasoning c = true)
  /\ (In analysis (taskTypes c) <->
      supportsReasoning c = true \/ 32000 <= cap_contextWindow c)
  /\ (maxComplexity c = complex <->
      supportsReasoning c = true \/ 100000 <= cap_contextWindow c)
  /\ (maxComplexity c = simple <->
      supportsReasoning c = false /\ cap_contextWindow c < 32000)
  /\ NoDup (taskTypes c).
Proof.
  intro Hn. destruct (inferred_shape m Hn) as (sv & sr & sc & cw & Hpos & ->).
  cbv zeta.
  cbn [taskTypes maxComplexity supportsVision supportsReasoning
       cap_contextWindow].
  rewrite !In_existsb_TaskType, !inferTaskTypes_spec.
  split; [exact Hpos|]. split; [reflexivity|]. split; [reflexivity|].
  split; [reflexivity|]. split; [reflexivity|].
  split; [now rewrite orb_true_iff, geb_true|].
  unfold inferMaxComplexity.
  destruct (Js.geb cw 32000) eqn:E32;
    [apply geb_true in E32 | apply geb_false in E32];
    (destruct (Js.geb cw 100000) eqn:E100;
     [apply geb_true in E100 | apply geb_false in E100]);
    destruct sr; cbn [orb];
    (split; [split; intro H;
             [ first [left; reflexivity | right; exact E100 | discriminate]
             | first [reflexivity
                     | destruct H as [H | H]; [discriminate | exfalso; lra]] ]
            |]);
    (split; [split; intro H;
             [ first [discriminate | split; [reflexivity | exact E32]]
             | first [reflexivity
                     | destruct H as [H1 H2];
                       first [discriminate | exfalso; lra]] ]
            |]);
    apply inferTaskTypes_NoDup.
Qed.

Definition reasoningByName : ModelCatalogEntry :=
  {| entry_id := "deepseek-r1:32k"; entry_name := "DeepSeek R1";
     entry_provider := "ollama"; entry_contextWindow := None;
     entry_reasoning := None; entry_input := None; entry_cost := None;
     entry_capabilities := None |}.

Lemma inferred_profile_coherent_witness :
  maxComplexity (getModelCapabilities reasoningByName) = complex.
Proof.
  apply (proj2 (proj1 (proj2 (proj2 (proj2 (proj2 (proj2 (proj2
           (inferred_profile_coherent reasoningByName eq_refl))))))))).
  left. vm_compute. reflexivity.
Defined.





End CapabilityExtras.

(** ** Scoring *)

Section ScorerExtras.

Import TaskClassifier Models ModelScorer.
Open Scope string_scope.
Open Scope Q_scope.

Lemma capability_full_iff a b c d e :
  a <= 0.3 -> b <= 0.25 -> c <= 0.2 -> d <= 0.15 -> e <= 0.1 ->
  ((if Js.gtb (0 + 0.3 + 0.25 + 0.2 + 0.15 + 0.1) 0
    then (0 + a + b + c + d + e) / (0 + 0.3 + 0.25 + 0.2 + 0.15 + 0.1)
    else 0) == 1
   <-> a == 0.3 /\ b == 0.25 /\ c == 0.2 /\ d == 0.15 /\ e == 0.1).
Proof.
  intros Ha Hb Hc Hd He.
  change (Js.gtb (0 + 0.3 + 0.25 + 0.2 + 0.15 + 0.1) 0) with true.
  cbv iota.
  assert (E : (0 + a + b + c + d + e) / (0 + 0.3 + 0.25 + 0.2 + 0.15 + 0.1)
              == a + b + c + d + e) by (field; discriminate).
  rewrite E. split.
  - intro H. repeat split; lra.
  - intros (? & ? & ? & ? & ?). lra.
Qed.

Lemma complexity_full (mc tc : TaskComplexity) :
  (if Js.geb (COMPLEXITY_LEVELS mc) (COMPLEXITY_LEVELS tc)
   then 0.25
   else 0.25 * (COMPLEXITY_LEVELS mc / COMPLEXITY_LEVELS tc)) <= 0.25
  /\ ((if Js.geb (COMPLEXITY_LEVELS mc) (COMPLEXITY_LEVELS tc)
       then 0.25
       else 0.25 * (COMPLEXITY_LEVELS mc / COMPLEXITY_LEVELS tc)) == 0.25
      <-> COMPLEXITY_LEVELS tc <= COMPLEXITY_LEVELS mc).
Proof.
  destruct mc, tc; vm_compute; split; try discriminate;
    split; intro H; try reflexivity; try discriminate;
    exfalso; apply H; reflexivity.
Qed.

Lemma context_full (cw : Q) (est : option Q) :
  match est with
  | Some est =>
      if Js.gtb est 0
      then if Js.geb (cw / est) 1 then 0.1 else 0.1 * (cw / est)
      else 0.1
  | None => 0.1
  end <= 0.1
  /\ (match est with
      | Some est =>
          if Js.gtb est 0
          then if Js.geb (cw / est) 1 then 0.1 else 0.1 * (cw / est)
          else 0.1
      | None => 0.1
      end == 0.1
      <-> forall x, est = Some x -> 0 < x -> x <= cw).
Proof.
  destruct est as [est|].
  2: { split; [lra|]. split; [discriminate | reflexivity]. }
  destruct (Js.gtb est 0) eqn:E.
  2: { apply ltb_false in E. split; [lra|].
       split; [|reflexivity]. intros _ x Hx H0. injection Hx as <-. lra. }
  apply ltb_true in E.
  destruct (Js.geb (cw / est) 1) eqn:E1.
  - apply geb_true in E1. split; [lra|]. split; [|reflexivity].
    intros _ x Hx _. injection Hx as <-.
    apply (Qmult_le_r _ _ est) in E1; [|exact E].
    assert (cw / est * est == cw) by (field; lra). lra.
  - apply geb_false in E1. split; [lra|]. split; [intro; lra|].
    intro H. specialize (H est eq_refl E). exfalso.
    assert (1 <= cw / est) by (apply Qle_shift_div_l; lra). lra.
Qed.

(** The entry can do everything the task asks for. *)
Definition fullyCapable (m : ModelCatalogEntry) (task : TaskClassification)
  : Prop :=
  let c := getModelCapabilities m in
  existsb (TaskType_eqb (type task)) (taskTypes c) = true
  /\ COMPLEXITY_LEVELS (complexity task) <= COMPLEXITY_LEVELS (maxComplexity c)
  /\ (requiresVision task = true -> supportsVision c = true)
  /\ (requiresReasoning task = true -> supportsReasoning c = true)
  /\ (forall est, estimatedContextTokens task = Some est -> 0 < est ->
                  est <= cap_contextWindow c).

(** X8: the capability score is 1 exactly when the entry lists the task's
    type, handles its complexity, supports vision and reasoning where the
    task requires them, and has a context window at least as large as the
    estimated tokens; any shortfall gives a score below 1. *)
Theorem scoreCapabilityMatch_full (m : ModelCatalogEntry)
        (task : TaskClassification) :
  (scoreCapabilityMatch m task == 1 <-> fullyCapable m task)
  /\ scoreCapabilityMatch m task <= 1.
Proof.
  unfold scoreCapabilityMatch, fullyCapable. cbv zeta.
  set (c := getModelCapabilities m).
  destruct (complexity_full (maxComplexity c) (complexity task)) as [Hb Eb].
  destruct (context_full (cap_contextWindow c) (estimatedContextTokens task))
    as [He Ee].
  assert (Ha : (if existsb (TaskType_eqb (type task)) (taskTypes c)
                then 0.3 else 0) <= 0.3)
    by (destruct (existsb _ _); lra).
  assert (Hc : (if requiresVision task
                then if supportsVision c then 0.2 else 0 else 0.2) <= 0.2)
    by (destruct (requiresVision task); [destruct (supportsVision c)|]; lra).
  assert (Hd : (if requiresReasoning task
                then if supportsReasoning c then 0.15 else 0.05
                else 0.15) <= 0.15)
    by (destruct (requiresReasoning task);
        [destruct (supportsReasoning c)|]; lra).
  split.
  - rewrite (capability_full_iff _ _ _ _ _ Ha Hb Hc Hd He).
    rewrite Eb, Ee.
    assert (Ea : (if existsb (TaskType_eqb (type task)) (taskTypes c)
                  then 0.3 else 0) == 0.3
                 <-> existsb (TaskType_eqb (type task)) (taskTypes c) = true).
    { destruct (existsb _ _); split; intro H;
        reflexivity || discriminate || (exfalso; lra). }
    assert (Ec : (if requiresVision task
                  then if supportsVision c then 0.2 else 0 else 0.2) == 0.2
                 <-> (requiresVision task = true -> supportsVision c = true)).
    { destruct (requiresVision task); [destruct (supportsVision c)|];
        split; intro H; try reflexivity; try discriminate;
        try (exfalso; lra); try (intro; reflexivity);
        specialize (H eq_refl); discriminate. }
    assert (Ed : (if requiresReasoning task
                  then if supportsReasoning c then 0.15 else 0.05
                  else 0.15) == 0.15
                 <-> (requiresReasoning task = true ->
                      supportsReasoning c = true)).
    { destruct (requiresReasoning task); [destruct (supportsReasoning c)|];
        split; intro H; try reflexivity; try discriminate;
        try (exfalso; lra); try (intro; reflexivity);
        specialize (H eq_refl); discriminate. }
    rewrite Ea, Ec, Ed. tauto.
  - change (Js.gtb (0 + 0.3 + 0.25 + 0.2 + 0.15 + 0.1) 0) with true.
    cbv iota. apply Qle_shift_div_r; [reflexivity | lra].
Qed.

(** X9: a larger context window and added reasoning support never lower
    the performance score. *)
Theorem scorePerformance_monotone (m1 m2 : ModelCatalogEntry)
        (task : TaskClassification) :
  cap_contextWindow (getModelCapabilities m1)
  <= cap_contextWindow (getModelCapabilities m2) ->
  (supportsReasoning (getModelCapabilities m1) = true ->
   supportsReasoning (getModelCapabilities m2) = true) ->
  scorePerformance m1 task <= scorePerformance m2 task.
Proof.
  intros Hcw Hsr. unfold scorePerformance. cbv zeta.
  set (w1 := cap_contextWindow (getModelCapabilities m1)) in *.
  set (w2 := cap_contextWindow (getModelCapabilities m2)) in *.
  assert (Hr : (if requiresReasoning task
                   || TaskComplexity_eqb (complexity task) complex
                then if supportsReasoning (getModelCapabilities m1)
                     then 0.4 else 0.1
                else 0.3)
               <= (if requiresReasoning task
                      || TaskComplexity_eqb (complexity task) complex
                   then if supportsReasoning (getModelCapabilities m2)
                        then 0.4 else 0.1
                   else 0.3)).
  { destruct (_ || _); [|lra].
    destruct (supportsReasoning (getModelCapabilities m1));
      [rewrite (Hsr eq_refl); lra|].
    destruct (supportsReasoning (getModelCapabilities m2)); lra. }
  assert (Hb : (if Js.geb w1 200000 then 0.6
                else if Js.geb w1 128000 then 0.5
                else if Js.geb w1 32000 then 0.4
                else if Js.geb w1 8000 then 0.2 else 0.1)
               <= (if Js.geb w2 200000 then 0.6
                   else if Js.geb w2 128000 then 0.5
                   else if Js.geb w2 32000 then 0.4
                   else if Js.geb w2 8000 then 0.2 else 0.1)).
  { repeat match goal with
           | |- context [Js.geb ?x ?y] =>
               let E := fresh "E" in
               destruct (Js.geb x y) eqn:E;
               [apply geb_true in E | apply geb_false in E]
           end; lra. }
  match goal with
  | |- Js.min ?x 1.0 <= Js.min ?y 1.0 =>
      destruct (min_spec x 1.0) as [[? ->] | [? ->]];
      destruct (min_spec y 1.0) as [[? ->] | [? ->]]; lra
  end.
Qed.

Lemma scorePerformance_monotone_witness :
  scorePerformance tinyModel codingTask <= scorePerformance bigModel codingTask.
Proof.
  apply scorePerformance_monotone; [discriminate | discriminate].
Defined.

Lemma normalizeWeights_fixed w :
  Qabs (weightSum w - 1) < 0.001 -> normalizeWeights w = w.
Proof.
  intro H.
  destruct (normalizeWeights_cases w)
    as [[E _] | [(_ & _ & ->) | (_ & Hge & _)]].
  - exfalso. apply Qabs_Qlt_condition in H. lra.
  - reflexivity.
  - exfalso. lra.
Qed.

Lemma normalizeWeights_near_unit w :
  Qabs (weightSum (normalizeWeights w) - 1) < 0.001.
Proof.
  destruct (normalizeWeights_cases w)
    as [[_ ->] | [(_ & Hlt & ->) | (Hn & _ & ->)]].
  - reflexivity.
  - exact Hlt.
  - rewrite (weightSum_rescaled w Hn). reflexivity.
Qed.

(** X10: normalising is idempotent, for every weight set, so weights that
    went through [normalizeWeights] once (in [mergeRoutingConfig] or
    [applyRoutingStrategy]) are used by [scoreModel] as they are, and
    scoring with normalised weights is scoring with the raw ones. *)
Theorem normalizeWeights_idempotent (w : ModelScoringWeights) :
  normalizeWeights (normalizeWeights w) = normalizeWeights w
  /\ (forall m task health,
         scoreModel m task (Some (normalizeWeights w)) health
         = scoreModel m task (Some w) health)
  /\ (forall models task,
         rankModels models task (Some (normalizeWeights w))
         = rankModels models task (Some w)).
Proof.
  assert (E : normalizeWeights (normalizeWeights w) = normalizeWeights w)
    by (apply normalizeWeights_fixed, normalizeWeights_near_unit).
  split; [exact E|].
  assert (Es : forall m task health,
             scoreModel m task (Some (normalizeWeights w)) health
             = scoreModel m task (Some w) health).
  { intros m task health. unfold scoreModel. cbn [orElse]. now rewrite E. }
  split; [exact Es|].
  intros models task. unfold rankModels.
  destruct models as [|m models]; [reflexivity|].
  f_equal. apply map_ext. intro x. apply Es.
Qed.

End ScorerExtras.

(** ** Filtering and best-model selection *)

Section FilterExtras.

Import TaskClassifier Models ModelScorer.
Open Scope string_scope.
Open Scope Q_scope.

(** What [filterModelsByCapabilities] asks of an entry. *)
Definition satisfies (requirements : ModelFilterRequirements)
           (m : ModelCatalogEntry) : Prop :=
  let c := getModelCapabilities m in
  (req_requiresVision requirements = Some true -> supportsVision c = true)
  /\ (req_requiresReasoning requirements = Some true ->
      supportsReasoning c = true)
  /\ (forall w, req_minContextWindow requirements = Some w ->
                w <= cap_contextWindow c)
  /\ (forall allowed,
         req_allowedProviders requirements = Some allowed -> allowed <> [] ->
         exists p, In p allowed
                   /\ Js.toLowerCase p = Js.toLowerCase (entry_provider m)).

Lemma isTrue_Some_true o : isTrue o = true <-> o = Some true.
Proof. destruct o as [[]|]; simpl; split; congruence. Qed.

Lemma required_iff (o : option bool) (b : bool) :
  isTrue o && negb b = false <-> (o = Some true -> b = true).
Proof.
  destruct o as [[]|], b; cbn; split; intro H;
    try reflexivity; try discriminate; try (intro; reflexivity);
    try (intro; discriminate); specialize (H eq_refl); discriminate.
Qed.

Lemma cascade_iff (a b c d : bool) :
  (if a then false else if b then false else if c then false else d) = true
  <-> a = false /\ b = false /\ c = false /\ d = true.
Proof. destruct a, b, c, d; split; intro H; try tauto; try discriminate;
         destruct H as (? & ? & ? & ?); discriminate. Qed.

Lemma meetsRequirements_iff requirements m :
  meetsRequirements requirements m = true <-> satisfies requirements m.
Proof.
  unfold meetsRequirements, satisfies. cbv zeta.
  set (c := getModelCapabilities m).
  rewrite cascade_iff, !required_iff.
  assert (Hc : match req_minContextWindow requirements with
               | Some w => Js.ltb (cap_contextWindow c) w
               | None => false
               end = false
               <-> forall w, req_minContextWindow requirements = Some w ->
                             w <= cap_contextWindow c).
  { destruct (req_minContextWindow requirements) as [w|].
    - rewrite ltb_false. split.
      + intros H x [= <-]. exact H.
      + intro H. now apply H.
    - split; [intros _ w; discriminate | reflexivity]. }
  assert (Hd : match req_allowedProviders requirements with
               | Some ((_ :: _) as allowedProviders) =>
                   existsb
                     (fun p => Js.streq (Js.toLowerCase p)
                                        (Js.toLowerCase (entry_provider m)))
                     allowedProviders
               | _ => true
               end = true
               <-> forall allowed,
                   req_allowedProviders requirements = Some allowed ->
                   allowed <> [] ->
                   exists p, In p allowed
                             /\ Js.toLowerCase p
                                = Js.toLowerCase (entry_provider m)).
  { destruct (req_allowedProviders requirements) as [[|a allowed]|].
    - split; [|reflexivity]. intros _ x [= <-] H. now elim H.
    - rewrite existsb_exists. split.
      + intros [p [Hp Ep]] x [= <-] _. exists p.
        split; [exact Hp | now apply streq_true].
      + intro H. destruct (H (a :: allowed) eq_refl) as [p [Hp Ep]];
          [discriminate|].
        exists p. split; [exact Hp | now apply streq_true].
    - split; [|reflexivity]. intros _ x; discriminate. }
  rewrite Hc, Hd. tauto.
Qed.

Lemma filterModels_In models requirements m :
  In m (filterModelsByCapabilities models requirements)
  <-> In m models /\ satisfies requirements m.
Proof.
  unfold filterModelsByCapabilities.
  now rewrite filter_In, meetsRequirements_iff.
Qed.

(** X11: [filterModelsByCapabilities] keeps, in their order, exactly the
    entries that satisfy every stated requirement: vision and reasoning
    support when required, a context window of at least the minimum, and a
    provider on a non-empty allow-list, compared without regard to case.
    Without any requirement the list is returned whole. *)
Theorem filterModelsByCapabilities_exact
        (models : list ModelCatalogEntry)
        (requirements : ModelFilterRequirements) :
  (forall m, In m (filterModelsByCapabilities models requirements)
             <-> In m models /\ satisfies requirements m)
  /\ (exists keep, filterModelsByCapabilities models requirements
                   = filter keep models)
  /\ filterModelsByCapabilities models
       {| req_requiresVision := None; req_requiresReasoning := None;
          req_minContextWindow := None; req_allowedProviders := None |}
     = models.
Proof.
  split; [|split].
  - intro m. apply filterModels_In.
  - now exists (meetsRequirements requirements).
  - unfold filterModelsByCapabilities.
    induction models as [|m models IH]; [reflexivity|].
    cbn [filter]. unfold meetsRequirements at 1. cbn. now rewrite IH.
Qed.

(** X12: [selectBestModelForTask] returns nothing exactly when the catalog
    is empty.  Otherwise the best score is the head of the ranking, the
    ranking is that of the entries meeting the task's vision and reasoning
    requirements when there is such an entry, and that of the whole catalog
    when there is none. *)
Theorem selectBestModelForTask_sound
        (catalog : list ModelCatalogEntry) (prompt : string)
        (hasImages : bool) (hints : option TaskClassificationHints)
        (weights : option ModelScoringWeights) :
  let task := classifyTask prompt hasImages hints in
  let capable := filterModelsByCapabilities catalog (taskRequirements task) in
  (selectBestModelForTask catalog prompt hasImages hints weights = None
   <-> catalog = [])
  /\ (forall res,
         selectBestModelForTask catalog prompt hasImages hints weights
         = Some res ->
         best_task res = task
         /\ hd_error (allRanked res) = Some (best_score res)
         /\ allRanked res
            = rankModels (match capable with [] => catalog | _ => capable end)
                         task weights
         /\ (capable <> [] ->
             Forall (fun s => exists m,
                         In m catalog
                         /\ satisfies (taskRequirements task) m
                         /\ s = scoreModel m task weights None)
                    (allRanked res))).
Proof.
  intros task capable.
  assert (Hcase : catalog = [] \/ catalog <> [])
    by (destruct catalog; [left; reflexivity | right; discriminate]).
  destruct Hcase as [-> | Hcat].
  { split; [split; reflexivity | discriminate]. }
  set (toRank := match capable with [] => catalog | _ => capable end).
  assert (Eq : selectBestModelForTask catalog prompt hasImages hints weights
               = match rankModels toRank task weights with
                 | [] => None
                 | top :: rest =>
                     Some {| best_score := top; best_task := task;
                             allRanked := top :: rest |}
                 end).
  { unfold selectBestModelForTask. destruct catalog; [congruence|].
    reflexivity. }
  rewrite Eq.
  assert (Hne : toRank <> []).
  { subst toRank. destruct capable; [exact Hcat | discriminate]. }
  pose proof (rankModels_nonempty toRank task weights Hne) as Hr.
  destruct (rankModels toRank task weights) as [|top rest] eqn:Er;
    [congruence|].
  split; [split; [discriminate | intro; congruence]|].
  intros res [= <-]. cbn [best_task allRanked best_score hd_error].
  split; [reflexivity|]. split; [reflexivity|]. split; [reflexivity|].
  intro Hc. rewrite <- Er.
  assert (Et : toRank = capable)
    by (subst toRank; destruct capable; [congruence | reflexivity]).
  rewrite Et. apply Forall_forall. intros s Hs.
  assert (Hin : In s (map (fun m => scoreModel m task weights None) capable)).
  { unfold rankModels in Hs. destruct capable as [|c0 cs]; [contradiction|].
    eapply Permutation_in; [apply toSorted_perm | exact Hs]. }
  apply in_map_iff in Hin as [m [Es Hm]].
  exists m. subst capable.
  apply filterModels_In in Hm as [Hm Hsat].
  auto.
Qed.

End FilterExtras.

(** ** Routing stages *)

Section RouterExtras.

Import TaskClassifier Models ModelScorer TaskRouter.
Open Scope string_scope.
Open Scope Q_scope.

(** What a matching rule demands of every entry that passes it. *)
Definition ruleHolds (task : TaskClassification) (rule : TaskRoutingRule)
           (m : ModelCatalogEntry) : Prop :=
  let c := getModelCapabilities m in
  (requiresVision task = true -> supportsVision c = true)
  /\ (orElse (requireReasoning rule) (requiresReasoning task) = true ->
      supportsReasoning c = true)
  /\ (forall w, minContextWindow rule = Some w -> w <= cap_contextWindow c)
  /\ (forall ex p, excludeProviders rule = Some ex -> In p ex ->
                   Js.toLowerCase p <> Js.toLowerCase (entry_provider m)).

Lemma inLowerSet_false names x :
  inLowerSet names x = false ->
  forall p, In p names -> Js.toLowerCase p <> x.
Proof.
  unfold inLowerSet, Js.includes. intros H p Hp E.
  assert (existsb (Js.streq x) (map Js.toLowerCase names) = true).
  { apply existsb_exists. exists (Js.toLowerCase p).
    split; [now apply in_map | now apply streq_true]. }
  congruence.
Qed.

Lemma preferred_subset (keep : ModelCatalogEntry -> bool) l m :
  In m (match filter keep l with [] => l | _ => filter keep l end) -> In m l.
Proof.
  destruct (filter keep l) eqn:E; [auto|].
  rewrite <- E. intro H. now apply filter_In in H.
Qed.

Lemma applyRule_sound task l rule m :
  In m (applyRule task l rule) -> In m l /\ ruleHolds task rule m.
Proof.
  unfold applyRule. cbv zeta. intro H.
  apply filterModels_In in H as [H Hsat].
  destruct Hsat as (Hv & Hr & Hw & _).
  cbn [req_requiresVision req_requiresReasoning req_minContextWindow] in *.
  assert (Hpm : forall l0,
             In m (match preferredModels rule with
                   | Some ((_ :: _) as pm) =>
                       match filter (fun e =>
                                       inLowerSet pm
                                         (Js.toLowerCase
                                            (refKey (entry_provider e)
                                                    (entry_id e)))) l0 with
                       | [] => l0
                       | _ :: _ =>
                           filter (fun e =>
                                     inLowerSet pm
                                       (Js.toLowerCase
                                          (refKey (entry_provider e)
                                                  (entry_id e)))) l0
                       end
                   | _ => l0
                   end) -> In m l0).
  { intros l0. destruct (preferredModels rule) as [[|x pm]|]; auto.
    apply preferred_subset. }
  apply Hpm in H.
  assert (Hpp : forall l0,
             In m (match preferredProviders rule with
                   | Some ((_ :: _) as pp) =>
                       match filter (fun e =>
                                       inLowerSet pp
                                         (Js.toLowerCase (entry_provider e)))
                                    l0 with
                       | [] => l0
                       | _ :: _ =>
                           filter (fun e =>
                                     inLowerSet pp
                                       (Js.toLowerCase (entry_provider e))) l0
                       end
                   | _ => l0
                   end) -> In m l0).
  { intros l0. destruct (preferredProviders rule) as [[|x pp]|]; auto.
    apply preferred_subset. }
  apply Hpp in H.
  assert (Hex : In m l
                /\ forall ex p, excludeProviders rule = Some ex -> In p ex ->
                                Js.toLowerCase p
                                <> Js.toLowerCase (entry_provider m)).
  { destruct (excludeProviders rule) as [[|x ex]|].
    - split; [exact H|]. intros ? p [= <-] [].
    - apply filter_In in H as [H Hn]. split; [exact H|].
      intros ? p [= <-] Hp. apply negb_true_iff in Hn.
      exact (inLowerSet_false _ _ Hn p Hp).
    - split; [exact H|]. intros; discriminate. }
  destruct Hex as [Hin Hex]. split; [exact Hin|].
  unfold ruleHolds. cbv zeta.
  split; [intro E; apply Hv; now rewrite E|].
  split; [intro E; apply Hr; now rewrite E|].
  split; [exact Hw | exact Hex].
Qed.

Lemma applyRules_sound task rs l m :
  In m (fold_left (applyRule task) rs l) ->
  In m l /\ forall r, In r rs -> ruleHolds task r m.
Proof.
  revert l. induction rs as [|r rs IH]; intros l H; cbn [fold_left] in H.
  - split; [exact H | intros r []].
  - apply IH in H as [H Hall].
    apply applyRule_sound in H as [H Hr].
    split; [exact H|]. intros r' [<- | Hr']; auto.
Qed.

Lemma applyTaskRules_subset rules catalog task m :
  In m (applyTaskRules rules catalog task) ->
  In m catalog
  /\ forall r, In r rules -> ruleMatches task r = true -> ruleHolds task r m.
Proof.
  unfold applyTaskRules. intro H.
  destruct rules as [|r0 rules0] eqn:Er; [split; [exact H | intros r []]|].
  rewrite <- Er in *. clear Er.
  destruct (filter (ruleMatches task) rules) as [|x matching] eqn:Ef.
  - split; [exact H|]. intros r Hr Hm.
    assert (In r (filter (ruleMatches task) rules))
      by (apply filter_In; auto).
    rewrite Ef in *. contradiction.
  - apply applyRules_sound in H as [H Hall]. split; [exact H|].
    intros r Hr Hm. apply Hall. rewrite <- Ef. apply filter_In. auto.
Qed.

(** X13: task rules only remove entries: every entry that [applyTaskRules]
    returns comes from the given catalog and passes every matching rule,
    that is, it supports vision when the task requires it, supports
    reasoning when the rule (or, if the rule is silent, the task) requires
    it, has the rule's minimum context window, and is from no provider the
    rule excludes, compared without regard to case.  Without a matching
    rule the catalog is returned unchanged. *)
Theorem applyTaskRules_sound (rules : list TaskRoutingRule)
        (catalog : list ModelCatalogEntry) (task : TaskClassification) :
  (forall m, In m (applyTaskRules rules catalog task) ->
             In m catalog
             /\ forall r, In r rules -> ruleMatches task r = true ->
                          ruleHolds task r m)
  /\ (filter (ruleMatches task) rules = [] ->
      applyTaskRules rules catalog task = catalog).
Proof.
  split; [intro m; apply applyTaskRules_subset|].
  intro E. unfold applyTaskRules. rewrite E. now destruct rules.
Qed.

(** *** Provider preference *)

Lemma boost_identity preferred (s : ModelScore) :
  scoreRef (if inLowerSet preferred (Js.toLowerCase (provider s))
            then withTotal s (Js.min (totalScore s * 1.1) 1.0)
            else s) = scoreRef s.
Proof. now destruct (inLowerSet _ _). Qed.

Lemma boostCompare_keep a b :
  Js.ltb 0 (boostCompare a b) = false -> totalScore b <= totalScore a.
Proof. unfold boostCompare. rewrite ltb_false. intro. lra. Qed.

Lemma boostCompare_swap a b :
  Js.ltb 0 (boostCompare a b) = true -> totalScore a <= totalScore b.
Proof. unfold boostCompare. rewrite ltb_true. intro. lra. Qed.

Lemma nonEmpty_true A (l : list A) : nonEmpty l = true <-> l <> [].
Proof. destruct l; simpl; split; congruence. Qed.

(** X14: at most one provider preference applies.  It is [cloud] only for
    a complex or reasoning task with a configured cloud provider, and
    [local] only for a simple task that needs no reasoning, with
    [preferLocal] set and a configured local provider.  With a preference
    the returned scores are those of the same models, fully sorted by
    non-increasing total score; without one the ranking is returned as it
    is. *)
Theorem applyProviderPreference_sound (cfg : RoutingConfig)
        (rankedScores : list ModelScore) (task : TaskClassification) :
  let res := applyProviderPreference cfg rankedScores task in
  (snd res = pref_cloud ->
   (complexity task = complex \/ requiresReasoning task = true)
   /\ cloudProviders cfg <> [])
  /\ (snd res = pref_local ->
      preferLocal cfg = true /\ complexity task = simple
      /\ requiresReasoning task = false /\ localProviders cfg <> [])
  /\ (snd res = pref_none -> fst res = rankedScores)
  /\ (snd res <> pref_none ->
      StronglySorted (fun a b => totalScore b <= totalScore a) (fst res))
  /\ Permutation (map scoreRef (fst res)) (map scoreRef rankedScores).
Proof.
  unfold applyProviderPreference. cbv zeta.
  set (cloud := TaskComplexity_eqb (complexity task) complex
                || requiresReasoning task).
  assert (Hcloud : cloud = true ->
                   complexity task = complex \/ requiresReasoning task = true).
  { subst cloud. rewrite orb_true_iff. intros [H | H]; [left | now right].
    now destruct (complexity task). }
  assert (Hsorted : forall preferred,
             StronglySorted (fun a b => totalScore b <= totalScore a)
               (Js.toSorted boostCompare
                  (map (fun score =>
                          if inLowerSet preferred
                                        (Js.toLowerCase (provider score))
                          then withTotal score
                                         (Js.min (totalScore score * 1.1) 1.0)
                          else score) rankedScores))).
  { intro preferred. apply Sorted_StronglySorted.
    - intros x y z Hxy Hyz. lra.
    - apply toSorted_Sorted; [apply boostCompare_keep|].
      intros x y H. now apply boostCompare_swap. }
  assert (Hperm : forall preferred,
             Permutation
               (map scoreRef
                  (Js.toSorted boostCompare
                     (map (fun score =>
                             if inLowerSet preferred
                                           (Js.toLowerCase (provider score))
                             then withTotal score
                                    (Js.min (totalScore score * 1.1) 1.0)
                             else score) rankedScores)))
               (map scoreRef rankedScores)).
  { intro preferred. rewrite (Permutation_map _ (toSorted_perm _ _ _)).
    rewrite map_map.
    erewrite map_ext; [reflexivity|]. intro s. apply boost_identity. }
  destruct (cloud && nonEmpty (cloudProviders cfg)) eqn:Ec.
  - apply andb_prop in Ec as [Ec1 Ec2]. apply nonEmpty_true in Ec2.
    cbn [fst snd].
    split; [auto|]. split; [discriminate|]. split; [discriminate|].
    split; [intros _; apply Hsorted | apply Hperm].
  - destruct (preferLocal cfg
              && TaskComplexity_eqb (complexity task) simple
              && negb cloud && nonEmpty (localProviders cfg)) eqn:El.
    + apply andb_prop in El as [El E4]. apply andb_prop in El as [El E3].
      apply andb_prop in El as [E1 E2]. apply nonEmpty_true in E4.
      apply negb_true_iff in E3. cbn [fst snd].
      split; [discriminate|].
      split.
      { intros _. split; [exact E1|].
        split; [now destruct (complexity task)|]. split; [|exact E4].
        subst cloud. now apply orb_false_iff in E3. }
      split; [discriminate|].
      split; [intros _; apply Hsorted | apply Hperm].
    + cbn [fst snd].
      split; [discriminate|]. split; [discriminate|].
      split; [reflexivity|]. split; [intro H; now elim H | reflexivity].
Qed.

(** *** Selection *)

Lemma applyProviderPreference_refs cfg ranked task :
  Permutation (map scoreRef (fst (applyProviderPreference cfg ranked task)))
              (map scoreRef ranked).
Proof.
  unfold applyProviderPreference. cbv zeta.
  destruct (snd _) as [preferred|]; cbn [fst]; [|reflexivity].
  rewrite (Permutation_map _ (toSorted_perm _ _ _)), map_map.
  erewrite map_ext; [reflexivity|]. intro s. apply boost_identity.
Qed.

Lemma rankModels_In models task weights s :
  In s (rankModels models task weights) ->
  exists m, In m models /\ s = scoreModel m task weights None.
Proof.
  unfold rankModels. intro H.
  assert (H' : In s (map (fun m => scoreModel m task weights None) models)).
  { destruct models as [|m0 models0] eqn:E; [contradiction|].
    rewrite <- E in *.
    eapply Permutation_in; [apply toSorted_perm | exact H]. }
  apply in_map_iff in H' as (m & <- & Hm). now exists m.
Qed.

Lemma allowedStage_subset catalog allowed m :
  In m (allowedStage catalog allowed) -> In m catalog.
Proof.
  unfold allowedStage. destruct allowed as [[|a allowed]|]; auto.
  destruct (filterModelsByCapabilities _ _) eqn:E; [auto|].
  rewrite <- E. intro H. now apply filterModels_In in H.
Qed.

Lemma ruleStage_subset r preRule task m :
  (forall x, In x preRule -> In x (catalog r)) ->
  In m (ruleStage r preRule task) -> In m (catalog r).
Proof.
  intros Hpre. unfold ruleStage.
  destruct (applyTaskRules _ _ _) eqn:E; [auto|].
  rewrite <- E. intro H. apply applyTaskRules_subset in H. apply Hpre, H.
Qed.

(** The reference of a catalog entry. *)
Definition entryRef (m : ModelCatalogEntry) : ModelRef :=
  {| ref_provider := entry_provider m; ref_model := entry_id m |}.

Lemma fallbackLoop_In key n ranked f :
  In f (fallbackLoop scoreRef key n ranked []) ->
  exists s, In s ranked /\ f = scoreRef s.
Proof.
  rewrite fallbackLoop_spec. cbn [app]. intro H.
  assert (Hsub : forall (l : list ModelRef) k x, In x (firstn k l) -> In x l).
  { induction l as [|y l IH]; intros [|k] x Hx; cbn in *; try contradiction.
    destruct Hx as [-> | Hx]; [now left | right; eauto]. }
  apply Hsub in H. apply in_map_iff in H as (s & <- & Hs).
  apply filter_In in Hs. exists s. now split.
Qed.

Lemma selectModelForTask_routed r options :
  isOverride (overrideModel options) = false ->
  enabled (config r) = true ->
  catalog r <> [] ->
  let task := classifyTask (prompt options) (hasImages options)
                           (hints options) in
  let ranked :=
    rankModels (ruleStage r (allowedStage (catalog r)
                                          (allowedProviders options)) task)
               task
               (Some (applyRoutingStrategy (strategy (config r))
                                           (scoringWeights (config r)))) in
  let final := fst (applyProviderPreference (config r) ranked task) in
  exists selected rest reasoning,
    final = selected :: rest
    /\ selectModelForTask r options
       = Some {| primary := scoreRef selected;
                 fallbacks := routerFallbackList final (scoreRef selected)
                                                 None;
                 decision :=
                   {| selectedScore := selected;
                      taskClassification := task;
                      allRankedScores := final;
                      decision_reasoning := reasoning |} |}.
Proof.
  intros Ho He Hc task ranked final.
  assert (Hr : ranked <> []).
  { apply rankModels_nonempty, ruleStage_nonempty, Hc. }
  assert (Hf : final <> []) by now apply applyProviderPreference_nonempty.
  unfold selectModelForTask. rewrite Ho, He. cbn [negb]. cbv zeta.
  subst final ranked task.
  destruct (rankModels _ _ _) as [|s0 ranked0]; [congruence|].
  cbv iota.
  destruct (applyProviderPreference _ _ _) as [fin preference].
  cbn [fst] in *.
  destruct fin as [|selected rest]; [congruence|].
  eexists selected, rest, _. split; reflexivity.
Qed.

Lemma selectModelForTask_facts (r : TaskBasedModelRouter)
        (options : TaskRoutingOptions) :
  isOverride (overrideModel options) = false ->
  (selectModelForTask r options = None
   <-> enabled (config r) = false \/ catalog r = [])
  /\ forall res, selectModelForTask r options = Some res ->
       taskClassification (decision res)
       = classifyTask (prompt options) (hasImages options) (hints options)
       /\ hd_error (allRankedScores (decision res))
          = Some (selectedScore (decision res))
       /\ primary res = scoreRef (selectedScore (decision res))
       /\ (forall s, In s (allRankedScores (decision res)) ->
                     exists m, In m (catalog r) /\ scoreRef s = entryRef m)
       /\ (exists m, In m (catalog r) /\ primary res = entryRef m)
       /\ (forall fs, fallbacks res = Some fs ->
             (List.length fs <= 3)%nat
             /\ forall f, In f fs ->
                          exists m, In m (catalog r) /\ f = entryRef m).
Proof.
  intro Ho.
  destruct (enabled (config r)) eqn:He.
  2:{ assert (E : selectModelForTask r options = None).
      { unfold selectModelForTask. now rewrite Ho, He. }
      split; [split; auto|]. intros res H. congruence. }
  assert (Hc : catalog r = [] \/ catalog r <> [])
    by (destruct (catalog r); [now left | right; discriminate]).
  destruct Hc as [Hc | Hc].
  { assert (E : selectModelForTask r options = None).
    { unfold selectModelForTask. rewrite Ho, He. cbn [negb]. cbv zeta.
      assert (Ea : forall a, allowedStage (catalog r) a = []).
      { intro a. rewrite Hc. now destruct a as [[|? ?]|]. }
      rewrite Ea.
      assert (Es : forall t, ruleStage r [] t = []).
      { intro t. unfold ruleStage. rewrite Hc.
        destruct (applyTaskRules _ _ _) eqn:E; [reflexivity|].
        assert (Hm : In m (applyTaskRules (taskRules (config r)) [] t))
          by (rewrite E; now left).
        apply applyTaskRules_subset in Hm. destruct Hm as [[] _]. }
      rewrite Es. reflexivity. }
    split; [split; auto|]. intros res H. congruence. }
  destruct (selectModelForTask_routed r options Ho He Hc)
    as (selected & rest & reasoning & Ef & E).
  cbv zeta in Ef.
  set (task := classifyTask (prompt options) (hasImages options)
                            (hints options)) in *.
  set (ranked := rankModels _ task _) in *.
  set (final := fst (applyProviderPreference (config r) ranked task)) in *.
  assert (Hin : forall s, In s final ->
                          exists m, In m (catalog r) /\ scoreRef s = entryRef m).
  { intros s Hs.
    assert (Hs' : In (scoreRef s) (map scoreRef ranked)).
    { apply (Permutation_in _
                 (applyProviderPreference_refs (config r) ranked task)).
      apply in_map. exact Hs. }
    apply in_map_iff in Hs' as (s' & Es' & Hs').
    apply rankModels_In in Hs' as (m & Hm & ->).
    exists m. split; [|now rewrite <- Es'].
    eapply ruleStage_subset; [|exact Hm].
    intro x. apply allowedStage_subset. }
  split.
  { rewrite E. split; [discriminate|]. intros [H | H]; congruence. }
  intros res Hres. rewrite E in Hres. injection Hres as <-.
  cbn [decision primary fallbacks taskClassification allRankedScores
       selectedScore].
  split; [reflexivity|]. split; [now rewrite Ef|]. split; [reflexivity|].
  split; [exact Hin|].
  split; [apply Hin; rewrite Ef; now left|].
  intros fs Hfs. unfold routerFallbackList in Hfs. cbn [orElse] in Hfs.
  assert (Efs : fs = fallbackLoop scoreRef (primaryKeyOf (scoreRef selected))
                                  3 final []).
  { destruct (fallbackLoop _ _ _ _ _); congruence. }
  split.
  - rewrite Efs, fallbackLoop_spec. cbn [app]. rewrite length_firstn. lia.
  - intros f Hf. rewrite Efs in Hf.
    apply fallbackLoop_In in Hf as (s & Hs & ->). now apply Hin.
Qed.

(** X15: without an override, [selectModelForTask] returns nothing exactly
    when routing is disabled or the catalog is empty.  A returned selection
    classifies the prompt with [classifyTask], its selected score is the
    head of the ranked scores, its primary is that score's model, and every
    ranked score, the primary and every fallback name an entry of the
    router's catalog; there are at most three fallbacks. *)
Theorem selectModelForTask_sound (r : TaskBasedModelRouter)
        (options : TaskRoutingOptions) :
  isOverride (overrideModel options) = false ->
  (selectModelForTask r options = None
   <-> enabled (config r) = false \/ catalog r = [])
  /\ forall res, selectModelForTask r options = Some res ->
       taskClassification (decision res)
       = classifyTask (prompt options) (hasImages options) (hints options)
       /\ hd_error (allRankedScores (decision res))
          = Some (selectedScore (decision res))
       /\ primary res = scoreRef (selectedScore (decision res))
       /\ (forall s, In s (allRankedScores (decision res)) ->
                     exists m, In m (catalog r) /\ scoreRef s = entryRef m)
       /\ (exists m, In m (catalog r) /\ primary res = entryRef m)
       /\ (forall fs, fallbacks res = Some fs ->
             (List.length fs <= 3)%nat
             /\ forall f, In f fs ->
                          exists m, In m (catalog r) /\ f = entryRef m).
Proof. apply selectModelForTask_facts. Qed.

Lemma selectModelForTask_sound_witness :
  isOverride (overrideModel openaiOnly) = false
  /\ (selectModelForTask ruledRouter openaiOnly = None
      <-> enabled (config ruledRouter) = false \/ catalog ruledRouter = []).
Proof.
  split; [reflexivity|].
  exact (proj1 (selectModelForTask_sound ruledRouter openaiOnly eq_refl)).
Defined.

(** *** Strategy weights *)

(** X16: for non-negative base weights, the weights that
    [applyRoutingStrategy] returns are non-negative and sum to 1 within
    0.001; under [cost_optimized] the cost weight is five times the
    performance weight, under [performance_optimized] the performance
    weight is five times the cost weight, and [balanced] only
    normalises. *)
Theorem applyRoutingStrategy_ratio (strategy : RoutingStrategy)
        (w : ModelScoringWeights) :
  nonNegativeWeights w ->
  let r := applyRoutingStrategy strategy w in
  nonNegativeWeights r
  /\ Qabs (weightSum r - 1) < 0.001
  /\ (strategy = cost_optimized ->
      0 < w_performance r /\ costEfficiency r == 5 * w_performance r)
  /\ (strategy = performance_optimized ->
      0 < costEfficiency r /\ w_performance r == 5 * costEfficiency r)
  /\ (strategy = balanced -> r = normalizeWeights w).
Proof.
  intros (Ha & Hb & Hc & Hd) r.
  assert (Hshape : forall x y,
             0 < x -> 0 < y ->
             let adjusted :=
               {| capabilityMatch := capabilityMatch w * 0.8;
                  costEfficiency := x; w_performance := y;
                  w_availability := w_availability w |} in
             nonNegativeWeights (normalizeWeights adjusted)
             /\ 0 < costEfficiency (normalizeWeights adjusted)
             /\ 0 < w_performance (normalizeWeights adjusted)
             /\ costEfficiency (normalizeWeights adjusted) * y
                == w_performance (normalizeWeights adjusted) * x).
  { intros x y Hx Hy adjusted.
    assert (Hn : nonNegativeWeights adjusted).
    { unfold nonNegativeWeights, adjusted. cbn. repeat split; lra. }
    split; [apply normalizeWeights_nonneg, Hn|].
    assert (Hs : 0 < weightSum adjusted)
      by (unfold weightSum, adjusted; cbn; lra).
    destruct (normalizeWeights_cases adjusted)
      as [[E _] | [(_ & _ & ->) | (Hne & _ & ->)]].
    - exfalso. lra.
    - unfold adjusted. cbn. split; [exact Hx|]. split; [exact Hy|]. lra.
    - cbn [costEfficiency w_performance].
      replace (costEfficiency adjusted) with x by reflexivity.
      replace (w_performance adjusted) with y by reflexivity.
      split; [|split].
      + apply Qlt_shift_div_l; lra.
      + apply Qlt_shift_div_l; lra.
      + field. exact Hne. }
  split.
  { subst r. destruct strategy; cbn [applyRoutingStrategy].
    - apply (Hshape 0.5 0.1); reflexivity.
    - apply (Hshape 0.1 0.5); reflexivity.
    - apply normalizeWeights_nonneg. unfold nonNegativeWeights. auto. }
  split.
  { subst r. destruct strategy; apply normalizeWeights_near_unit. }
  split; [|split].
  - intros ->. subst r. cbn [applyRoutingStrategy].
    destruct (Hshape 0.5 0.1) as (_ & H1 & H2 & H3); try reflexivity.
    cbv zeta in *. split; [exact H2|]. lra.
  - intros ->. subst r. cbn [applyRoutingStrategy].
    destruct (Hshape 0.1 0.5) as (_ & H1 & H2 & H3); try reflexivity.
    cbv zeta in *. split; [exact H1|]. lra.
  - intros ->. reflexivity.
Qed.

Lemma applyRoutingStrategy_ratio_witness :
  costEfficiency (applyRoutingStrategy cost_optimized DEFAULT_SCORING_WEIGHTS)
  == 5 * w_performance (applyRoutingStrategy cost_optimized
                                             DEFAULT_SCORING_WEIGHTS).
Proof.
  refine (proj2 (proj1 (proj2 (proj2
            (applyRoutingStrategy_ratio cost_optimized
                                        DEFAULT_SCORING_WEIGHTS _)))
            eq_refl)).
  unfold nonNegativeWeights. cbn. repeat split; discriminate.
Defined.


End RouterExtras.

(** ** Entry points *)

Section EntryExtras.

Import TaskClassifier Models ModelScorer TaskRouter.
Open Scope string_scope.

Variable AuthProfileStore : Type.
Variable ProfileId : Type.
Variable ensureAuthProfileStore : string -> option AuthProfileStore.
Variable resolveAuthProfileOrder :
  OpenClawConfig -> AuthProfileStore -> string -> option (list ProfileId).
Variable isProfileInCooldown : AuthProfileStore -> ProfileId -> bool.
Variable resolveDefaultModelForAgent : option OpenClawConfig -> ModelRef.

(** Whether the filter callback keeps a fallback when it does not throw. *)
Definition keepsUsable (cfg : OpenClawConfig) (store : AuthProfileStore)
           (f : ModelRef) : bool :=
  orElse (fallbackUsable resolveAuthProfileOrder isProfileInCooldown
                         cfg store f) true.

Lemma filterUsable_Some cfg store fs kept :
  filterUsable resolveAuthProfileOrder isProfileInCooldown cfg store fs
  = Some kept ->
  kept = filter (keepsUsable cfg store) fs.
Proof.
  revert kept. induction fs as [|f fs IH]; intros kept H; cbn in H.
  - now injection H as <-.
  - unfold keepsUsable at 1. cbn [filter].
    destruct (fallbackUsable _ _ cfg store f) as [keep|]; [|discriminate].
    destruct (filterUsable _ _ cfg store fs) as [kept'|]; [|discriminate].
    injection H as <-. cbn [orElse]. rewrite (IH kept' eq_refl).
    now destruct keep.
Qed.

Lemma filterUsable_None cfg store fs :
  filterUsable resolveAuthProfileOrder isProfileInCooldown cfg store fs = None
  <-> exists f, In f fs
                /\ resolveAuthProfileOrder cfg store (ref_provider f) = None.
Proof.
  induction fs as [|f fs IH]; cbn [filterUsable].
  - split; [discriminate | intros (f & [] & _)].
  - unfold fallbackUsable at 1.
    destruct (resolveAuthProfileOrder cfg store (ref_provider f))
      as [ids|] eqn:E.
    + assert (Hk : exists keep,
                 match ids with
                 | [] => Some true
                 | _ :: _ =>
                     Some (existsb
                             (fun id => negb (isProfileInCooldown store id))
                             ids)
                 end = Some keep) by (destruct ids; eauto).
      destruct Hk as [keep ->].
      destruct (filterUsable _ _ cfg store fs) as [kept|].
      * split; [discriminate|]. intros (g & [<- | Hg] & Eg); [congruence|].
        assert (H : Some kept = None) by (apply IH; now exists g).
        discriminate.
      * split; [|reflexivity]. intros _.
        destruct (proj1 IH eq_refl) as (g & Hg & Eg).
        exists g. split; [now right | exact Eg].
    + split; [|reflexivity]. intros _. exists f. split; [now left | exact E].
Qed.

Lemma keepsUsable_spec cfg store f ids :
  resolveAuthProfileOrder cfg store (ref_provider f) = Some ids ->
  keepsUsable cfg store f = true
  <-> ids = [] \/ exists id, In id ids /\ isProfileInCooldown store id = false.
Proof.
  intro E. unfold keepsUsable, fallbackUsable. rewrite E.
  destruct ids as [|i ids]; cbn [orElse].
  - split; auto.
  - rewrite existsb_exists. split.
    + intros (id & Hid & Hc). right. exists id.
      split; [exact Hid | now apply negb_true_iff].
    + intros [H | (id & Hid & Hc)]; [discriminate|].
      exists id. split; [exact Hid | now apply negb_true_iff].
Qed.

Lemma filterFallbacks_filter cfg agentDir fallbacks :
  (exists keep,
      filterFallbacksByCooldown ensureAuthProfileStore
                                resolveAuthProfileOrder isProfileInCooldown
                                cfg agentDir fallbacks
      = filter keep fallbacks)
  /\ (ensureAuthProfileStore agentDir = None ->
      filterFallbacksByCooldown ensureAuthProfileStore
                                resolveAuthProfileOrder isProfileInCooldown
                                cfg agentDir fallbacks
      = fallbacks).
Proof.
  unfold filterFallbacksByCooldown.
  assert (Hall : fallbacks = filter (fun _ => true) fallbacks).
  { clear. induction fallbacks as [|f fs IH]; cbn; congruence. }
  destruct (ensureAuthProfileStore agentDir) as [store|].
  - split; [|discriminate].
    destruct (filterUsable _ _ cfg store fallbacks) as [l|] eqn:Ef.
    + eexists. exact (filterUsable_Some _ _ _ _ Ef).
    + eexists. exact Hall.
  - split; [eexists; exact Hall | reflexivity].
Qed.

(** X17: [filterFallbacksByCooldown] only drops fallbacks and keeps the
    order of the rest.  When the auth store cannot be opened, or resolving
    the profiles of one of the fallbacks fails, all fallbacks are returned.
    Otherwise a fallback is kept exactly when its provider has no profile
    or has a profile that is not in cooldown. *)
Theorem filterFallbacksByCooldown_sound (cfg : OpenClawConfig)
        (agentDir : string) (fallbacks : list ModelRef) :
  let kept :=
    filterFallbacksByCooldown ensureAuthProfileStore resolveAuthProfileOrder
                              isProfileInCooldown cfg agentDir fallbacks in
  (exists keep, kept = filter keep fallbacks)
  /\ (ensureAuthProfileStore agentDir = None -> kept = fallbacks)
  /\ (forall store f,
         ensureAuthProfileStore agentDir = Some store ->
         In f fallbacks ->
         resolveAuthProfileOrder cfg store (ref_provider f) = None ->
         kept = fallbacks)
  /\ (forall store,
         ensureAuthProfileStore agentDir = Some store ->
         (forall f, In f fallbacks ->
                    resolveAuthProfileOrder cfg store (ref_provider f)
                    <> None) ->
         forall f,
           In f kept
           <-> In f fallbacks
               /\ forall ids,
                   resolveAuthProfileOrder cfg store (ref_provider f)
                   = Some ids ->
                   ids = []
                   \/ exists id, In id ids
                                 /\ isProfileInCooldown store id = false).
Proof.
  intro kept. unfold filterFallbacksByCooldown in kept.
  assert (Hall : fallbacks = filter (fun _ => true) fallbacks).
  { clear. induction fallbacks as [|f fs IH]; cbn; congruence. }
  destruct (ensureAuthProfileStore agentDir) as [store|] eqn:Es.
  2:{ subst kept. split; [eexists; exact Hall|]. split; [reflexivity|].
      split; intros; discriminate. }
  destruct (filterUsable resolveAuthProfileOrder isProfileInCooldown
                         cfg store fallbacks) as [l|] eqn:Ef.
  - pose proof (filterUsable_Some _ _ _ _ Ef) as El. subst kept.
    split; [eexists; exact El|]. split; [discriminate|].
    split.
    + intros store' f [= <-] Hf Hn. exfalso.
      assert (filterUsable resolveAuthProfileOrder isProfileInCooldown
                           cfg store fallbacks = None)
        by (apply filterUsable_None; now exists f).
      congruence.
    + intros store' [= <-] Hok f. rewrite El, filter_In.
      split; intros [Hf Hk]; (split; [exact Hf|]).
      * intros ids Eids. now apply (keepsUsable_spec _ _ _ _ Eids).
      * destruct (resolveAuthProfileOrder cfg store (ref_provider f))
          as [ids|] eqn:Eids; [|now elim (Hok f Hf)].
        apply (keepsUsable_spec _ _ _ _ Eids). now apply Hk.
  - subst kept.
    split; [eexists; exact Hall|]. split; [discriminate|].
    split; [reflexivity|].
    intros store' [= <-] Hok. exfalso.
    apply filterUsable_None in Ef as (f & Hf & Hn). exact (Hok f Hf Hn).
Qed.

Lemma createRouterFromConfig_cases cfg catalog :
  (isTrue (cfg_enabled (loadRoutingConfig cfg)) = false
   /\ createRouterFromConfig cfg catalog = None)
  \/ (isTrue (cfg_enabled (loadRoutingConfig cfg)) = true
      /\ createRouterFromConfig cfg catalog
         = Some (newRouter (loadRoutingConfig cfg) catalog)
      /\ enabled (config (newRouter (loadRoutingConfig cfg) catalog)) = true).
Proof.
  unfold createRouterFromConfig. cbv zeta.
  destruct (cfg_enabled (loadRoutingConfig cfg)) as [[|]|] eqn:E; cbn.
  - right. repeat split. now rewrite E.
  - now left.
  - now left.
Qed.

(** What [routeModelForTask] returns when routing yields nothing. *)
Definition fallbackResult (cfg : option OpenClawConfig)
  : RouteModelForTaskResult :=
  match orElse (cfg_fallbackBehavior (loadRoutingConfig cfg))
               default_model with
  | manual_selection => ManualSelectionRequired
  | default_model =>
      Routed (ref_provider (resolveDefaultModelForAgent cfg))
             (ref_model (resolveDefaultModelForAgent cfg)) None None
  end.

Lemma fallbackResult_undecided cfg p m fs d :
  fallbackResult cfg <> Routed p m fs (Some d).
Proof.
  unfold fallbackResult. destruct (orElse _ _); discriminate.
Qed.

(** X18: for a loaded, non-empty catalog, [shouldUseRouting] tells whether
    [routeModelForTask] returns a routing decision.  When it is false the
    router is not created and the result is the agent's default model,
    without fallbacks and without a decision, or the request for a manual
    selection when the fallback behaviour is [manual_selection]. *)
Theorem shouldUseRouting_decides (cfg : option OpenClawConfig)
        (catalog : list ModelCatalogEntry) (options : TaskRoutingOptions)
        (agentDir : option string) :
  catalog <> [] ->
  let result :=
    routeModelForTask ensureAuthProfileStore resolveAuthProfileOrder
                      isProfileInCooldown resolveDefaultModelForAgent
                      cfg catalog options agentDir in
  (shouldUseRouting cfg (overrideModel options) = true
   <-> exists p m fs d, result = Routed p m fs (Some d))
  /\ (shouldUseRouting cfg (overrideModel options) = false ->
      createRouterFromConfig cfg catalog = None
      /\ result = fallbackResult cfg).
Proof.
  intros Hc result. subst result.
  unfold shouldUseRouting, routeModelForTask. cbv zeta.
  destruct (isOverride (overrideModel options)) eqn:Ho.
  { split; [|discriminate]. split; [|reflexivity]. intros _.
    do 4 eexists. reflexivity. }
  destruct (createRouterFromConfig_cases cfg catalog)
    as [[Ed Er] | (Ee & Er & Hen)]; rewrite Er.
  - fold (fallbackResult cfg). rewrite Ed.
    split; [|auto]. split; [discriminate|].
    intros (p & m & fs & d & E). now apply fallbackResult_undecided in E.
  - rewrite Ee. split; [|discriminate]. split; [|reflexivity]. intros _.
    destruct (selectModelForTask_routed
                (newRouter (loadRoutingConfig cfg) catalog) options
                Ho Hen Hc) as (selected & rest & reasoning & _ & ->).
    do 4 eexists. reflexivity.
Qed.


Lemma filter_length_le A (keep : A -> bool) l :
  (List.length (filter keep l) <= List.length l)%nat.
Proof.
  induction l as [|x l IH]; cbn; [lia|]. destruct (keep x); cbn; lia.
Qed.

(** X19: without an override, a decision returned by [routeModelForTask]
    means that routing is enabled; the returned provider and model are
    those of an entry of the catalog, there are at most three fallbacks,
    and each of them is the [provider/model] key of a catalog entry. *)
Theorem routeModelForTask_sound (cfg : option OpenClawConfig)
        (catalog : list ModelCatalogEntry) (options : TaskRoutingOptions)
        (agentDir : option string) :
  isOverride (overrideModel options) = false ->
  forall p m fs d,
    routeModelForTask ensureAuthProfileStore resolveAuthProfileOrder
                      isProfileInCooldown resolveDefaultModelForAgent
                      cfg catalog options agentDir
    = Routed p m fs (Some d) ->
    isTrue (cfg_enabled (loadRoutingConfig cfg)) = true
    /\ (exists e, In e catalog /\ p = entry_provider e /\ m = entry_id e)
    /\ forall l, fs = Some l ->
         (List.length l <= 3)%nat
         /\ forall f, In f l ->
              exists e, In e catalog
                        /\ f = refKey (entry_provider e) (entry_id e).
Proof.
  intros Ho p m fs d. unfold routeModelForTask. rewrite Ho. cbv zeta.
  destruct (createRouterFromConfig_cases cfg catalog)
    as [[Ed Er] | (Ee & Er & Hen)]; rewrite Er.
  { fold (fallbackResult cfg). intro E.
    now apply fallbackResult_undecided in E. }
  destruct (selectModelForTask (newRouter (loadRoutingConfig cfg) catalog)
                               options) as [res|] eqn:Es.
  2:{ fold (fallbackResult cfg). intro E.
      now apply fallbackResult_undecided in E. }
  destruct (proj2 (selectModelForTask_facts _ _ Ho) res Es)
    as (_ & _ & _ & _ & (e & He & Hp) & Hfs).
  cbn [TaskRouter.catalog newRouter] in He, Hfs.
  intros [= <- <- <- _]. split; [exact Ee|].
  split.
  { exists e. rewrite Hp. now split. }
  intros l El.
  assert (Hsub : exists fs0 keep,
             fallbacks res = Some fs0
             /\ l = map (fun f => refKey (ref_provider f) (ref_model f))
                        (filter keep fs0)).
  { assert (Hall : forall fs0 : list ModelRef,
               fs0 = filter (fun _ => true) fs0).
    { induction fs0 as [|x fs0 IH]; cbn; congruence. }
    destruct (fallbacks res) as [fs0|]; [|destruct agentDir; discriminate].
    exists fs0.
    destruct agentDir as [dir|];
      [|exists (fun _ => true); split; [reflexivity|];
        cbn in El; injection El as <-; now rewrite <- Hall].
    destruct cfg as [c|];
      [|exists (fun _ => true); split; [reflexivity|];
        cbn in El; injection El as <-; now rewrite <- Hall].
    destruct (Js.truthy dir);
      [|exists (fun _ => true); split; [reflexivity|];
        cbn in El; injection El as <-; now rewrite <- Hall].
    destruct (proj1 (filterFallbacks_filter c dir fs0)) as [keep Ek].
    exists keep. split; [reflexivity|].
    cbn in El. injection El as <-. now rewrite Ek. }
  destruct Hsub as (fs0 & keep & E0 & ->).
  destruct (Hfs fs0 E0) as [Hlen Hin].
  split.
  - rewrite length_map. pose proof (filter_length_le _ keep fs0). lia.
  - intros f Hf. apply in_map_iff in Hf as (g & <- & Hg).
    apply filter_In in Hg as [Hg _].
    destruct (Hin g Hg) as (e' & He' & ->). now exists e'.
Qed.


End EntryExtras.

Section EntryExamples.

Import TaskClassifier Models ModelScorer TaskRouter.
Open Scope string_scope.

(** Collaborators for the examples: a store that opens, no auth profile for
    any provider, and a fixed default model. *)
Definition openStore (agentDir : string) : option unit := Some tt.

Definition noProfiles (cfg : OpenClawConfig) (store : unit)
           (provider : string) : option (list unit) := Some [].

Definition neverCooling (store : unit) (id : unit) : bool := false.

Definition fixedDefault (cfg : option OpenClawConfig) : ModelRef :=
  {| ref_provider := "anthropic"; ref_model := "claude-sonnet" |}.

Definition ruledConfig : OpenClawConfig :=
  {| agents_defaults_routing :=
       Some {| cfg_enabled := Some true; cfg_strategy := None;
               cfg_preferLocal := None; cfg_localProviders := None;
               cfg_cloudProviders := None;
               cfg_taskRules := Some [reasoningRule];
               cfg_scoringWeights := None;
               cfg_fallbackBehavior := None |} |}.

Lemma shouldUseRouting_decides_witness :
  shouldUseRouting None (overrideModel openaiOnly) = false
  /\ routeModelForTask openStore noProfiles neverCooling fixedDefault
                       None [plainModel] openaiOnly None
     = fallbackResult fixedDefault None.
Proof.
  split; [reflexivity|].
  refine (proj2 (proj2 (shouldUseRouting_decides
                          unit unit openStore noProfiles neverCooling
                          fixedDefault None [plainModel] openaiOnly None _)
                       eq_refl)).
  discriminate.
Defined.

Lemma routeModelForTask_sound_witness :
  match routeModelForTask openStore noProfiles neverCooling fixedDefault
                          (Some ruledConfig) [plainModel; thinkerModel]
                          openaiOnly (Some "agent") with
  | Routed p m _ (Some _) =>
      exists e, In e [plainModel; thinkerModel]
                /\ p = entry_provider e /\ m = entry_id e
  | _ => False
  end.
Proof.
  destruct (routeModelForTask openStore noProfiles neverCooling fixedDefault
                              (Some ruledConfig) [plainModel; thinkerModel]
                              openaiOnly (Some "agent"))
    as [p m fs [d|]|] eqn:E.
  - exact (proj1 (proj2 (routeModelForTask_sound
                           unit unit openStore noProfiles neverCooling
                           fixedDefault (Some ruledConfig)
                           [plainModel; thinkerModel] openaiOnly
                           (Some "agent") eq_refl p m fs d E))).
  - vm_compute in E. discriminate.
  - vm_compute in E. discriminate.
Defined.

End EntryExamples.

(** ** The catalog *)

Section CatalogExtras.

Import Models ModelCatalog ModelScorer.
Open Scope string_scope.
Open Scope Q_scope.

Variable OpenClawConfig : Type.
Variable localeCompare : string -> string -> Q.

(** What the loop of [loadModelCatalog] guarantees of an entry it pushes. *)
Definition wellFormed (m : ModelCatalogEntry) : Prop :=
  entry_id m <> "" /\ Js.trim (entry_id m) = entry_id m
  /\ entry_provider m <> "" /\ Js.trim (entry_provider m) = entry_provider m
  /\ entry_name m <> "" /\ Js.trim (entry_name m) = entry_name m
  /\ (forall w, entry_contextWindow m = Some w -> 0 < w)
  /\ (forall c, entry_cost m = Some c ->
                cost_input c <> None \/ cost_output c <> None
                \/ cost_cacheRead c <> None \/ cost_cacheWrite c <> None).

Lemma resolveModelCost_some value c :
  resolveModelCost value = Some c ->
  cost_input c <> None \/ cost_output c <> None
  \/ cost_cacheRead c <> None \/ cost_cacheWrite c <> None.
Proof.
  unfold resolveModelCost. destruct value as [c'|]; [|discriminate].
  destruct (cost_input c') eqn:E1, (cost_output c') eqn:E2,
           (cost_cacheRead c') eqn:E3, (cost_cacheWrite c') eqn:E4;
    intros [= <-]; rewrite ?E1, ?E2, ?E3, ?E4;
    try (left; discriminate); try (right; left; discriminate);
    try (right; right; left; discriminate);
    try (right; right; right; discriminate).
Qed.

Lemma catalogEntry_wellFormed entry m :
  catalogEntry entry = Some m -> wellFormed m.
Proof.
  unfold catalogEntry. cbv zeta.
  destruct (Js.truthy (Js.trim (TaskClassifier.orElse (d_id entry) "")))
    eqn:Ei; [|discriminate].
  destruct (Js.truthy (Js.trim (TaskClassifier.orElse (d_provider entry) "")))
    eqn:Ep; [|discriminate].
  cbn [negb]. intros [= <-]. unfold wellFormed.
  cbn [entry_id entry_provider entry_name entry_contextWindow entry_cost].
  apply truthy_true in Ei. apply truthy_true in Ep.
  split; [exact Ei|]. split; [apply trim_idempotent|].
  split; [exact Ep|]. split; [apply trim_idempotent|].
  split; [|split; [|split]].
  - destruct (Js.truthy (Js.trim (TaskClassifier.orElse (d_name entry) _)))
      eqn:En; [now apply truthy_true in En | exact Ei].
  - destruct (Js.truthy (Js.trim (TaskClassifier.orElse (d_name entry) _)));
      apply trim_idempotent.
  - intro w. destruct (d_contextWindow entry) as [w'|]; [|discriminate].
    destruct (Js.gtb w' 0) eqn:E; [|discriminate].
    intros [= <-]. now apply ltb_true in E.
  - intro c. apply resolveModelCost_some.
Qed.

Lemma collectModels_In entries m :
  In m (collectModels entries)
  <-> exists e, In e entries /\ catalogEntry e = Some m.
Proof.
  induction entries as [|e entries IH]; cbn [collectModels].
  - split; [intros [] | intros (e & [] & _)].
  - destruct (catalogEntry e) as [m'|] eqn:E.
    + cbn [In]. rewrite IH. split.
      * intros [<- | (e' & He' & Ee')];
          [exists e; split; [now left | exact E]
          | exists e'; split; [now right | exact Ee']].
      * intros (e' & [<- | He'] & Ee');
          [left; congruence | right; now exists e'].
    + rewrite IH. split.
      * intros (e' & He' & Ee'). exists e'. split; [now right | exact Ee'].
      * intros (e' & [<- | He'] & Ee'); [congruence | now exists e'].
Qed.

Lemma resolvedValue_In outcome m :
  In m (resolvedValue localeCompare outcome) -> wellFormed m.
Proof.
  intro H.
  assert (H' : exists entries, In m (collectModels entries)).
  { destruct outcome as [entries | entries]; exists entries;
      cbn [resolvedValue] in H; unfold sortModels in H;
      (eapply Permutation_in; [apply toSorted_perm | exact H]). }
  destruct H' as (entries & H').
  apply collectModels_In in H' as (e & _ & E).
  exact (catalogEntry_wellFormed _ _ E).
Qed.

(** Every resolved promise holds well-formed entries only. *)
Definition servesWellFormed (st : CatalogState) : Prop :=
  forall p v, statusOf st p = Some (Fulfilled v) -> Forall wellFormed v.

Lemma loadModelCatalog_status (params : option (LoadParams OpenClawConfig))
      loadConfig st q s :
  statusOf (snd (loadModelCatalog params loadConfig st)) q = Some s ->
  statusOf st q = Some s \/ s = Pending \/ s = Fulfilled [].
Proof.
  unfold loadModelCatalog, statusOf.
  assert (P : promises (if bypassesCache params then withCache None st else st)
              = promises st)
    by (destruct (bypassesCache params); reflexivity).
  destruct (modelCatalogPromise
              (if bypassesCache params then withCache None st else st)).
  - cbn [snd]. rewrite P. auto.
  - destruct (configThrows params loadConfig);
      cbn [snd promises withCache withPromises];
      rewrite ?promises_logOnce, P, nth_error_snoc;
      destruct (Nat.eqb q (List.length (promises st)));
      intro H; auto; injection H as <-; auto.
Qed.

Lemma servesWellFormed_step st (e : Event OpenClawConfig) :
  servesWellFormed st -> servesWellFormed (step localeCompare st e).
Proof.
  intros Hinv p v H. destruct e as [params loadConfig | q outcome];
    cbn [step] in H.
  - apply loadModelCatalog_status in H as [H | [H | H]].
    + exact (Hinv p v H).
    + discriminate.
    + injection H as ->. constructor.
  - destruct (isPending st q) eqn:Hq.
    + unfold statusOf in H. rewrite (settle_promises _ _ _ _ Hq) in H.
      rewrite nth_error_setNth in H.
      destruct (Nat.eqb p q).
      * destruct (nth_error (promises st) q); [|discriminate].
        injection H as <-. apply Forall_forall. intro m.
        apply resolvedValue_In.
      * exact (Hinv p v H).
    + rewrite (settle_not_pending _ _ _ _ Hq) in H. exact (Hinv p v H).
Qed.

Lemma servesWellFormed_run (events : list (Event OpenClawConfig)) st :
  servesWellFormed st -> servesWellFormed (run localeCompare events st).
Proof.
  revert st. induction events as [|e events IH]; intros st H; [exact H|].
  cbn [run fold_left]. apply IH. now apply servesWellFormed_step.
Qed.

(** X20: whatever calls and settlements have happened since module load,
    every entry of every catalog that a promise of [loadModelCatalog] has
    resolved to has a non-empty, trimmed id, provider and name, a positive
    context window if it has one, and a cost with at least one field if it
    has one. *)
Theorem served_catalogs_wellFormed (events : list (Event OpenClawConfig))
        (p : PromiseId) (v : list ModelCatalogEntry) (m : ModelCatalogEntry) :
  statusOf (run localeCompare events initialState) p = Some (Fulfilled v) ->
  In m v ->
  wellFormed m.
Proof.
  intros H Hm.
  assert (Hinv : servesWellFormed (run localeCompare events initialState)).
  { apply servesWellFormed_run. intros q w Hq.
    unfold statusOf in Hq. cbn in Hq. now destruct q. }
  exact (proj1 (Forall_forall _ _) (Hinv p v H) m Hm).
Qed.

(** *** Lookup *)

Lemma lowerChar_idempotent c : Js.lowerChar (Js.lowerChar c) = Js.lowerChar c.
Proof.
  destruct c as [[] [] [] [] [] [] [] []]; vm_compute; reflexivity.
Qed.

Lemma toLowerCase_idempotent s :
  Js.toLowerCase (Js.toLowerCase s) = Js.toLowerCase s.
Proof.
  unfold Js.toLowerCase. rewrite chars_str, map_map. f_equal.
  apply map_ext. intro c. apply lowerChar_idempotent.
Qed.

Lemma matchesIdentity_true p i e :
  matchesIdentity p i e = true
  <-> Js.toLowerCase (entry_provider e) = p /\ Js.toLowerCase (entry_id e) = i.
Proof.
  unfold matchesIdentity. now rewrite andb_true_iff, !streq_true.
Qed.

(** X21: [findModelInCatalog] returns the first entry of the catalog whose
    provider and id equal the requested ones once all four are lower-cased
    and the requested ones are trimmed, and nothing when there is no such
    entry; the letter case of the request and white space around it play no
    part. *)
Theorem findModelInCatalog_sound (catalog : list ModelCatalogEntry)
        (provider modelId : string) :
  (forall e, findModelInCatalog catalog provider modelId = Some e ->
             exists before after,
               catalog = (before ++ e :: after)%list
               /\ Js.toLowerCase (entry_provider e)
                  = Js.toLowerCase (Js.trim provider)
               /\ Js.toLowerCase (entry_id e)
                  = Js.toLowerCase (Js.trim modelId)
               /\ forall x, In x before ->
                    ~ (Js.toLowerCase (entry_provider x)
                       = Js.toLowerCase (Js.trim provider)
                       /\ Js.toLowerCase (entry_id x)
                          = Js.toLowerCase (Js.trim modelId)))
  /\ (findModelInCatalog catalog provider modelId = None ->
      forall x, In x catalog ->
                ~ (Js.toLowerCase (entry_provider x)
                   = Js.toLowerCase (Js.trim provider)
                   /\ Js.toLowerCase (entry_id x)
                      = Js.toLowerCase (Js.trim modelId)))
  /\ findModelInCatalog catalog (Js.toLowerCase provider)
                        (Js.toLowerCase modelId)
     = findModelInCatalog catalog provider modelId
  /\ findModelInCatalog catalog (Js.trim provider) (Js.trim modelId)
     = findModelInCatalog catalog provider modelId.
Proof.
  unfold findModelInCatalog. cbv zeta. rewrite !trim_toLowerCase.
  split; [|split; [|split]].
  - induction catalog as [|x catalog IH]; intros e H; [discriminate|].
    cbn [find] in H.
    destruct (matchesIdentity _ _ x) eqn:Ex.
    + injection H as <-. apply matchesIdentity_true in Ex as [Ep Ei].
      exists [], catalog. split; [reflexivity|].
      split; [exact Ep|]. split; [exact Ei | intros y []].
    + destruct (IH e H) as (before & after & -> & Ep & Ei & Hb).
      exists (x :: before), after. split; [reflexivity|].
      split; [exact Ep|]. split; [exact Ei|].
      intros y [<- | Hy]; [|now apply Hb].
      intro Hx. apply matchesIdentity_true in Hx. congruence.
  - intros H x Hx Hm. apply matchesIdentity_true in Hm.
    pose proof (find_none _ _ H x Hx). congruence.
  - now rewrite !toLowerCase_idempotent.
  - now rewrite !trim_idempotent.
Qed.

Lemma find_exists A (f : A -> bool) l x :
  In x l -> f x = true -> exists y, find f l = Some y.
Proof.
  intros Hx Hf. destruct (find f l) as [y|] eqn:E; [now exists y|].
  pose proof (find_none _ _ E x Hx). congruence.
Qed.

(** X22: an entry of the catalog whose provider and id carry no white space
    at their ends, as every loaded entry does, is found under its own
    provider and id: the lookup returns an entry of the catalog with the
    same lower-cased provider and id. *)
Theorem findModelInCatalog_finds (catalog : list ModelCatalogEntry)
        (m : ModelCatalogEntry) :
  In m catalog ->
  Js.trim (entry_provider m) = entry_provider m ->
  Js.trim (entry_id m) = entry_id m ->
  exists e,
    findModelInCatalog catalog (entry_provider m) (entry_id m) = Some e
    /\ In e catalog
    /\ Js.toLowerCase (entry_provider e) = Js.toLowerCase (entry_provider m)
    /\ Js.toLowerCase (entry_id e) = Js.toLowerCase (entry_id m).
Proof.
  intros Hm Hp Hi. unfold findModelInCatalog. cbv zeta.
  rewrite !trim_toLowerCase, Hp, Hi.
  destruct (find_exists _ (matchesIdentity
                             (Js.toLowerCase (entry_provider m))
                             (Js.toLowerCase (entry_id m)))
                        catalog m Hm) as [e E].
  { now apply matchesIdentity_true. }
  exists e. split; [exact E|].
  apply find_some in E as [He Hmatch].
  apply matchesIdentity_true in Hmatch as [E1 E2]. auto.
Qed.

(** X23: a model that [modelSupportsVision] accepts supports vision in the
    capability profile the scorer uses; the two agree on every entry with a
    declared profile or a declared input list, and an absent entry does not
    support vision. *)
Theorem modelSupportsVision_capability (e : ModelCatalogEntry) :
  (modelSupportsVision (Some e) = true ->
   supportsVision (getModelCapabilities e) = true)
  /\ (entry_capabilities e <> None \/ entry_input e <> None ->
      modelSupportsVision (Some e) = supportsVision (getModelCapabilities e))
  /\ modelSupportsVision None = false.
Proof.
  unfold modelSupportsVision, getModelCapabilities,
    modelCatalogEntryToCapabilities, ModelCapabilities.inferModelCapabilities.
  destruct (entry_capabilities e) as [caps|] eqn:Ec.
  - split; [auto|]. split; reflexivity.
  - cbv zeta. cbn [supportsVision].
    destruct (entry_input e) as [inp|].
    + split; [auto|]. split; reflexivity.
    + split; [discriminate|]. split; [|reflexivity].
      intros [H | H]; now elim H.
Qed.

(** *** Interference between loads *)

(** X24: a load that fails, or finds nothing, resets the cache whichever
    promise the cache holds: when a later load, started with
    [useCache: false], is cached, the failure of the earlier one evicts it,
    leaves its promise as it is, and the next call starts a discovery
    again. *)
Theorem stale_failure_evicts_cache (st : CatalogState) (p q : PromiseId)
        (outcome : DiscoveryOutcome)
        (params : option (LoadParams OpenClawConfig))
        (loadConfig : option OpenClawConfig) :
  isPending st p = true ->
  modelCatalogPromise st = Some q ->
  q <> p ->
  failedOrEmpty outcome = true ->
  let st' := settle localeCompare p outcome st in
  let next := loadModelCatalog params loadConfig st' in
  modelCatalogPromise st' = None
  /\ statusOf st' q = statusOf st q
  /\ fst next = discoveryRuns st
  /\ modelCatalogPromise (snd next) = Some (fst next)
  /\ discoveryRuns (snd next) = S (discoveryRuns st).
Proof.
  intros Hp Hq Hne Hf st' next.
  assert (Hc : modelCatalogPromise st' = None).
  { subst st'. now rewrite (settle_cache _ _ _ _ Hp), Hf. }
  assert (Hs : statusOf st' q = statusOf st q).
  { subst st'. unfold statusOf. rewrite (settle_promises _ _ _ _ Hp).
    rewrite nth_error_setNth.
    destruct (Nat.eqb q p) eqn:E; [|reflexivity].
    apply Nat.eqb_eq in E. contradiction. }
  assert (Hlen : discoveryRuns st' = discoveryRuns st).
  { subst st'. unfold discoveryRuns. rewrite (settle_promises _ _ _ _ Hp).
    apply length_setNth. }
  destruct (load_fresh _ params loadConfig st' (or_intror Hc))
    as (Hfst & Hruns & Hcache & _).
  fold next in Hfst, Hruns, Hcache.
  split; [exact Hc|]. split; [exact Hs|].
  split; [now rewrite Hfst, Hlen|].
  split; [exact Hcache | now rewrite Hruns, Hlen].
Qed.

(** *** Order of a loaded catalog *)

(** [a] may stand directly before [b]: its provider collates first, or the
    providers collate alike and its name does not collate after. *)
Definition catalogOrder (a b : ModelCatalogEntry) : Prop :=
  localeCompare (entry_provider a) (entry_provider b) < 0
  \/ (localeCompare (entry_provider a) (entry_provider b) == 0
      /\ localeCompare (entry_name a) (entry_name b) <= 0).

(** X25: when [localeCompare] is antisymmetric, the catalog that a load
    resolves to holds the usable entries of the discovery, each as often as
    discovered, with every entry before its successor by provider and then
    by name. *)
Theorem loaded_catalog_sorted (outcome : DiscoveryOutcome) :
  (forall a b, 0 < localeCompare a b -> localeCompare b a < 0) ->
  (forall a b, localeCompare a b == 0 -> localeCompare b a == 0) ->
  Sorted catalogOrder (resolvedValue localeCompare outcome)
  /\ Permutation (resolvedValue localeCompare outcome)
                 (collectModels match outcome with
                                | Enumerated entries => entries
                                | Threw processed => processed
                                end).
Proof.
  intros Hanti Hzero.
  assert (Hs : forall l, Sorted catalogOrder (sortModels localeCompare l)).
  { intro l. unfold sortModels. apply toSorted_Sorted.
    - intros x y H. apply ltb_false in H. unfold sortCompare in H.
      cbv zeta in H. unfold catalogOrder.
      destruct (Js.eqb (localeCompare (entry_provider x) (entry_provider y)) 0)
        eqn:E; cbn [negb] in H.
      + apply eqb_true in E. right. split; [exact E | exact H].
      + apply eqb_false in E. left.
        destruct (Qlt_le_dec (localeCompare (entry_provider x)
                                            (entry_provider y)) 0)
          as [Hlt | Hge]; [exact Hlt|].
        exfalso. apply E. lra.
    - intros x y H. apply ltb_true in H. unfold sortCompare in H.
      cbv zeta in H. unfold catalogOrder.
      destruct (Js.eqb (localeCompare (entry_provider x) (entry_provider y)) 0)
        eqn:E; cbn [negb] in H.
      + apply eqb_true in E. right.
        split; [now apply Hzero|]. apply Hanti in H. lra.
      + left. now apply Hanti. }
  destruct outcome as [entries | processed]; cbn [resolvedValue].
  - split; [apply Hs | apply toSorted_perm].
  - split; [apply Hs | apply toSorted_perm].
Qed.

(** *** A configuration that cannot be read *)

(** X27: when the configuration lookup of a call throws while the cache is
    empty and no load is pending, the promise of that call, already
    resolved to the empty list, is stored in the cache.  From then on, as
    long as no caller passes [useCache: false], the state does not change:
    every call, whatever configuration it passes, gets that empty catalog
    and no discovery runs. *)
Theorem synchronous_failure_poisons_cache (st : CatalogState)
        (params : option (LoadParams OpenClawConfig))
        (later : list (Event OpenClawConfig)) :
  modelCatalogPromise st = None ->
  (forall q, isPending st q = false) ->
  configThrows params None = true ->
  noBypass OpenClawConfig later = true ->
  let first := loadModelCatalog params None st in
  let st2 := run localeCompare later (snd first) in
  statusOf (snd first) (fst first) = Some (Fulfilled [])
  /\ st2 = snd first
  /\ modelCatalogPromise st2 = Some (fst first)
  /\ forall (params' : option (LoadParams OpenClawConfig)) loadConfig',
      bypassesCache params' = false ->
      loadModelCatalog params' loadConfig' st2 = (fst first, st2).
Proof.
  intros Hc Hidle Ht Hb first st2.
  destruct (synchronous_failure_stays_cached _ params st Hc Ht)
    as (Hs & Hcache & _).
  fold first in Hs, Hcache.
  destruct (load_fresh _ params None st (or_intror Hc))
    as (_ & _ & _ & Hpend & Hold).
  fold first in Hpend, Hold. rewrite Ht in Hpend. cbn [negb] in Hpend.
  assert (Hstable : st2 = snd first).
  { subst st2. apply settled_state_stable; [congruence | | exact Hb].
    intro q. destruct (Nat.eq_dec q (fst first)) as [-> | Hq];
      [exact Hpend|].
    unfold isPending. rewrite (Hold q Hq). apply Hidle. }
  split; [exact Hs|]. split; [exact Hstable|].
  rewrite Hstable. split; [exact Hcache|].
  intros params' loadConfig' Hb'. now apply load_cached.
Qed.

End CatalogExtras.

Section CatalogExtraExamples.

Import Models ModelCatalog ModelScorer.
Open Scope string_scope.
Open Scope Q_scope.

(** The entry that the loop makes of [goodEntry]. *)
Definition goodModel : ModelCatalogEntry :=
  {| entry_id := "gpt-4.1"; entry_name := "GPT-4.1";
     entry_provider := "openai"; entry_contextWindow := None;
     entry_reasoning := None; entry_input := None; entry_cost := None;
     entry_capabilities := None |}.

(** A load with [useCache: false]. *)
Definition bypassLoad : Event unit :=
  Call (Some {| param_config := None; useCache := Some false |}) (Some tt).

(** Collation by code units. *)
Definition codeUnitCompare (a b : string) : Q :=
  match String.compare a b with
  | Lt => -1
  | Eq => 0
  | Gt => 1
  end.

Lemma codeUnitCompare_antisym a b :
  0 < codeUnitCompare a b -> codeUnitCompare b a < 0.
Proof.
  unfold codeUnitCompare. rewrite (String.compare_antisym b a).
  destruct (String.compare a b); cbn; intro H; try discriminate; reflexivity.
Qed.

Lemma codeUnitCompare_zero a b :
  codeUnitCompare a b == 0 -> codeUnitCompare b a == 0.
Proof.
  unfold codeUnitCompare. rewrite (String.compare_antisym b a).
  destruct (String.compare a b); cbn; intro H; try discriminate; reflexivity.
Qed.

Lemma served_catalogs_wellFormed_witness : wellFormed goodModel.
Proof.
  apply (served_catalogs_wellFormed
           unit flatCompare
           [defaultLoad; Settle O (Enumerated [goodEntry])]
           O [goodModel] goodModel).
  - reflexivity.
  - now left.
Defined.

Lemma findModelInCatalog_finds_witness :
  exists e,
    findModelInCatalog [goodModel] (entry_provider goodModel)
                       (entry_id goodModel) = Some e
    /\ In e [goodModel]
    /\ Js.toLowerCase (entry_provider e)
       = Js.toLowerCase (entry_provider goodModel)
    /\ Js.toLowerCase (entry_id e) = Js.toLowerCase (entry_id goodModel).
Proof.
  apply findModelInCatalog_finds; [now left | reflexivity | reflexivity].
Defined.

Lemma stale_failure_evicts_cache_witness :
  let st := run flatCompare
                [defaultLoad; bypassLoad; Settle 1%nat (Enumerated [goodEntry])]
                initialState in
  statusOf st 1%nat = Some (Fulfilled [goodModel])
  /\ modelCatalogPromise st = Some 1%nat
  /\ modelCatalogPromise (settle flatCompare O (Threw []) st) = None.
Proof.
  cbv zeta. split; [reflexivity|]. split; [reflexivity|].
  refine (proj1 (stale_failure_evicts_cache
                   unit flatCompare _ O 1%nat (Threw []) None (Some tt)
                   _ _ _ _)).
  - reflexivity.
  - reflexivity.
  - discriminate.
  - reflexivity.
Defined.

Lemma loaded_catalog_sorted_witness :
  Sorted (catalogOrder codeUnitCompare)
         (resolvedValue codeUnitCompare (Enumerated [goodEntry; goodEntry])).
Proof.
  exact (proj1 (loaded_catalog_sorted codeUnitCompare
                  (Enumerated [goodEntry; goodEntry])
                  codeUnitCompare_antisym codeUnitCompare_zero)).
Defined.


Lemma synchronous_failure_poisons_cache_witness :
  let first :=
    loadModelCatalog (None : option (LoadParams unit)) None initialState in
  run flatCompare [defaultLoad; Settle O (Enumerated [goodEntry])]
      (snd first) = snd first
  /\ statusOf (snd first) (fst first) = Some (Fulfilled []).
Proof.
  cbv zeta.
  destruct (synchronous_failure_poisons_cache
              unit flatCompare initialState None
              [defaultLoad; Settle O (Enumerated [goodEntry])])
    as (H1 & H2 & _);
    [reflexivity | intros [|q]; reflexivity | reflexivity | reflexivity |].
  split; [exact H2 | exact H1].
Defined.

End CatalogExtraExamples.

(** ** The two fallback builders *)

Section FallbackExtras.

Import TaskClassifier Models ModelScorer TaskRouter.
Open Scope string_scope.

(** The [provider/model] rendering of a reference. *)
Definition renderRef (f : ModelRef) : string :=
  refKey (ref_provider f) (ref_model f).

Lemma generateFallbackList_map ranked primary maxFallbacks :
  generateFallbackList ranked primary maxFallbacks
  = map renderRef
        (orElse (routerFallbackList ranked primary maxFallbacks) []).
Proof.
  unfold generateFallbackList, routerFallbackList.
  assert (E : orElse
                match fallbackLoop scoreRef (primaryKeyOf primary)
                                   (orElse maxFallbacks 3%nat) ranked [] with
                | [] => None
                | r :: l => Some (r :: l)
                end []
              = fallbackLoop scoreRef (primaryKeyOf primary)
                             (orElse maxFallbacks 3%nat) ranked [])
    by (destruct (fallbackLoop _ _ _ _ _); reflexivity).
  rewrite E, !fallbackLoop_spec. cbn [app].
  rewrite <- firstn_map, map_map. reflexivity.
Qed.

(** X26: the exported [generateFallbackList] renders, as [provider/model]
    strings, exactly the references that the router's own fallback method
    returns for the same ranking, primary and maximum.  So the fallbacks of
    a routed selection, once rendered, are what [generateFallbackList]
    computes from the decision's ranked scores and the primary. *)
Theorem generateFallbackList_agrees (r : TaskBasedModelRouter)
        (options : TaskRoutingOptions) (res : RoutingResult) :
  isOverride (overrideModel options) = false ->
  selectModelForTask r options = Some res ->
  (forall ranked primary maxFallbacks,
      generateFallbackList ranked primary maxFallbacks
      = map renderRef
            (orElse (routerFallbackList ranked primary maxFallbacks) []))
  /\ map renderRef (orElse (fallbacks res) [])
     = generateFallbackList (allRankedScores (decision res)) (primary res)
                            None.
Proof.
  intros Ho Hres. split; [apply generateFallbackList_map|].
  rewrite generateFallbackList_map. do 2 f_equal.
  destruct (enabled (config r)) eqn:He.
  2:{ unfold selectModelForTask in Hres. rewrite Ho, He in Hres.
      discriminate. }
  assert (Hc : catalog r <> []).
  { intro Hc.
    pose proof (proj2 (proj1 (selectModelForTask_facts r options Ho))
                      (or_intror Hc)).
    congruence. }
  destruct (selectModelForTask_routed r options Ho He Hc)
    as (selected & rest & reasoning & _ & E).
  rewrite E in Hres. injection Hres as <-. reflexivity.
Qed.

Lemma generateFallbackList_agrees_witness :
  match selectModelForTask ruledRouter openaiOnly with
  | Some res =>
      map renderRef (orElse (fallbacks res) [])
      = generateFallbackList (allRankedScores (decision res)) (primary res)
                             None
  | None => False
  end.
Proof.
  destruct (selectModelForTask ruledRouter openaiOnly) as [res|] eqn:E.
  - exact (proj2 (generateFallbackList_agrees ruledRouter openaiOnly res
                                              eq_refl E)).
  - vm_compute in E. discriminate.
Defined.

End FallbackExtras.
